(** * popbio: the discrete-time simulation drivers of [notebooks/interactions.ipynb]

    The notebook defines two drivers, [run_sim] and [run_sim_2d], that iterate
    a caller-supplied transition function over a numpy buffer, and a handful
    of transition functions, among them [SI_gen], which updates its array
    arguments in place.  This file embeds the drivers, the part of numpy they
    rely on (allocation, row assignment with casting and broadcasting, row
    views) and the transition functions, and proves the properties the
    specification states about them. *)

From Stdlib Require Import ZArith Lia.
From Stdlib Require Import Floats.SpecFloat.
From stdpp Require Import base list.

Local Open Scope Z_scope.

(** ** Numeric values *)

(** A Python or numpy number: an integer, or a binary64 float in the
    representation of the Standard Library's [SpecFloat]. *)
Inductive scalar : Type :=
| PyInt (z : Z)
| PyFloat (x : spec_float).

(** The cells of a one-dimensional array, and one row of a two-dimensional
    array. *)
Definition row : Type := list scalar.

(** What a driver is given as an initial vector, and what a transition
    function returns: a Python list of numbers, or a numpy array.  numpy
    does not convert the two in the same way when it stores them in an
    array. *)
Inductive value : Type :=
| PyList (items : row)
| NdArray (items : row).

Definition cells (v : value) : row :=
  match v with
  | PyList items => items
  | NdArray items => items
  end.

(** [len(v)] *)
Definition len (v : value) : nat := length (cells v).

Definition prec64 : Z := 53.
Definition emax64 : Z := 1024.

Definition int64_min : Z := - 2 ^ 63.
Definition int64_max : Z := 2 ^ 63 - 1.

Definition in_int64 (z : Z) : bool := (int64_min <=? z) && (z <=? int64_max).

(** Two's complement wrap-around of numpy's int64 arithmetic. *)
Definition wrap64 (z : Z) : Z := (z + 2 ^ 63) mod 2 ^ 64 - 2 ^ 63.

(** Magnitude of the integer part of [m * 2^e]: a left shift for [e >= 0],
    a right shift (which drops the fraction bits) for [e < 0]. *)
Definition trunc_mag (m : positive) (e : Z) : Z := Z.shiftl (Zpos m) e.

(** Truncation toward zero of a float; [None] for NaN and the infinities. *)
Definition SFtrunc (x : spec_float) : option Z :=
  match x with
  | S754_zero _ => Some 0
  | S754_finite s m e => Some (cond_Zopp s (trunc_mag m e))
  | S754_infinity _ => None
  | S754_nan => None
  end.

(** Does the float hold an integer?  The fraction bits of the mantissa are
    the [-e] low ones. *)
Definition SFis_integer (x : spec_float) : bool :=
  match x with
  | S754_zero _ => true
  | S754_finite _ m e => (0 <=? e) || (Zpos m mod 2 ^ (- e) =? 0)
  | S754_infinity _ => false
  | S754_nan => false
  end.

(** The nearest binary64 float of an integer (round to nearest even). *)
Definition SFofZ (z : Z) : spec_float := binary_normalize prec64 emax64 z 0 false.

(** Python's [==] between numbers: an integer and a float are equal when the
    float is finite and holds exactly that integer. *)
Definition num_eqb (a b : scalar) : bool :=
  match a, b with
  | PyInt x, PyInt y => x =? y
  | PyFloat x, PyFloat y => SFeqb x y
  | PyInt z, PyFloat x | PyFloat x, PyInt z =>
      SFis_integer x && match SFtrunc x with Some t => t =? z | None => false end
  end.

(** A number that is not an integer: a finite float with a fraction. *)
Definition non_integer (a : scalar) : bool :=
  match a with
  | PyInt _ => false
  | PyFloat (S754_finite s m e) => negb (SFis_integer (S754_finite s m e))
  | PyFloat _ => false
  end.

(** ** Exceptions and results *)

Inductive exn : Type :=
| AssertionError
| ValueError
| IndexError
| OverflowError
| TypeError.

Inductive outcome (A : Type) : Type :=
| Ok (a : A)
| Raise (e : exn).
Arguments Ok {A} a.
Arguments Raise {A} e.

Definition raises {A} (r : outcome A) : Prop := exists e, r = Raise e.

(** Sequencing of computations that may raise and have no other effect. *)
Definition and_then {A B} (r : outcome A) (k : A -> outcome B) : outcome B :=
  match r with
  | Ok x => k x
  | Raise e => Raise e
  end.

(** ** numpy dtypes *)

(** The drivers pass [dtype] on to [np.empty] and never look at it again:
    all it decides is how a value assigned into the buffer is converted.  A
    dtype is therefore modelled by its two conversions, which may raise:
    [pack] is what numpy does with an item of a Python list, [astype] what
    it does with a cell of an array. *)
Record np_dtype : Type := {
  pack : scalar -> outcome scalar;
  astype : scalar -> outcome scalar
}.

(** ['int'], from a Python list.  Integers are stored if they fit an int64.
    A Python float goes through Python's [int]: it is truncated toward zero,
    NaN is a [ValueError], an infinity an [OverflowError], and so is an
    integer part beyond the int64 range. *)
Definition pack_int (a : scalar) : outcome scalar :=
  match a with
  | PyInt z => if in_int64 z then Ok (PyInt z) else Raise OverflowError
  | PyFloat S754_nan => Raise ValueError
  | PyFloat x =>
      match SFtrunc x with
      | Some z => if in_int64 z then Ok (PyInt z) else Raise OverflowError
      | None => Raise OverflowError
      end
  end.

(** The cast of a float64 cell to int64 truncates toward zero and raises
    nothing: for NaN, the infinities and the floats beyond the int64 range
    numpy warns and stores what the conversion instruction of the processor
    returns, which on x86-64 is [int64_min]. *)
Definition float_to_int64 (x : spec_float) : Z :=
  match SFtrunc x with
  | Some z => if in_int64 z then z else int64_min
  | None => int64_min
  end.

(** ['int'], from an array.  An integer beyond the int64 range can only sit
    in an array of Python objects, whose items numpy converts like those of
    a list. *)
Definition astype_int (a : scalar) : outcome scalar :=
  match a with
  | PyInt z => if in_int64 z then Ok (PyInt z) else Raise OverflowError
  | PyFloat x => Ok (PyInt (float_to_int64 x))
  end.

Definition dt_int : np_dtype := {| pack := pack_int; astype := astype_int |}.

(** ['float']: float64, from a list and from an array alike.  Floats are
    stored as they are, integers are rounded to the nearest float; an
    integer too large for a float is rejected. *)
Definition astype_float (a : scalar) : outcome scalar :=
  match a with
  | PyFloat x => Ok (PyFloat x)
  | PyInt z =>
      match SFofZ z with
      | S754_infinity _ => Raise OverflowError
      | x => Ok (PyFloat x)
      end
  end.

Definition dt_float : np_dtype :=
  {| pack := astype_float; astype := astype_float |}.

(** The default of the [dtype] parameter of both drivers is ['int']. *)
Definition dtype_or_default (dtype : option np_dtype) : np_dtype :=
  default dt_int dtype.

(** The integer truncation of a number, as a total function: the integer
    part of a finite float, and the number itself where there is none. *)
Definition np_trunc (a : scalar) : scalar :=
  match a with
  | PyInt z => PyInt z
  | PyFloat x => match SFtrunc x with Some z => PyInt z | None => PyFloat x end
  end.

(** What ['int'] stores for a number whenever it stores something. *)
Definition int_cast (a : scalar) : scalar :=
  match a with
  | PyInt z => PyInt z
  | PyFloat x => PyInt (float_to_int64 x)
  end.

(** A number whose integer truncation is an int64. *)
Definition fits_int64 (a : scalar) : bool :=
  match np_trunc a with
  | PyInt z => in_int64 z
  | PyFloat _ => false
  end.

(** A number that a cell can hold: any integer, and a float of the binary64
    format, whose mantissa and exponent are in range. *)
Definition binary64 (a : scalar) : bool :=
  match a with
  | PyInt _ => true
  | PyFloat x => valid_binary prec64 emax64 x
  end.

(** ** Assignment into a row: casting and broadcasting *)

(** The conversion of the cells of [v] into the dtype [d]. *)
Definition convert (d : np_dtype) (v : value) : scalar -> outcome scalar :=
  match v with
  | PyList _ => pack d
  | NdArray _ => astype d
  end.

Fixpoint cast_cells (conv : scalar -> outcome scalar) (v : row) : outcome row :=
  match v with
  | [] => Ok []
  | a :: v' =>
      match conv a with
      | Raise e => Raise e
      | Ok b =>
          match cast_cells conv v' with
          | Raise e => Raise e
          | Ok w => Ok (b :: w)
          end
      end
  end.

Definition cast_all (d : np_dtype) (v : value) : outcome row :=
  cast_cells (convert d v) (cells v).

(** numpy broadcasts a one-dimensional value into a row of [L] cells: a value
    of [L] cells fits, a value of one cell is repeated, anything else is a
    [ValueError]. *)
Definition broadcast (L : nat) (v : row) : outcome row :=
  if decide (length v = L) then Ok v
  else match v with
       | [a] => Ok (replicate L a)
       | _ => Raise ValueError
       end.

(** What [A[t, :] = v] stores in a row of [L] cells of dtype [d]. *)
Definition coerce (d : np_dtype) (L : nat) (v : value) : outcome row :=
  match cast_all d v with
  | Raise e => Raise e
  | Ok w => broadcast L w
  end.

(** ** The state and error monad of the drivers *)

(** The two buffers of the drivers, named as in the source. *)
Inductive buf : Type := BufN | BufM.

(** What a driver does, in the order it does it: it allocates a buffer,
    stores generation [t] of a buffer, calls the transition function. *)
Inductive event : Type :=
| Alloc (b : buf)
| Store (b : buf) (t : nat)
| Call.

(** [world] is everything outside the driver that a transition function may
    read and change (the state of [np.random]); [trace] records the events of
    the driver so far, oldest first. *)
Record state (W : Type) : Type := { world : W; trace : list event }.
Arguments world {W} s.
Arguments trace {W} s.
Arguments Build_state {W} world trace.

Definition M (S A : Type) : Type := S -> outcome A * S.

Definition ret {S A} (a : A) : M S A := fun s => (Ok a, s).

Definition raise {S A} (e : exn) : M S A := fun s => (Raise e, s).

Definition bind {S A B} (m : M S A) (k : A -> M S B) : M S B :=
  fun s =>
    match m s with
    | (Ok a, s') => k a s'
    | (Raise e, s') => (Raise e, s')
    end.

Declare Scope sim_scope.
Delimit Scope sim_scope with sim.
Notation "x <- m ;; k" := (bind m (fun x => k))
  (at level 100, m at next level, right associativity) : sim_scope.
Notation "m1 ;; m2" := (bind m1 (fun _ => m2))
  (at level 100, right associativity) : sim_scope.
Local Open Scope sim_scope.

Definition lift_outcome {S A} (r : outcome A) : M S A := fun s => (r, s).

Definition log {W} (e : event) : M (state W) unit :=
  fun st => (Ok tt, {| world := world st; trace := trace st ++ [e] |}).

(** Run a computation of the world inside the driver. *)
Definition invoke {W A} (m : M W A) : M (state W) A :=
  fun st =>
    let (r, w) := m (world st) in
    (r, {| world := w; trace := trace st |}).

(** [for t in ts: s = body(t, s)] *)
Fixpoint for_each {S A} (ts : list nat) (body : nat -> A -> M S A) (a : A) : M S A :=
  match ts with
  | [] => ret a
  | t :: ts' => a' <- body t a ;; for_each ts' body a'
  end.

(** Python's [range(lo, hi)] for [0 <= lo]. *)
Definition range (lo hi : Z) : list nat :=
  seq (Z.to_nat lo) (Z.to_nat (hi - lo)).

(** ** numpy arrays *)

Section Drivers.

Context {W K : Type}.

(** [np.empty] does not initialise the cells: [garbage b t k] is whatever
    cell [(t, k)] of buffer [b] happens to hold. *)
Variable garbage : buf -> nat -> nat -> scalar.

(** [np.empty((ngens, L), dtype)]; a negative dimension is a [ValueError]. *)
Definition np_empty (b : buf) (ngens : Z) (L : nat) : M (state W) (list row) :=
  if ngens <? 0 then raise ValueError
  else
    log (Alloc b) ;;
    ret (map (fun t => map (garbage b t) (seq 0 L)) (seq 0 (Z.to_nat ngens))).

(** [A[t, :] = v] for an array of dtype [d]; an index past the last row is
    an [IndexError]. *)
Definition setitem (d : np_dtype) (b : buf) (A : list row) (t : nat) (v : value)
  : M (state W) (list row) :=
  match A !! t with
  | None => raise IndexError
  | Some old =>
      w <- lift_outcome (coerce d (length old) v) ;;
      log (Store b t) ;;
      ret (<[t := w]> A)
  end.

(** [A[t, :]] *)
Definition getitem (A : list row) (t : nat) : M (state W) row :=
  match A !! t with
  | None => raise IndexError
  | Some r => ret r
  end.

(** [A[t, :]] is a view: what the callee writes into it is written into
    the array.  [v'] lists the cells of the view when the callee returns; a
    view cannot be resized, so the row keeps its length. *)
Definition write_through (v v' : row) : row :=
  take (length v) v' ++ drop (length v') v.

(** ** Transition functions *)

(** A transition function gets the cells of the view(s) and the keyword
    arguments.  It may use and change the world, and it may raise.  When it
    returns, it yields its return value together with the cells of its
    array argument(s) at that moment: these differ from the cells it was
    given exactly when it updated the argument in place. *)
Definition gen_fn_1d : Type := row -> K -> M W (value * row).
Definition gen_fn_2d : Type :=
  row -> row -> K -> M W ((value * value) * (row * row)).

(** A transition function that leaves its array arguments alone. *)
Definition no_inplace_1d (gen_fn : gen_fn_1d) : Prop :=
  forall v kwargs w out v' w',
    gen_fn v kwargs w = (Ok (out, v'), w') -> v' = v.

Definition no_inplace_2d (gen_fn : gen_fn_2d) : Prop :=
  forall vN vM kwargs w out vs' w',
    gen_fn vN vM kwargs w = (Ok (out, vs'), w') -> vs' = (vN, vM).

(** A deterministic transition function without effects, given by the
    function it computes. *)
Definition pure_1d (f : row -> K -> value) : gen_fn_1d :=
  fun v kwargs => ret (f v kwargs, v).

Definition pure_2d (f : row -> row -> K -> value * value) : gen_fn_2d :=
  fun vN vM kwargs => ret (f vN vM kwargs, (vN, vM)).

(** ** The drivers *)

(** One turn of the loop of [run_sim]:
    [N[t, :] = gen_fn(N[t-1, :], **kwargs)] *)
Definition run_sim_step (gen_fn : gen_fn_1d) (d : np_dtype) (kwargs : K)
           (t : nat) (N : list row) : M (state W) (list row) :=
  v <- getitem N (t - 1) ;;
  log Call ;;
  r <- invoke (gen_fn v kwargs) ;;
  let '(out, v') := r in
  setitem d BufN (<[(t - 1)%nat := write_through v v']> N) t out.

(** [def run_sim(N0, gen_fn, ngens, dtype='int', **kwargs)] *)
Definition run_sim (N0 : value) (gen_fn : gen_fn_1d) (ngens : Z)
           (dtype : option np_dtype) (kwargs : K) : M (state W) (list row) :=
  let d := dtype_or_default dtype in
  N <- np_empty BufN ngens (len N0) ;;
  N <- setitem d BufN N 0 N0 ;;
  N <- for_each (range 1 ngens) (run_sim_step gen_fn d kwargs) N ;;
  ret N.

(** One turn of the loop of [run_sim_2d]:
    [N[t, :], M[t, :] = gen_fn(N[t-1, :], M[t-1, :], **kwargs)] *)
Definition run_sim_2d_step (gen_fn : gen_fn_2d) (d : np_dtype) (kwargs : K)
           (t : nat) (NM : list row * list row)
  : M (state W) (list row * list row) :=
  let '(N, M) := NM in
  vN <- getitem N (t - 1) ;;
  vM <- getitem M (t - 1) ;;
  log Call ;;
  r <- invoke (gen_fn vN vM kwargs) ;;
  let '((outN, outM), (vN', vM')) := r in
  N <- setitem d BufN (<[(t - 1)%nat := write_through vN vN']> N) t outN ;;
  M <- setitem d BufM (<[(t - 1)%nat := write_through vM vM']> M) t outM ;;
  ret (N, M).

(** [def run_sim_2d(N0, M0, gen_fn, ngens, dtype='int', **kwargs)] *)
Definition run_sim_2d (N0 M0 : value) (gen_fn : gen_fn_2d) (ngens : Z)
           (dtype : option np_dtype) (kwargs : K)
  : M (state W) (list row * list row) :=
  let d := dtype_or_default dtype in
  if negb (len N0 =? len M0)%nat then raise AssertionError
  else
    N <- np_empty BufN ngens (len N0) ;;
    N <- setitem d BufN N 0 N0 ;;
    M <- np_empty BufM ngens (len M0) ;;
    M <- setitem d BufM M 0 M0 ;;
    NM <- for_each (range 1 ngens) (run_sim_2d_step gen_fn d kwargs) (N, M) ;;
    ret NM.

(** The run of a driver up to turn [t] of its loop, which is not taken: the
    buffer and the state in which turn [t] starts, or in which the driver
    returns when [t] is [ngens]. *)
Definition run_sim_until (N0 : value) (gen_fn : gen_fn_1d) (ngens : Z)
           (dtype : option np_dtype) (kwargs : K) (t : Z)
  : M (state W) (list row) :=
  let d := dtype_or_default dtype in
  N <- np_empty BufN ngens (len N0) ;;
  N <- setitem d BufN N 0 N0 ;;
  for_each (range 1 t) (run_sim_step gen_fn d kwargs) N.

Definition run_sim_2d_until (N0 M0 : value) (gen_fn : gen_fn_2d) (ngens : Z)
           (dtype : option np_dtype) (kwargs : K) (t : Z)
  : M (state W) (list row * list row) :=
  let d := dtype_or_default dtype in
  if negb (len N0 =? len M0)%nat then raise AssertionError
  else
    N <- np_empty BufN ngens (len N0) ;;
    N <- setitem d BufN N 0 N0 ;;
    M <- np_empty BufM ngens (len M0) ;;
    M <- setitem d BufM M 0 M0 ;;
    for_each (range 1 t) (run_sim_2d_step gen_fn d kwargs) (N, M).

End Drivers.

Arguments gen_fn_1d W K : clear implicits.
Arguments gen_fn_2d W K : clear implicits.

(** ** Arithmetic of the transition functions *)

(** int64 cells: numpy's [+] and [-] wrap around. *)
Definition add64 (x y : Z) : Z := wrap64 (x + y).
Definition sub64 (x y : Z) : Z := wrap64 (x - y).

(** [a + b] on cells of an array: int64 arithmetic on two integers, float
    arithmetic as soon as one side is a float. *)
Definition np_add (a b : scalar) : scalar :=
  match a, b with
  | PyInt x, PyInt y => PyInt (add64 x y)
  | PyInt x, PyFloat y => PyFloat (SFadd prec64 emax64 (SFofZ x) y)
  | PyFloat x, PyInt y => PyFloat (SFadd prec64 emax64 x (SFofZ y))
  | PyFloat x, PyFloat y => PyFloat (SFadd prec64 emax64 x y)
  end.

Definition np_sub (a b : scalar) : scalar :=
  match a, b with
  | PyInt x, PyInt y => PyInt (sub64 x y)
  | PyInt x, PyFloat y => PyFloat (SFsub prec64 emax64 (SFofZ x) y)
  | PyFloat x, PyInt y => PyFloat (SFsub prec64 emax64 x (SFofZ y))
  | PyFloat x, PyFloat y => PyFloat (SFsub prec64 emax64 x y)
  end.

(** The product of two Python numbers: integers do not overflow, and an
    integer that meets a float is rounded to the nearest float. *)
Definition num_mul (a b : scalar) : scalar :=
  match a, b with
  | PyInt x, PyInt y => PyInt (x * y)
  | PyInt x, PyFloat y => PyFloat (SFmul prec64 emax64 (SFofZ x) y)
  | PyFloat x, PyInt y => PyFloat (SFmul prec64 emax64 x (SFofZ y))
  | PyFloat x, PyFloat y => PyFloat (SFmul prec64 emax64 x y)
  end.

Definition SFis_infinity (x : spec_float) : bool :=
  match x with
  | S754_infinity _ => true
  | _ => false
  end.

(** An integer that meets a float is converted to a float, and Python
    refuses the conversion of an integer whose nearest float is an
    infinity. *)
Definition py_coerces (a b : scalar) : bool :=
  match a, b with
  | PyInt x, PyFloat _ => negb (SFis_infinity (SFofZ x))
  | PyFloat _, PyInt y => negb (SFis_infinity (SFofZ y))
  | _, _ => true
  end.

(** [a * b] on Python numbers: the product, or an [OverflowError] (int too
    large to convert to float). *)
Definition py_mul (a b : scalar) : outcome scalar :=
  if py_coerces a b then Ok (num_mul a b) else Raise OverflowError.

(** The transition [f(N) = N + 1] of the specification's first scenario. *)
Definition succ_gen (N : row) (_ : unit) : value :=
  NdArray (map (fun a => np_add a (PyInt 1)) N).

(** The transition [f(N, M) = (N - 1, M + 1)] of the second scenario. *)
Definition shift_gen (N M : row) (_ : unit) : value * value :=
  (NdArray (map (fun a => np_sub a (PyInt 1)) N),
   NdArray (map (fun a => np_add a (PyInt 1)) M)).

(** ** [SI_gen] *)

(** [np.random]: one draw of each of the two distributions [SI_gen] uses.  A
    draw changes the world; the sampler may reject its parameters. *)
Record np_random (W : Type) : Type := {
  poisson : scalar -> M W Z;
  binomial : Z -> scalar -> M W Z
}.
Arguments poisson {W} _ _.
Arguments binomial {W} _ _ _.

(** The keyword arguments of [SI_gen]. *)
Record SI_kwargs : Type := {
  si_dt : scalar; si_lam : scalar; si_c : scalar; si_a : scalar;
  si_rho : scalar; si_mu : scalar; si_delta : scalar
}.

(** The rates of [SI_gen] once it has rescaled them. *)
Record SI_rates : Type := {
  r_lam : scalar; r_c : scalar; r_rho : scalar; r_mu : scalar; r_delta : scalar
}.

(** [lam *= dt], [c *= dt], [rho *= dt], [mu *= dt], [delta *= dt], in the
    order of the source. *)
Definition SI_rescale (kwargs : SI_kwargs) : outcome SI_rates :=
  and_then (py_mul (si_lam kwargs) (si_dt kwargs)) (fun lam =>
  and_then (py_mul (si_c kwargs) (si_dt kwargs)) (fun c =>
  and_then (py_mul (si_rho kwargs) (si_dt kwargs)) (fun rho =>
  and_then (py_mul (si_mu kwargs) (si_dt kwargs)) (fun mu =>
  and_then (py_mul (si_delta kwargs) (si_dt kwargs)) (fun delta =>
  Ok {| r_lam := lam; r_c := c; r_rho := rho; r_mu := mu; r_delta := delta |}))))).

(** The cells of an int64 array; [np.random.binomial] refuses a float array
    as its [n] with a [TypeError].  The dtype of an array is read off its
    cells, so that an array without cells passes for an int64 array. *)
Fixpoint as_int64 (v : row) : outcome (list Z) :=
  match v with
  | [] => Ok []
  | PyInt z :: v' =>
      match as_int64 v' with
      | Ok zs => Ok (z :: zs)
      | Raise e => Raise e
      end
  | PyFloat _ :: _ => Raise TypeError
  end.

Section SI.

Context {W : Type}.
Variable rng : np_random W.

(** [np.random.binomial(ns, p, len(ns))]: one draw per cell of [ns]. *)
Fixpoint binomial_each (ns : list Z) (p : scalar) : M W (list Z) :=
  match ns with
  | [] => ret []
  | n :: ns' =>
      x <- binomial rng n p ;;
      xs <- binomial_each ns' p ;;
      ret (x :: xs)
  end.

(** [np.random.binomial(n, p, size)] for integers [n] and [size]. *)
Definition binomial_size (n : Z) (p : scalar) (size : Z) : M W (list Z) :=
  if size <? 0 then raise ValueError
  else binomial_each (replicate (Z.to_nat size) n) p.

(** One turn of the infection loop of [SI_gen]. *)
Definition infect (p : scalar) (k : nat) (SI : list Z * list Z)
  : M W (list Z * list Z) :=
  let '(S_, I_) := SI in
  match S_ !! k, I_ !! k with
  | Some s, Some i =>
      infective_encouters <- binomial_size i p s ;;
      let new_infections :=
        Z.of_nat (length (filter (fun x => 0 < x) infective_encouters)) in
      ret (<[k := sub64 s new_infections]> S_, <[k := add64 i new_infections]> I_)
  | _, _ => raise IndexError
  end.

(** One turn of the infection loop with its rate [a * c], which Python
    computes anew in every turn. *)
Definition infect_at (a c : scalar) (k : nat) (SI : list Z * list Z)
  : M W (list Z * list Z) :=
  p <- lift_outcome (py_mul a c) ;;
  infect p k SI.

(** [def SI_gen(S, I, dt, lam, c, a, rho, mu, delta)].  The rates are
    rescaled first, before the lengths are compared.  [S] and [I] (here
    [S_] and [I_]) are updated in place throughout and returned
    themselves. *)
Definition SI_gen (S_ I_ : row) (kwargs : SI_kwargs)
  : M W ((value * value) * (row * row)) :=
  rates <- lift_outcome (SI_rescale kwargs) ;;
  let nsims := length S_ in
  if negb (nsims =? length I_)%nat then raise AssertionError
  else
    births <- poisson rng (r_lam rates) ;;
    S_ <- lift_outcome (as_int64 S_) ;;
    let S_ := map (fun s => add64 s births) S_ in
    deaths <- binomial_each S_ (r_mu rates) ;;
    let S_ := zip_with sub64 S_ deaths in
    I_ <- lift_outcome (as_int64 I_) ;;
    deaths <- binomial_each I_ (r_delta rates) ;;
    let I_ := zip_with sub64 I_ deaths in
    SI <- for_each (seq 0 nsims) (infect_at (si_a kwargs) (r_c rates)) (S_, I_) ;;
    let '(S_, I_) := SI in
    recoveries <- binomial_each I_ (r_rho rates) ;;
    let I_ := zip_with sub64 I_ recoveries in
    let S_ := zip_with add64 S_ recoveries in
    ret ((NdArray (map PyInt S_), NdArray (map PyInt I_)),
         (map PyInt S_, map PyInt I_)).

End SI.

(** [SI_args] of the notebook:
    [{'dt': 0.5, 'lam': 4, 'c': 0.01, 'a': 0.1, 'rho': 0.2, 'mu': 0.01, 'delta': 0.02}] *)
Definition SI_args : SI_kwargs := {|
  si_dt := PyFloat (S754_finite false 4503599627370496 (-53));
  si_lam := PyInt 4;
  si_c := PyFloat (S754_finite false 5764607523034235 (-59));
  si_a := PyFloat (S754_finite false 7205759403792794 (-56));
  si_rho := PyFloat (S754_finite false 7205759403792794 (-55));
  si_mu := PyFloat (S754_finite false 5764607523034235 (-59));
  si_delta := PyFloat (S754_finite false 5764607523034235 (-58))
|}.


(** A random source that replays a tape of draws, oldest first, and draws
    zero once the tape is used up.  A draw is clamped into the support of
    the distribution. *)
Definition tape_next : M (list Z) Z :=
  fun w => match w with
           | [] => (Ok 0, [])
           | x :: w' => (Ok x, w')
           end.

Definition tape_rng : np_random (list Z) := {|
  poisson := fun _ => x <- tape_next ;; ret (Z.abs x);
  binomial := fun n _ =>
    if n <? 0 then raise ValueError
    else x <- tape_next ;; ret (Z.min (Z.abs x) n)
|}.

(** Some cells for the examples. *)
Definition no_garbage : buf -> nat -> nat -> scalar := fun _ _ _ => PyInt 0.

Definition half : scalar := PyFloat (S754_finite false 4503599627370496 (-53)).

Definition ints (zs : list Z) : row := map PyInt zs.

Definition start {W} (w : W) : state W := {| world := w; trace := [] |}.

(** ** Vocabulary of the statements *)

(** An array of [n] rows of [L] cells. *)
Definition shape (n L : nat) (A : list row) : Prop :=
  length A = n /\ Forall (fun r => length r = L) A.

(** The state after the driver has gone through [evs] and the world has
    become [w]. *)
Definition after {W} (st : state W) (w : W) (evs : list event) : state W :=
  {| world := w; trace := trace st ++ evs |}.

(** The events of the loops of the two drivers over the generations [ts]. *)
Definition loop_trace_1d (ts : list nat) : list event :=
  flat_map (fun t => [Call; Store BufN t]) ts.

Definition loop_trace_2d (ts : list nat) : list event :=
  flat_map (fun t => [Call; Store BufN t; Store BufM t]) ts.

(** The initial vectors of the notebook's run of [SI_gen], which are Python
    lists, and a tape. *)
Definition SI_N0 : value := PyList (ints [200; 200; 280; 270]).
Definition SI_M0 : value := PyList (ints [10; 100; 10; 100]).
Definition SI_tape : list Z := [3; 1; 0; 0; 0; 0; 2].

(** [1.5], and the transition [f(N) = N + 1.5]. *)
Definition three_halves : scalar :=
  PyFloat (S754_finite false 6755399441055744 (-52)).

Definition drift_gen (N : row) (_ : unit) : value :=
  NdArray (map (fun x => np_add x three_halves) N).

(** [1e19], a float beyond the int64 range. *)
Definition ten_to_19 : scalar := PyFloat (S754_finite false 4882812500000000 11).

(** A vector whose values the dtype stores as they are. *)
Definition of_dtype (d : np_dtype) (v : value) : Prop :=
  Forall (fun x => convert d v x = Ok x) (cells v).

(** ** The specification's statements, word for word

    Four statements of the specification leave out the conversion to the
    dtype of the buffer, or numpy's broadcasting.  They are written down
    here as they stand, to be tested on inputs. *)

(** "The returned trajectory has exactly N entries, and entry 0 equals the
    supplied initial vector exactly." *)
Definition stated_entry0 {W K} (garbage : buf -> nat -> nat -> scalar)
           (N0 : value) (gen_fn : gen_fn_1d W K) (ngens : Z)
           (dtype : option np_dtype) (kwargs : K) (st : state W) : Prop :=
  forall traj st',
    run_sim garbage N0 gen_fn ngens dtype kwargs st = (Ok traj, st') ->
    Z.of_nat (length traj) = ngens /\ traj !! 0%nat = Some (cells N0).

(** "For all t, trajectory[t] equals transition(trajectory[t-1], params)
    when the transition function is deterministic." *)
Definition stated_recurrence {W K} (garbage : buf -> nat -> nat -> scalar)
           (N0 : value) (f : row -> K -> value) (ngens : Z)
           (dtype : option np_dtype) (kwargs : K) (st : state W) : Prop :=
  forall traj st',
    run_sim garbage N0 (pure_1d f) ngens dtype kwargs st = (Ok traj, st') ->
    forall t : nat, 1 <= Z.of_nat t <= ngens - 1 ->
      exists prev,
        traj !! (t - 1)%nat = Some prev
        /\ traj !! t = Some (cells (f prev kwargs)).

(** "Fails if the transition function's output length differs from L": here
    for a transition function whose output never has [L] cells, asked for
    at least one step. *)
Definition stated_length_failure {W K} (garbage : buf -> nat -> nat -> scalar)
           (N0 : value) (f : row -> K -> value) (ngens : Z)
           (dtype : option np_dtype) (kwargs : K) (st : state W) : Prop :=
  2 <= ngens ->
  (forall v, len (f v kwargs) <> len N0) ->
  raises (run_sim garbage N0 (pure_1d f) ngens dtype kwargs st).1.

(** "Requesting N=1 generation returns a trajectory containing only the
    initial vector, with the transition function never invoked." *)
Definition stated_single_generation {W K} (garbage : buf -> nat -> nat -> scalar)
           (N0 : value) (gen_fn : gen_fn_1d W K)
           (dtype : option np_dtype) (kwargs : K) (st : state W) : Prop :=
  exists st',
    run_sim garbage N0 gen_fn 1 dtype kwargs st = (Ok [cells N0], st')
    /\ Call ∉ trace st'.

(** "Under the default dtype, for every initial vector containing
    non-integer values the stored entry is the integer truncation of the
    supplied values." *)
Definition stated_truncation {W K} (garbage : buf -> nat -> nat -> scalar)
           (N0 : value) (gen_fn : gen_fn_1d W K)
           (kwargs : K) (st : state W) : Prop :=
  Exists (fun x => non_integer x = true) (cells N0) ->
  forall traj st',
    run_sim garbage N0 gen_fn 1 None kwargs st = (Ok traj, st') ->
    traj !! 0%nat = Some (map np_trunc (cells N0)).

(** ** The deterministic logistic step *)

(** A number as a float64: what numpy makes of an integer that meets a
    float. *)
Definition to_float (a : scalar) : spec_float :=
  match a with
  | PyInt z => SFofZ z
  | PyFloat x => x
  end.

(** [a * b] on cells of an array: int64 arithmetic, which wraps around, on
    two integers, float arithmetic as soon as one side is a float. *)
Definition np_mul (a b : scalar) : scalar :=
  match a, b with
  | PyInt x, PyInt y => PyInt (wrap64 (x * y))
  | PyInt x, PyFloat y => PyFloat (SFmul prec64 emax64 (SFofZ x) y)
  | PyFloat x, PyInt y => PyFloat (SFmul prec64 emax64 x (SFofZ y))
  | PyFloat x, PyFloat y => PyFloat (SFmul prec64 emax64 x y)
  end.

(** [a / b] on cells of an array is true division: always a float, and a
    division by zero is an infinity or NaN, not an exception. *)
Definition np_true_divide (a b : scalar) : scalar :=
  PyFloat (SFdiv prec64 emax64 (to_float a) (to_float b)).

(** The difference of two Python numbers. *)
Definition num_sub (a b : scalar) : scalar :=
  match a, b with
  | PyInt x, PyInt y => PyInt (x - y)
  | PyInt x, PyFloat y => PyFloat (SFsub prec64 emax64 (SFofZ x) y)
  | PyFloat x, PyInt y => PyFloat (SFsub prec64 emax64 x (SFofZ y))
  | PyFloat x, PyFloat y => PyFloat (SFsub prec64 emax64 x y)
  end.

(** [def logistic_step(N, lam, mu, K):
       return N + (lam - mu) * N * (1 - lam * N / (K * (lam - mu)))]
    [N] is an array, [lam], [mu] and [K] are Python numbers that Python
    can subtract and multiply (see [py_mul]). *)
Definition logistic_step (N : row) (lam mu K : scalar) : row :=
  let r := num_sub lam mu in
  let Kr := num_mul K r in
  map (fun n =>
         np_add n
           (np_mul (np_mul r n)
              (np_sub (PyInt 1) (np_true_divide (np_mul lam n) Kr))))
      N.

(** The keyword arguments of the logistic functions. *)
Record logistic_kwargs : Type := {
  lg_lam : scalar; lg_mu : scalar; lg_K : scalar
}.

(** [logistic_step] as the transition function of [run_sim]. *)
Definition logistic_step_fn (N : row) (kwargs : logistic_kwargs) : value :=
  NdArray (logistic_step N (lg_lam kwargs) (lg_mu kwargs) (lg_K kwargs)).

(** A Python integer that numpy takes for an int64, and any float. *)
Definition machine_number (a : scalar) : Prop :=
  match a with
  | PyInt z => in_int64 z = true
  | PyFloat _ => True
  end.

Definition zero_or_nan (x : spec_float) : Prop :=
  match x with
  | S754_zero _ | S754_nan => True
  | _ => False
  end.

Definition inf_or_nan (x : spec_float) : Prop :=
  match x with
  | S754_infinity _ | S754_nan => True
  | _ => False
  end.

Definition nan : scalar := PyFloat S754_nan.

(** A number that is zero, as an integer or as a float, or NaN. *)
Definition zeroish (a : scalar) : Prop :=
  match a with
  | PyInt z => z = 0
  | PyFloat x => zero_or_nan x
  end.

(** ** The stochastic logistic and Lotka-Volterra generations *)

(** [np.fmax(0.0, x)] on a cell: [0.0] where [x] is NaN or at most zero,
    [x] elsewhere. *)
Definition np_fmax0 (a : scalar) : scalar :=
  match to_float a with
  | S754_nan => PyFloat (S754_zero false)
  | x => if SFleb x (S754_zero false) then PyFloat (S754_zero false)
         else PyFloat x
  end.

(** [-a] on a cell. *)
Definition np_neg (a : scalar) : scalar :=
  match a with
  | PyInt z => PyInt (wrap64 (- z))
  | PyFloat x => PyFloat (SFopp x)
  end.

(** [l[i]] on a Python list. *)
Definition py_getitem (l : list scalar) (i : nat) : outcome scalar :=
  match l !! i with
  | Some x => Ok x
  | None => Raise IndexError
  end.

(** A float that is not a negative number: its sign bit is clear, or it is
    a zero or NaN. *)
Definition not_negative (x : spec_float) : Prop :=
  match x with
  | S754_finite true _ _ | S754_infinity true => False
  | _ => True
  end.

(** The Poisson rates of [logistic_gen]:
    [lam * N * np.fmax(0.0, 1 - N / K)] *)
Definition logistic_rates (N : row) (lam K : scalar) : row :=
  map (fun n =>
         np_mul (np_mul lam n)
           (np_fmax0 (np_sub (PyInt 1) (np_true_divide n K))))
      N.

(** The keyword arguments of [lv_gen]: four Python lists. *)
Record LV_kwargs : Type := {
  lv_lam : list scalar; lv_p : list scalar;
  lv_K : list scalar; lv_a : list scalar
}.

Section Generations.

Context {W : Type}.
Variable rng : np_random W.

(** [np.exp] on a float64. *)
Variable np_exp : spec_float -> spec_float.

(** [np.random.poisson(rates)]: one draw per rate. *)
Fixpoint poisson_each (rates : list scalar) : M W (list Z) :=
  match rates with
  | [] => ret []
  | r :: rates' =>
      x <- poisson rng r ;;
      xs <- poisson_each rates' ;;
      ret (x :: xs)
  end.

(** [def logistic_gen(N, lam, mu, K):
       return (np.random.poisson(lam * N * np.fmax(0.0, 1 - N / K), len(N))
               + np.random.binomial(N, 1 - mu, len(N)))]
    The result is a new array; [N] is left as it is.  [1 - mu] is a
    difference Python always computes. *)
Definition logistic_gen (N : row) (lam mu K : scalar) : M W (value * row) :=
  births <- poisson_each (logistic_rates N lam K) ;;
  Nz <- lift_outcome (as_int64 N) ;;
  survivors <- binomial_each rng Nz (num_sub (PyInt 1) mu) ;;
  ret (NdArray (ints (zip_with add64 births survivors)), N).

Definition logistic_gen_fn : gen_fn_1d W logistic_kwargs :=
  fun N kwargs =>
    logistic_gen N (lg_lam kwargs) (lg_mu kwargs) (lg_K kwargs).

(** One cell of [dies * lam * np.exp(-((N + a * M) / K))]. *)
Definition lv_rate (lam a K : scalar) (dies : Z) (nm : scalar * scalar) : scalar :=
  np_mul (np_mul (PyInt dies) lam)
    (PyFloat (np_exp (to_float (np_neg
       (np_true_divide (np_add nm.1 (np_mul a nm.2)) K))))).

(** [def lv_gen(N, M, lam, p, K, a)] *)
Definition lv_gen (N M_ : row) (kwargs : LV_kwargs)
  : M W ((value * value) * (row * row)) :=
  if negb (length M_ =? length N)%nat then raise AssertionError
  else
    p0 <- lift_outcome (py_getitem (lv_p kwargs) 0) ;;
    Nz <- lift_outcome (as_int64 N) ;;
    N_dies <- binomial_each rng Nz p0 ;;
    p1 <- lift_outcome (py_getitem (lv_p kwargs) 1) ;;
    Mz <- lift_outcome (as_int64 M_) ;;
    M_dies <- binomial_each rng Mz p1 ;;
    lam0 <- lift_outcome (py_getitem (lv_lam kwargs) 0) ;;
    a0 <- lift_outcome (py_getitem (lv_a kwargs) 0) ;;
    K0 <- lift_outcome (py_getitem (lv_K kwargs) 0) ;;
    N_repro <- poisson_each (zip_with (lv_rate lam0 a0 K0) N_dies (zip N M_)) ;;
    lam1 <- lift_outcome (py_getitem (lv_lam kwargs) 1) ;;
    a1 <- lift_outcome (py_getitem (lv_a kwargs) 1) ;;
    K1 <- lift_outcome (py_getitem (lv_K kwargs) 1) ;;
    M_repro <- poisson_each (zip_with (lv_rate lam1 a1 K1) M_dies (zip M_ N)) ;;
    let next_N := zip_with add64 (zip_with sub64 Nz N_dies) N_repro in
    let next_M := zip_with add64 (zip_with sub64 Mz M_dies) M_repro in
    ret ((NdArray (ints next_N), NdArray (ints next_M)), (N, M_)).

End Generations.

(** [lv_args] of the notebook:
    [{'lam': [1.2, 1.1], 'p': [0.5, 0.9], 'K': [2000, 5000], 'a': [0.1, 0.1]}] *)
Definition lv_args : LV_kwargs := {|
  lv_lam := [PyFloat (S754_finite false 5404319552844595 (-52));
             PyFloat (S754_finite false 4953959590107546 (-52))];
  lv_p := [PyFloat (S754_finite false 4503599627370496 (-53));
           PyFloat (S754_finite false 8106479329266893 (-53))];
  lv_K := [PyInt 2000; PyInt 5000];
  lv_a := [PyFloat (S754_finite false 7205759403792794 (-56));
           PyFloat (S754_finite false 7205759403792794 (-56))]
|}.

(** A cell that is not a negative number. *)
Definition cell_not_negative (c : scalar) : Prop :=
  match c with
  | PyInt n => 0 <= n
  | PyFloat y => not_negative y
  end.

(** ** The deterministic susceptible-infected step *)

(** The pairs of cells at which numpy combines two one-dimensional arrays:
    arrays of the same length cell by cell, an array of one cell with every
    cell of the other; any other two lengths are a [ValueError]. *)
Definition broadcast2 (N M_ : row) : outcome (list (scalar * scalar)) :=
  if decide (length N = length M_) then Ok (zip N M_)
  else match N, M_ with
       | [n], _ => Ok (map (fun m => (n, m)) M_)
       | _, [m] => Ok (map (fun n => (n, m)) N)
       | _, _ => Raise ValueError
       end.

(** One replicate of [SI_eqn]:
    [next_N = N + dt * (lam - mu * N - a * c * N * M + rho * M)]
    [next_M = M + dt * (a * c * N * M - delta * M - rho * M)]
    [a] and [c] are Python numbers that Python can multiply (see
    [py_mul]). *)
Definition SI_eqn_cell (kwargs : SI_kwargs) (nm : scalar * scalar)
  : scalar * scalar :=
  let acNM :=
    np_mul (np_mul (num_mul (si_a kwargs) (si_c kwargs)) nm.1) nm.2 in
  (np_add nm.1
     (np_mul (si_dt kwargs)
        (np_add
           (np_sub (np_sub (si_lam kwargs) (np_mul (si_mu kwargs) nm.1)) acNM)
           (np_mul (si_rho kwargs) nm.2))),
   np_add nm.2
     (np_mul (si_dt kwargs)
        (np_sub (np_sub acNM (np_mul (si_delta kwargs) nm.2))
           (np_mul (si_rho kwargs) nm.2)))).

(** [def SI_eqn(N, M, dt, lam, c, a, rho, mu, delta)] *)
Definition SI_eqn (N M_ : row) (kwargs : SI_kwargs) : outcome (row * row) :=
  match broadcast2 N M_ with
  | Raise e => Raise e
  | Ok pairs =>
      Ok (map (fun nm => (SI_eqn_cell kwargs nm).1) pairs,
          map (fun nm => (SI_eqn_cell kwargs nm).2) pairs)
  end.

(** [SI_eqn] as the transition function of [run_sim_2d]: it leaves its
    arguments as they are. *)
Definition SI_eqn_fn {W} : gen_fn_2d W SI_kwargs :=
  fun N M_ kwargs w =>
    match SI_eqn N M_ kwargs with
    | Ok out => (Ok ((NdArray out.1, NdArray out.2), (N, M_)), w)
    | Raise e => (Raise e, w)
    end.



(** ** The deterministic Lotka-Volterra step *)

Section LVEqn.

(** [np.exp] on a float64. *)
Variable np_exp : spec_float -> spec_float.




End LVEqn.

(** ** Well-behaved random sources *)

(** A Poisson draw is a count, and a binomial draw out of [n] trials is a
    count of at most [n]. *)
Definition sampler_ok {W} (rng : np_random W) : Prop :=
  (forall lam w x w', poisson rng lam w = (Ok x, w') -> 0 <= x)
  /\ (forall n p w x w', binomial rng n p w = (Ok x, w') -> 0 <= x <= n).

(** * Facts *)

(** ** The monad *)

Lemma bind_ok {S A B} (m : M S A) (k : A -> M S B) s b s' :
  bind m k s = (Ok b, s') ->
  exists a s1, m s = (Ok a, s1) /\ k a s1 = (Ok b, s').
Proof.
  unfold bind. destruct (m s) as [[x | e] s1]; [eauto | discriminate].
Qed.

Lemma bind_raise_l {S A B} (m : M S A) (k : A -> M S B) s e s' :
  m s = (Raise e, s') -> bind m k s = (Raise e, s').
Proof. unfold bind. intros ->. reflexivity. Qed.

Lemma bind_assoc {S A B C} (m : M S A) (f : A -> M S B) (g : B -> M S C) s :
  bind (bind m f) g s = bind m (fun x => bind (f x) g) s.
Proof. unfold bind. destruct (m s) as [[x | e] s1]; reflexivity. Qed.

Lemma bind_ret_r {S A} (m : M S A) s : bind m ret s = m s.
Proof. unfold bind, ret. destruct (m s) as [[x | e] s1]; reflexivity. Qed.

Lemma for_each_app {S A} (ts1 ts2 : list nat) (body : nat -> A -> M S A) x s :
  for_each (ts1 ++ ts2) body x s
  = bind (for_each ts1 body x) (for_each ts2 body) s.
Proof.
  revert x s. induction ts1 as [| t ts1 IH]; intros x s; simpl.
  - reflexivity.
  - unfold bind. destruct (body t x s) as [[y | e] s1]; [| reflexivity].
    rewrite IH. reflexivity.
Qed.

Lemma for_each_snoc {S A} (ts : list nat) t (body : nat -> A -> M S A) x s :
  for_each (ts ++ [t]) body x s = bind (for_each ts body x) (body t) s.
Proof.
  rewrite for_each_app. unfold bind.
  destruct (for_each ts body x s) as [[y | e] s1]; [| reflexivity].
  simpl. apply bind_ret_r.
Qed.

(** ** Casting and broadcasting *)

Lemma cast_cells_Forall2 conv v w :
  cast_cells conv v = Ok w -> Forall2 (fun x y => conv x = Ok y) v w.
Proof.
  revert w. induction v as [| x v IH]; simpl; intros w H.
  - injection H as <-. constructor.
  - destruct (conv x) as [y |] eqn:Hx; [| discriminate].
    destruct (cast_cells conv v) as [w' |]; [| discriminate].
    injection H as <-. constructor; auto.
Qed.

Lemma cast_cells_fixed conv v :
  Forall (fun x => conv x = Ok x) v -> cast_cells conv v = Ok v.
Proof.
  induction 1 as [| x v Hx _ IH]; simpl; [reflexivity |].
  rewrite Hx, IH. reflexivity.
Qed.

Lemma cast_cells_map conv (f : scalar -> scalar) v :
  (forall x, conv x = Ok (f x)) -> cast_cells conv v = Ok (map f v).
Proof.
  intros Hf. induction v as [| x v IH]; simpl; [reflexivity |].
  rewrite Hf, IH. reflexivity.
Qed.

Lemma cast_all_Forall2 d v w :
  cast_all d v = Ok w ->
  Forall2 (fun x y => convert d v x = Ok y) (cells v) w.
Proof. apply cast_cells_Forall2. Qed.

Lemma cast_all_length d v w : cast_all d v = Ok w -> length w = len v.
Proof.
  intros H. apply cast_all_Forall2 in H.
  symmetry. eapply Forall2_length, H.
Qed.

Lemma cast_all_fixed d v : of_dtype d v -> cast_all d v = Ok (cells v).
Proof. apply cast_cells_fixed. Qed.

Lemma cast_all_map d (f : scalar -> scalar) v w :
  (forall x y, convert d v x = Ok y -> y = f x) ->
  cast_all d v = Ok w -> w = map f (cells v).
Proof.
  intros Hf H. apply cast_all_Forall2 in H.
  induction H as [| x y u w Hxy _ IH]; simpl; [reflexivity |].
  rewrite (Hf _ _ Hxy), IH. reflexivity.
Qed.

Lemma broadcast_inv L v w :
  broadcast L v = Ok w ->
  (length v = L /\ w = v) \/ (exists x, v = [x] /\ w = replicate L x).
Proof.
  unfold broadcast. destruct (decide (length v = L)) as [Hl | Hl].
  - intros [= <-]. left. auto.
  - destruct v as [| x [| y v]]; try discriminate.
    intros [= <-]. right. eauto.
Qed.

Lemma broadcast_length L v w : broadcast L v = Ok w -> length w = L.
Proof.
  intros H. destruct (broadcast_inv _ _ _ H) as [[Hl ->] | (x & -> & ->)].
  - exact Hl.
  - apply length_replicate.
Qed.

Lemma broadcast_same v : broadcast (length v) v = Ok v.
Proof. unfold broadcast. destruct (decide _); [reflexivity | contradiction]. Qed.

Lemma broadcast_mismatch L v :
  length v <> L -> length v <> 1%nat -> broadcast L v = Raise ValueError.
Proof.
  intros HL H1. unfold broadcast. destruct (decide _); [contradiction |].
  destruct v as [| x [| y v]]; try reflexivity. simpl in H1. contradiction.
Qed.

Lemma coerce_length d L v w : coerce d L v = Ok w -> length w = L.
Proof.
  unfold coerce. destruct (cast_all d v); [| discriminate].
  apply broadcast_length.
Qed.

Lemma coerce_same d v : coerce d (len v) v = cast_all d v.
Proof.
  unfold coerce. destruct (cast_all d v) as [w |] eqn:H; [| reflexivity].
  rewrite <- (cast_all_length _ _ _ H). apply broadcast_same.
Qed.

Lemma coerce_fixed d v : of_dtype d v -> coerce d (len v) v = Ok (cells v).
Proof. intros H. rewrite coerce_same. apply cast_all_fixed, H. Qed.

Lemma coerce_mismatch d L v :
  len v <> L -> len v <> 1%nat -> raises (coerce d L v).
Proof.
  intros HL H1. unfold coerce, raises.
  destruct (cast_all d v) as [w |] eqn:H; [| eauto].
  apply cast_all_length in H.
  rewrite broadcast_mismatch; [eauto | congruence | congruence].
Qed.

Lemma coerce_ok_length d L v w :
  coerce d L v = Ok w -> len v = L \/ len v = 1%nat.
Proof.
  intros H. destruct (decide (len v = L)) as [| HL]; [auto |].
  destruct (decide (len v = 1%nat)) as [| H1]; [auto |].
  destruct (coerce_mismatch d L v HL H1) as [e He]. congruence.
Qed.

(** A value of one cell is stored in every cell of the row. *)
Lemma coerce_one d L v x y :
  cells v = [x] -> convert d v x = Ok y -> coerce d L v = Ok (replicate L y).
Proof.
  intros Hv Hx. unfold coerce, cast_all. rewrite Hv. simpl. rewrite Hx.
  unfold broadcast. destruct (decide (length [y] = L)) as [<- | _]; reflexivity.
Qed.

Lemma write_through_length (v v' : row) :
  length (write_through v v') = length v.
Proof.
  unfold write_through. rewrite length_app, length_take, length_drop. lia.
Qed.

Lemma write_through_same (v : row) : write_through v v = v.
Proof.
  unfold write_through. rewrite firstn_all, drop_all. apply app_nil_r.
Qed.

Lemma after_after {W} (st : state W) w1 evs1 w2 evs2 :
  after (after st w1 evs1) w2 evs2 = after st w2 (evs1 ++ evs2).
Proof. unfold after. simpl. rewrite app_assoc. reflexivity. Qed.

Lemma shape_insert n L (A : list row) t r :
  shape n L A -> length r = L -> shape n L (<[t := r]> A).
Proof.
  intros [Hn HL] Hr. split.
  - rewrite length_insert. exact Hn.
  - apply Forall_insert; assumption.
Qed.

Lemma shape_lookup n L (A : list row) t r :
  shape n L A -> A !! t = Some r -> length r = L.
Proof.
  intros [_ HL] Ht. rewrite Forall_lookup in HL. exact (HL _ _ Ht).
Qed.

(** ** The primitives of the drivers *)

Ltac inv_bind H :=
  let x := fresh "x" in
  let s := fresh "st" in
  let H1 := fresh "H" in
  apply bind_ok in H as (x & s & H1 & H).

Section Primitives.

Context {W K : Type}.
Variable garbage : buf -> nat -> nat -> scalar.

Lemma log_eq (e : event) (st : state W) :
  log e st = (Ok tt, after st (world st) [e]).
Proof. reflexivity. Qed.

Lemma np_empty_ok b ngens L (st : state W) A st' :
  np_empty garbage b ngens L st = (Ok A, st') ->
  0 <= ngens /\ shape (Z.to_nat ngens) L A
  /\ st' = after st (world st) [Alloc b].
Proof.
  unfold np_empty. destruct (Z.ltb_spec ngens 0) as [Hneg | Hpos].
  - discriminate.
  - intros [= <- <-]. split; [exact Hpos |]. split; [| reflexivity].
    split.
    + rewrite length_map, length_seq. reflexivity.
    + apply Forall_forall. intros r Hr.
      apply list_elem_of_In, in_map_iff in Hr as (t & <- & _).
      rewrite length_map, length_seq. reflexivity.
Qed.

Lemma np_empty_negative b ngens L (st : state W) :
  ngens < 0 -> np_empty garbage b ngens L st = (Raise ValueError, st).
Proof.
  intros H. unfold np_empty.
  destruct (Z.ltb_spec ngens 0); [reflexivity | lia].
Qed.

Lemma setitem_ok d b (A : list row) t v (st : state W) A' st' :
  setitem d b A t v st = (Ok A', st') ->
  exists old w,
    A !! t = Some old /\ coerce d (length old) v = Ok w
    /\ A' = <[t := w]> A /\ st' = after st (world st) [Store b t].
Proof.
  unfold setitem. destruct (A !! t) as [old |]; [| discriminate].
  intros H. inv_bind H. unfold lift_outcome in H0.
  injection H0 as Hc <-. inv_bind H. rewrite log_eq in H0.
  injection H0 as _ <-. injection H as <- <-.
  exists old, x. auto.
Qed.

Lemma getitem_ok (A : list row) t (st : state W) r st' :
  getitem A t st = (Ok r, st') -> A !! t = Some r /\ st' = st.
Proof.
  unfold getitem. destruct (A !! t); [| discriminate].
  intros [= <- <-]. auto.
Qed.

Lemma invoke_ok {A} (m : M W A) (st : state W) x st' :
  invoke m st = (Ok x, st') ->
  exists w', m (world st) = (Ok x, w') /\ st' = after st w' [].
Proof.
  unfold invoke. destruct (m (world st)) as [r w'].
  intros [= -> <-]. exists w'. split; [reflexivity |].
  unfold after. simpl. rewrite app_nil_r. reflexivity.
Qed.

(** *** One turn of the loop of [run_sim] *)

Lemma run_sim_step_ok (gen_fn : gen_fn_1d W K) d kwargs t N st N' st' :
  run_sim_step gen_fn d kwargs t N st = (Ok N', st') ->
  exists v out v' w' old r,
    N !! (t - 1)%nat = Some v
    /\ gen_fn v kwargs (world st) = (Ok (out, v'), w')
    /\ <[(t - 1)%nat := write_through v v']> N !! t = Some old
    /\ coerce d (length old) out = Ok r
    /\ N' = <[t := r]> (<[(t - 1)%nat := write_through v v']> N)
    /\ st' = after st w' [Call; Store BufN t].
Proof.
  unfold run_sim_step. intros H.
  inv_bind H. apply getitem_ok in H0 as [Hv ->].
  inv_bind H. rewrite log_eq in H0. injection H0 as _ <-.
  inv_bind H. apply invoke_ok in H0 as (w' & Hg & ->).
  destruct x1 as [out v'].
  apply setitem_ok in H as (old & r & Hold & Hc & -> & ->).
  exists x, out, v', w', old, r. repeat split; try assumption.
  rewrite !after_after. reflexivity.
Qed.

End Primitives.

(** ** The loop of [run_sim] *)

Section Loop1d.

Context {W K : Type}.
Variable gen_fn : gen_fn_1d W K.
Variable d : np_dtype.
Variable kwargs : K.

Local Abbreviation step := (run_sim_step gen_fn d kwargs).

(** A turn of the loop changes rows [t - 1] and [t] only, and keeps the
    shape of the array. *)
Lemma run_sim_step_frame t N (st : state W) N' st' i :
  step t N st = (Ok N', st') ->
  i <> t -> i <> (t - 1)%nat -> N' !! i = N !! i.
Proof.
  intros H Hi Hi'.
  apply run_sim_step_ok in H as (v & out & v' & w' & old & r & _ & _ & _ & _ & -> & _).
  rewrite !list_lookup_insert_ne by congruence. reflexivity.
Qed.

Lemma run_sim_step_shape n L t N (st : state W) N' st' :
  shape n L N -> step t N st = (Ok N', st') -> shape n L N'.
Proof.
  intros HN H.
  apply run_sim_step_ok in H as (v & out & v' & w' & old & r & Hv & _ & Hold & Hc & -> & _).
  assert (HN1 : shape n L (<[(t - 1)%nat := write_through v v']> N)).
  { apply shape_insert; [exact HN |].
    rewrite write_through_length. eapply shape_lookup; eassumption. }
  apply shape_insert; [exact HN1 |].
  apply coerce_length in Hc. rewrite Hc.
  eapply shape_lookup; eassumption.
Qed.

(** With a transition function that leaves its argument alone, a turn
    writes row [t] and nothing else. *)
Lemma run_sim_step_no_inplace t N (st : state W) N' st' :
  no_inplace_1d gen_fn ->
  step t N st = (Ok N', st') ->
  exists v out w' old r,
    N !! (t - 1)%nat = Some v
    /\ gen_fn v kwargs (world st) = (Ok (out, v), w')
    /\ N !! t = Some old
    /\ coerce d (length old) out = Ok r
    /\ N' = <[t := r]> N
    /\ st' = after st w' [Call; Store BufN t].
Proof.
  intros Hpure H.
  apply run_sim_step_ok in H as (v & out & v' & w' & old & r & Hv & Hg & Hold & Hc & -> & ->).
  pose proof (Hpure _ _ _ _ _ _ Hg) as ->.
  rewrite write_through_same, (list_insert_id _ _ _ Hv) in *.
  exists v, out, w', old, r. auto 10.
Qed.

Lemma loop_1d_shape n L ts N (st : state W) N' st' :
  shape n L N -> for_each ts step N st = (Ok N', st') -> shape n L N'.
Proof.
  revert N st. induction ts as [| t ts IH]; simpl; intros N st HN H.
  - injection H as <- _. exact HN.
  - inv_bind H. eapply IH; [| exact H].
    eapply run_sim_step_shape; eassumption.
Qed.

Lemma loop_1d_trace ts N (st : state W) N' st' :
  for_each ts step N st = (Ok N', st') ->
  trace st' = trace st ++ loop_trace_1d ts.
Proof.
  revert N st. induction ts as [| t ts IH]; simpl; intros N st H.
  - injection H as _ <-. rewrite app_nil_r. reflexivity.
  - inv_bind H. apply IH in H. rewrite H.
    apply run_sim_step_ok in H0 as (v & out & v' & w' & old & r & _ & _ & _ & _ & _ & ->).
    simpl. rewrite <- app_assoc. reflexivity.
Qed.

(** Row [i] survives the generations [ts] when neither [i] nor [i + 1] is
    among them. *)
Lemma loop_1d_frame ts N (st : state W) N' st' i :
  for_each ts step N st = (Ok N', st') ->
  i ∉ ts -> S i ∉ ts -> N' !! i = N !! i.
Proof.
  revert N st. induction ts as [| t ts IH]; simpl; intros N st H Hi HSi.
  - injection H as <- _. reflexivity.
  - inv_bind H. apply not_elem_of_cons in Hi as [Hit Hi].
    apply not_elem_of_cons in HSi as [HSit HSi].
    rewrite (IH _ _ H Hi HSi).
    eapply run_sim_step_frame; [exact H0 | exact Hit | lia].
Qed.

(** Without in-place updates row [i] survives as soon as [i] itself is
    not among the generations computed. *)
Lemma loop_1d_frame_no_inplace ts N (st : state W) N' st' i :
  no_inplace_1d gen_fn ->
  for_each ts step N st = (Ok N', st') ->
  i ∉ ts -> N' !! i = N !! i.
Proof.
  intros Hpure. revert N st.
  induction ts as [| t ts IH]; simpl; intros N st H Hi.
  - injection H as <- _. reflexivity.
  - inv_bind H. apply not_elem_of_cons in Hi as [Hit Hi].
    rewrite (IH _ _ H Hi).
    apply (run_sim_step_no_inplace _ _ _ _ _ Hpure) in H0
      as (v & out & w' & old & r & _ & _ & _ & _ & -> & _).
    apply list_lookup_insert_ne. congruence.
Qed.

(** The recurrence: in the array the loop leaves, each generation it
    computed is what the transition function returned for the generation
    before it, as the assignment stores it. *)
Lemma loop_1d_recurrence n L m a N (st : state W) N' st' :
  no_inplace_1d gen_fn ->
  shape n L N ->
  (1 <= a)%nat ->
  for_each (seq a m) step N st = (Ok N', st') ->
  forall t, (a <= t < a + m)%nat ->
    exists prev out w w' r,
      N' !! (t - 1)%nat = Some prev
      /\ gen_fn prev kwargs w = (Ok (out, prev), w')
      /\ coerce d L out = Ok r
      /\ N' !! t = Some r.
Proof.
  intros Hpure. revert a N st.
  induction m as [| m IH]; intros a N st HN Ha H t Ht; [lia |].
  simpl in H. inv_bind H.
  pose proof (run_sim_step_shape _ _ _ _ _ _ _ HN H0) as HN1.
  destruct (decide (t = a)) as [-> | Hne].
  - apply (run_sim_step_no_inplace _ _ _ _ _ Hpure) in H0
      as (v & out & w' & old & r & Hv & Hg & Hold & Hc & -> & _).
    exists v, out, (world st), w', r.
    rewrite (shape_lookup _ _ _ _ _ HN Hold) in Hc.
    repeat split; try assumption.
    + rewrite (loop_1d_frame_no_inplace _ _ _ _ _ _ Hpure H).
      * rewrite list_lookup_insert_ne by lia. exact Hv.
      * rewrite elem_of_seq. lia.
    + rewrite (loop_1d_frame_no_inplace _ _ _ _ _ _ Hpure H).
      * apply list_lookup_insert_eq. eapply lookup_lt_Some, Hold.
      * rewrite elem_of_seq. lia.
  - eapply (IH (S a)); [exact HN1 | lia | exact H | lia].
Qed.

(** Generation [a - 1], which the first turn of the loop hands to the
    transition function as a view, ends up holding what that call left in
    the view. *)
Lemma loop_1d_first_view m a N (st : state W) N' st' :
  (1 <= a)%nat ->
  for_each (seq a (S m)) step N st = (Ok N', st') ->
  exists v out v' w',
    N !! (a - 1)%nat = Some v
    /\ gen_fn v kwargs (world st) = (Ok (out, v'), w')
    /\ N' !! (a - 1)%nat = Some (write_through v v').
Proof.
  intros Ha H. simpl in H. inv_bind H.
  rewrite (loop_1d_frame _ _ _ _ _ _ H); cycle 1.
  { rewrite elem_of_seq. lia. }
  { rewrite elem_of_seq. lia. }
  apply run_sim_step_ok in H0
    as (v & out & v' & w' & old & r & Hv & Hg & _ & _ & -> & _).
  exists v, out, v', w'. repeat split; try assumption.
  rewrite list_lookup_insert_ne by lia.
  apply list_lookup_insert_eq. eapply lookup_lt_Some, Hv.
Qed.

End Loop1d.

(** ** The loop of [run_sim_2d] *)

Section Loop2d.

Context {W K : Type}.
Variable gen_fn : gen_fn_2d W K.
Variable d : np_dtype.
Variable kwargs : K.

Local Abbreviation step2 := (run_sim_2d_step gen_fn d kwargs).

Lemma run_sim_2d_step_ok t N M_ (st : state W) N' M' st' :
  step2 t (N, M_) st = (Ok (N', M'), st') ->
  exists vN vM outN outM vN' vM' w' oldN oldM rN rM,
    N !! (t - 1)%nat = Some vN
    /\ M_ !! (t - 1)%nat = Some vM
    /\ gen_fn vN vM kwargs (world st) = (Ok ((outN, outM), (vN', vM')), w')
    /\ <[(t - 1)%nat := write_through vN vN']> N !! t = Some oldN
    /\ <[(t - 1)%nat := write_through vM vM']> M_ !! t = Some oldM
    /\ coerce d (length oldN) outN = Ok rN
    /\ coerce d (length oldM) outM = Ok rM
    /\ N' = <[t := rN]> (<[(t - 1)%nat := write_through vN vN']> N)
    /\ M' = <[t := rM]> (<[(t - 1)%nat := write_through vM vM']> M_)
    /\ st' = after st w' [Call; Store BufN t; Store BufM t].
Proof.
  unfold run_sim_2d_step. intros H.
  inv_bind H. apply getitem_ok in H0 as [HvN ->].
  inv_bind H. apply getitem_ok in H0 as [HvM ->].
  inv_bind H. rewrite log_eq in H0. injection H0 as _ <-.
  inv_bind H. apply invoke_ok in H0 as (w' & Hg & ->).
  destruct x2 as [[outN outM] [vN' vM']].
  inv_bind H. apply setitem_ok in H0 as (oldN & rN & HoldN & HcN & -> & ->).
  inv_bind H. apply setitem_ok in H0 as (oldM & rM & HoldM & HcM & -> & ->).
  injection H as <- <- <-.
  exists x, x0, outN, outM, vN', vM', w', oldN, oldM, rN, rM.
  repeat split; try assumption.
  rewrite !after_after. reflexivity.
Qed.

Lemma run_sim_2d_step_frame t NM (st : state W) NM' st' i :
  step2 t NM st = (Ok NM', st') ->
  i <> t -> i <> (t - 1)%nat ->
  NM'.1 !! i = NM.1 !! i /\ NM'.2 !! i = NM.2 !! i.
Proof.
  destruct NM as [N M_], NM' as [N' M']. intros H Hi Hi'.
  apply run_sim_2d_step_ok in H
    as (vN & vM & outN & outM & vN' & vM' & w' & oldN & oldM & rN & rM
        & _ & _ & _ & _ & _ & _ & _ & -> & -> & _).
  simpl. rewrite !list_lookup_insert_ne by congruence. auto.
Qed.

Lemma run_sim_2d_step_shape n LN LM t NM (st : state W) NM' st' :
  shape n LN NM.1 -> shape n LM NM.2 ->
  step2 t NM st = (Ok NM', st') ->
  shape n LN NM'.1 /\ shape n LM NM'.2.
Proof.
  destruct NM as [N M_], NM' as [N' M']. simpl. intros HN HM H.
  apply run_sim_2d_step_ok in H
    as (vN & vM & outN & outM & vN' & vM' & w' & oldN & oldM & rN & rM
        & HvN & HvM & _ & HoldN & HoldM & HcN & HcM & -> & -> & _).
  assert (HN1 : shape n LN (<[(t - 1)%nat := write_through vN vN']> N)).
  { apply shape_insert; [exact HN |].
    rewrite write_through_length. eapply shape_lookup; eassumption. }
  assert (HM1 : shape n LM (<[(t - 1)%nat := write_through vM vM']> M_)).
  { apply shape_insert; [exact HM |].
    rewrite write_through_length. eapply shape_lookup; eassumption. }
  apply coerce_length in HcN, HcM.
  split; (apply shape_insert; [assumption |]).
  - rewrite HcN. eapply shape_lookup; eassumption.
  - rewrite HcM. eapply shape_lookup; eassumption.
Qed.

Lemma run_sim_2d_step_no_inplace t N M_ (st : state W) N' M' st' :
  no_inplace_2d gen_fn ->
  step2 t (N, M_) st = (Ok (N', M'), st') ->
  exists vN vM outN outM w' oldN oldM rN rM,
    N !! (t - 1)%nat = Some vN
    /\ M_ !! (t - 1)%nat = Some vM
    /\ gen_fn vN vM kwargs (world st) = (Ok ((outN, outM), (vN, vM)), w')
    /\ N !! t = Some oldN
    /\ M_ !! t = Some oldM
    /\ coerce d (length oldN) outN = Ok rN
    /\ coerce d (length oldM) outM = Ok rM
    /\ N' = <[t := rN]> N
    /\ M' = <[t := rM]> M_
    /\ st' = after st w' [Call; Store BufN t; Store BufM t].
Proof.
  intros Hpure H.
  apply run_sim_2d_step_ok in H
    as (vN & vM & outN & outM & vN' & vM' & w' & oldN & oldM & rN & rM
        & HvN & HvM & Hg & HoldN & HoldM & HcN & HcM & HN' & HM' & ->).
  pose proof (Hpure _ _ _ _ _ _ _ Hg) as [= -> ->].
  rewrite write_through_same in HoldN, HoldM, HN', HM'.
  rewrite (list_insert_id _ _ _ HvN) in HoldN, HN'.
  rewrite (list_insert_id _ _ _ HvM) in HoldM, HM'.
  exists vN, vM, outN, outM, w', oldN, oldM, rN, rM.
  repeat split; assumption || reflexivity.
Qed.

Lemma loop_2d_shape n LN LM ts NM (st : state W) NM' st' :
  shape n LN NM.1 -> shape n LM NM.2 ->
  for_each ts step2 NM st = (Ok NM', st') ->
  shape n LN NM'.1 /\ shape n LM NM'.2.
Proof.
  revert NM st. induction ts as [| t ts IH]; simpl; intros NM st HN HM H.
  - injection H as <- _. auto.
  - inv_bind H.
    destruct (run_sim_2d_step_shape _ _ _ _ _ _ _ _ HN HM H0) as [HN1 HM1].
    eapply IH; eassumption.
Qed.

Lemma loop_2d_trace ts NM (st : state W) NM' st' :
  for_each ts step2 NM st = (Ok NM', st') ->
  trace st' = trace st ++ loop_trace_2d ts.
Proof.
  revert NM st. induction ts as [| t ts IH]; simpl; intros NM st H.
  - injection H as _ <-. rewrite app_nil_r. reflexivity.
  - inv_bind H. apply IH in H. rewrite H.
    destruct NM as [N M_], x as [N1 M1].
    apply run_sim_2d_step_ok in H0
      as (vN & vM & outN & outM & vN' & vM' & w' & oldN & oldM & rN & rM
          & _ & _ & _ & _ & _ & _ & _ & _ & _ & ->).
    simpl. rewrite <- app_assoc. reflexivity.
Qed.

Lemma loop_2d_frame ts NM (st : state W) NM' st' i :
  for_each ts step2 NM st = (Ok NM', st') ->
  i ∉ ts -> S i ∉ ts ->
  NM'.1 !! i = NM.1 !! i /\ NM'.2 !! i = NM.2 !! i.
Proof.
  revert NM st. induction ts as [| t ts IH]; simpl; intros NM st H Hi HSi.
  - injection H as <- _. auto.
  - inv_bind H. apply not_elem_of_cons in Hi as [Hit Hi].
    apply not_elem_of_cons in HSi as [HSit HSi].
    destruct (IH _ _ H Hi HSi) as [-> ->].
    eapply run_sim_2d_step_frame; [exact H0 | exact Hit | lia].
Qed.

Lemma loop_2d_frame_no_inplace ts NM (st : state W) NM' st' i :
  no_inplace_2d gen_fn ->
  for_each ts step2 NM st = (Ok NM', st') ->
  i ∉ ts ->
  NM'.1 !! i = NM.1 !! i /\ NM'.2 !! i = NM.2 !! i.
Proof.
  intros Hpure. revert NM st.
  induction ts as [| t ts IH]; simpl; intros NM st H Hi.
  - injection H as <- _. auto.
  - inv_bind H. apply not_elem_of_cons in Hi as [Hit Hi].
    destruct (IH _ _ H Hi) as [-> ->].
    destruct NM as [N M_], x as [N1 M1].
    apply (run_sim_2d_step_no_inplace _ _ _ _ _ _ _ Hpure) in H0
      as (vN & vM & outN & outM & w' & oldN & oldM & rN & rM
          & _ & _ & _ & _ & _ & _ & _ & -> & -> & _).
    simpl. rewrite !list_lookup_insert_ne by congruence. auto.
Qed.

Lemma loop_2d_recurrence n LN LM m a NM (st : state W) NM' st' :
  no_inplace_2d gen_fn ->
  shape n LN NM.1 -> shape n LM NM.2 ->
  (1 <= a)%nat ->
  for_each (seq a m) step2 NM st = (Ok NM', st') ->
  forall t, (a <= t < a + m)%nat ->
    exists prevN prevM outN outM w w' rN rM,
      NM'.1 !! (t - 1)%nat = Some prevN
      /\ NM'.2 !! (t - 1)%nat = Some prevM
      /\ gen_fn prevN prevM kwargs w = (Ok ((outN, outM), (prevN, prevM)), w')
      /\ coerce d LN outN = Ok rN
      /\ coerce d LM outM = Ok rM
      /\ NM'.1 !! t = Some rN
      /\ NM'.2 !! t = Some rM.
Proof.
  intros Hpure. revert a NM st.
  induction m as [| m IH]; intros a NM st HN HM Ha H t Ht; [lia |].
  simpl in H. inv_bind H.
  destruct (run_sim_2d_step_shape _ _ _ _ _ _ _ _ HN HM H0) as [HN1 HM1].
  destruct (decide (t = a)) as [-> | Hne].
  - destruct NM as [N M_], x as [N1 M1]. simpl in HN, HM.
    apply (run_sim_2d_step_no_inplace _ _ _ _ _ _ _ Hpure) in H0
      as (vN & vM & outN & outM & w' & oldN & oldM & rN & rM
          & HvN & HvM & Hg & HoldN & HoldM & HcN & HcM & -> & -> & _).
    rewrite (shape_lookup _ _ _ _ _ HN HoldN) in HcN.
    rewrite (shape_lookup _ _ _ _ _ HM HoldM) in HcM.
    assert (Hprev : (a - 1)%nat ∉ seq (S a) m) by (rewrite elem_of_seq; lia).
    assert (Hcur : a ∉ seq (S a) m) by (rewrite elem_of_seq; lia).
    destruct (loop_2d_frame_no_inplace _ _ _ _ _ _ Hpure H Hprev) as [EN EM].
    destruct (loop_2d_frame_no_inplace _ _ _ _ _ _ Hpure H Hcur) as [EN' EM'].
    simpl in EN, EM, EN', EM'.
    exists vN, vM, outN, outM, (world st), w', rN, rM.
    rewrite EN, EM, EN', EM'.
    repeat split; try assumption.
    + rewrite list_lookup_insert_ne by lia. exact HvN.
    + rewrite list_lookup_insert_ne by lia. exact HvM.
    + apply list_lookup_insert_eq. eapply lookup_lt_Some, HoldN.
    + apply list_lookup_insert_eq. eapply lookup_lt_Some, HoldM.
  - eapply (IH (S a)); [exact HN1 | exact HM1 | lia | exact H | lia].
Qed.

Lemma loop_2d_first_view m a NM (st : state W) NM' st' :
  (1 <= a)%nat ->
  for_each (seq a (S m)) step2 NM st = (Ok NM', st') ->
  exists vN vM out vN' vM' w',
    NM.1 !! (a - 1)%nat = Some vN
    /\ NM.2 !! (a - 1)%nat = Some vM
    /\ gen_fn vN vM kwargs (world st) = (Ok (out, (vN', vM')), w')
    /\ NM'.1 !! (a - 1)%nat = Some (write_through vN vN')
    /\ NM'.2 !! (a - 1)%nat = Some (write_through vM vM').
Proof.
  intros Ha H. simpl in H. inv_bind H.
  assert (Hprev : (a - 1)%nat ∉ seq (S a) m) by (rewrite elem_of_seq; lia).
  assert (Hcur : S (a - 1) ∉ seq (S a) m) by (rewrite elem_of_seq; lia).
  destruct (loop_2d_frame _ _ _ _ _ _ H Hprev Hcur) as [-> ->].
  destruct NM as [N M_], x as [N1 M1].
  apply run_sim_2d_step_ok in H0
    as (vN & vM & outN & outM & vN' & vM' & w' & oldN & oldM & rN & rM
        & HvN & HvM & Hg & _ & _ & _ & _ & -> & -> & _).
  exists vN, vM, (outN, outM), vN', vM', w'. simpl.
  repeat split; try assumption.
  - rewrite list_lookup_insert_ne by lia.
    apply list_lookup_insert_eq. eapply lookup_lt_Some, HvN.
  - rewrite list_lookup_insert_ne by lia.
    apply list_lookup_insert_eq. eapply lookup_lt_Some, HvM.
Qed.

End Loop2d.

(** ** The drivers as a whole *)

Lemma range_from_1 ngens : range 1 ngens = seq 1 (Z.to_nat (ngens - 1)).
Proof. reflexivity. Qed.

Lemma astype_int_fixed z : in_int64 z = true -> astype dt_int (PyInt z) = Ok (PyInt z).
Proof. intros H. simpl. rewrite H. reflexivity. Qed.

Section Whole.

Context {W K : Type}.
Variable garbage : buf -> nat -> nat -> scalar.

(** The first two statements of a driver: allocate, store generation 0. *)
Lemma init_ok d b ngens (v : value) (st : state W) A st' :
  bind (np_empty garbage b ngens (len v)) (fun A => setitem d b A 0 v) st
  = (Ok A, st') ->
  1 <= ngens
  /\ exists r0,
      cast_all d v = Ok r0
      /\ shape (Z.to_nat ngens) (len v) A
      /\ A !! 0%nat = Some r0
      /\ st' = after st (world st) [Alloc b; Store b 0].
Proof.
  intros H. inv_bind H.
  apply np_empty_ok in H0 as (Hpos & Hshape & ->).
  apply setitem_ok in H as (old & r0 & Hold & Hc & -> & ->).
  rewrite (shape_lookup _ _ _ _ _ Hshape Hold), coerce_same in Hc.
  destruct Hshape as [Hlen Hrows].
  assert (Hlt : (0 < Z.to_nat ngens)%nat).
  { rewrite <- Hlen. eapply lookup_lt_Some, Hold. }
  split; [lia |]. exists r0. repeat split.
  - exact Hc.
  - rewrite length_insert. exact Hlen.
  - apply Forall_insert; [exact Hrows |]. eapply cast_all_length, Hc.
  - apply list_lookup_insert_eq. lia.
  - rewrite after_after. reflexivity.
Qed.

(** With one generation the initialisation is all there is to compute. *)
Lemma init_one d b (v : value) (st : state W) :
  bind (np_empty garbage b 1 (len v)) (fun A => setitem d b A 0 v) st
  = match cast_all d v with
    | Ok r0 => (Ok [r0], after st (world st) [Alloc b; Store b 0])
    | Raise e => (Raise e, after st (world st) [Alloc b])
    end.
Proof.
  unfold np_empty, setitem, lift_outcome, bind, log, ret. simpl.
  rewrite length_map, length_seq, coerce_same.
  destruct (cast_all d v) as [r0 | e]; [| reflexivity].
  unfold after. simpl. rewrite <- app_assoc. reflexivity.
Qed.

Lemma run_sim_ok N0 (gen_fn : gen_fn_1d W K) ngens dtype kwargs st traj st' :
  run_sim garbage N0 gen_fn ngens dtype kwargs st = (Ok traj, st') ->
  1 <= ngens
  /\ exists r0 N1,
      cast_all (dtype_or_default dtype) N0 = Ok r0
      /\ shape (Z.to_nat ngens) (len N0) N1
      /\ N1 !! 0%nat = Some r0
      /\ for_each (seq 1 (Z.to_nat (ngens - 1)))
           (run_sim_step gen_fn (dtype_or_default dtype) kwargs) N1
           (after st (world st) [Alloc BufN; Store BufN 0])
         = (Ok traj, st').
Proof.
  unfold run_sim. intros H.
  apply bind_ok in H as (A & st1 & Hnp & H).
  apply bind_ok in H as (N1 & st2 & Hset & H).
  assert (Hinit : bind (np_empty garbage BufN ngens (len N0))
                    (fun A => setitem (dtype_or_default dtype) BufN A 0 N0) st
                  = (Ok N1, st2)).
  { unfold bind. rewrite Hnp. exact Hset. }
  apply init_ok in Hinit as (Hpos & r0 & Hc & Hshape & H0 & ->).
  split; [exact Hpos |]. exists r0, N1. repeat split; try assumption.
  - apply Hshape.
  - apply Hshape.
  - inv_bind H. injection H as <- <-. rewrite <- range_from_1. exact H1.
Qed.

Lemma run_sim_2d_ok N0 M0 (gen_fn : gen_fn_2d W K) ngens dtype kwargs st TN TM st' :
  run_sim_2d garbage N0 M0 gen_fn ngens dtype kwargs st = (Ok (TN, TM), st') ->
  len N0 = len M0
  /\ 1 <= ngens
  /\ exists rN rM N1 M1,
      cast_all (dtype_or_default dtype) N0 = Ok rN
      /\ cast_all (dtype_or_default dtype) M0 = Ok rM
      /\ shape (Z.to_nat ngens) (len N0) N1
      /\ shape (Z.to_nat ngens) (len M0) M1
      /\ N1 !! 0%nat = Some rN
      /\ M1 !! 0%nat = Some rM
      /\ for_each (seq 1 (Z.to_nat (ngens - 1)))
           (run_sim_2d_step gen_fn (dtype_or_default dtype) kwargs) (N1, M1)
           (after st (world st) [Alloc BufN; Store BufN 0; Alloc BufM; Store BufM 0])
         = (Ok (TN, TM), st').
Proof.
  unfold run_sim_2d. intros H.
  destruct (Nat.eqb_spec (len N0) (len M0)) as [Hlen | Hlen];
    simpl in H; [| discriminate].
  split; [exact Hlen |].
  apply bind_ok in H as (A & st1 & Hnp & H).
  apply bind_ok in H as (N1 & st2 & Hset & H).
  assert (HinitN : bind (np_empty garbage BufN ngens (len N0))
                     (fun A => setitem (dtype_or_default dtype) BufN A 0 N0) st
                   = (Ok N1, st2)).
  { unfold bind. rewrite Hnp. exact Hset. }
  apply init_ok in HinitN as (Hpos & rN & HcN & HshapeN & HN0 & ->).
  clear A st1 Hnp Hset.
  apply bind_ok in H as (A & st1 & Hnp & H).
  apply bind_ok in H as (M1 & st2 & Hset & H).
  assert (HinitM : bind (np_empty garbage BufM ngens (len M0))
                     (fun A => setitem (dtype_or_default dtype) BufM A 0 M0)
                     (after st (world st) [Alloc BufN; Store BufN 0])
                   = (Ok M1, st2)).
  { unfold bind. rewrite Hnp. exact Hset. }
  apply init_ok in HinitM as (_ & rM & HcM & HshapeM & HM0 & ->).
  split; [exact Hpos |]. exists rN, rM, N1, M1.
  repeat split; try assumption; try apply HshapeN; try apply HshapeM.
  inv_bind H. injection H as <- <-. rewrite <- range_from_1.
  rewrite after_after in H0. exact H0.
Qed.

End Whole.

Lemma pure_1d_no_inplace {W K} (f : row -> K -> value) :
  no_inplace_1d (W:=W) (pure_1d f).
Proof. intros v kwargs w out v' w' [= _ <- _]. reflexivity. Qed.

Lemma pure_2d_no_inplace {W K} (f : row -> row -> K -> value * value) :
  no_inplace_2d (W:=W) (pure_2d f).
Proof. intros vN vM kwargs w out vs' w' [= _ <- _]. reflexivity. Qed.

Lemma nat_of_ngens (n : nat) ngens :
  n = Z.to_nat ngens -> 1 <= ngens -> Z.of_nat n = ngens.
Proof. lia. Qed.

(** What a returned trajectory looks like. *)
Lemma run_sim_shape {W K} garbage N0 (gen_fn : gen_fn_1d W K)
      ngens dtype kwargs (st : state W) traj st' :
  run_sim garbage N0 gen_fn ngens dtype kwargs st = (Ok traj, st') ->
  1 <= ngens /\ shape (Z.to_nat ngens) (len N0) traj.
Proof.
  intros H.
  apply run_sim_ok in H as (Hpos & r0 & N1 & _ & Hshape & _ & Hloop).
  split; [exact Hpos |].
  exact (loop_1d_shape _ _ _ _ _ _ _ _ _ _ Hshape Hloop).
Qed.

Lemma run_sim_2d_shape {W K} garbage N0 M0 (gen_fn : gen_fn_2d W K)
      ngens dtype kwargs (st : state W) TN TM st' :
  run_sim_2d garbage N0 M0 gen_fn ngens dtype kwargs st = (Ok (TN, TM), st') ->
  len N0 = len M0 /\ 1 <= ngens
  /\ shape (Z.to_nat ngens) (len N0) TN
  /\ shape (Z.to_nat ngens) (len M0) TM.
Proof.
  intros H.
  apply run_sim_2d_ok in H
    as (Hlen & Hpos & rN & rM & N1 & M1 & _ & _ & HshN & HshM & _ & _ & Hloop).
  split; [exact Hlen |]. split; [exact Hpos |].
  exact (loop_2d_shape _ _ _ _ _ _ _ (N1, M1) _ (TN, TM) _ HshN HshM Hloop).
Qed.


(** ** A run, turn by turn *)

Lemma range_nil lo : range lo lo = [].
Proof. unfold range. rewrite Z.sub_diag. reflexivity. Qed.

Lemma range_split (t : nat) hi :
  1 <= Z.of_nat t <= hi ->
  range 1 hi = range 1 (Z.of_nat t) ++ range (Z.of_nat t) hi.
Proof.
  intros Ht. unfold range.
  replace (Z.to_nat (hi - 1))
    with (Z.to_nat (Z.of_nat t - 1) + Z.to_nat (hi - Z.of_nat t))%nat by lia.
  rewrite seq_app. do 2 f_equal. lia.
Qed.

Lemma range_cons (t : nat) hi :
  Z.of_nat t < hi -> range (Z.of_nat t) hi = t :: range (Z.of_nat t + 1) hi.
Proof.
  intros Ht. unfold range.
  replace (Z.to_nat (hi - Z.of_nat t))
    with (S (Z.to_nat (hi - (Z.of_nat t + 1)))) by lia.
  simpl. rewrite Nat2Z.id. do 2 f_equal. lia.
Qed.

Lemma range_snoc (t : nat) :
  1 <= Z.of_nat t -> range 1 (Z.of_nat t + 1) = range 1 (Z.of_nat t) ++ [t].
Proof.
  intros Ht. rewrite (range_split t) by lia. f_equal.
  rewrite range_cons by lia. rewrite range_nil. reflexivity.
Qed.

Section Turns.

Context {W K : Type}.
Variable garbage : buf -> nat -> nat -> scalar.

(** What a turn of the loop of [run_sim] does, for a call that returns. *)
Lemma run_sim_step_eq (gen_fn : gen_fn_1d W K) d kwargs t N (st : state W)
      v out v' w' old :
  N !! (t - 1)%nat = Some v ->
  gen_fn v kwargs (world st) = (Ok (out, v'), w') ->
  <[(t - 1)%nat := write_through v v']> N !! t = Some old ->
  run_sim_step gen_fn d kwargs t N st
  = match coerce d (length old) out with
    | Ok r =>
        (Ok (<[t := r]> (<[(t - 1)%nat := write_through v v']> N)),
         after st w' [Call; Store BufN t])
    | Raise e => (Raise e, after st w' [Call])
    end.
Proof.
  intros Hv Hg Hold.
  unfold run_sim_step, getitem, setitem, invoke, log, lift_outcome, bind, ret.
  rewrite Hv. simpl. rewrite Hg, Hold.
  unfold after. simpl.
  destruct (coerce d (length old) out); simpl; rewrite <- ?app_assoc; reflexivity.
Qed.

Lemma run_sim_until_all N0 (gen_fn : gen_fn_1d W K) ngens dtype kwargs st :
  run_sim garbage N0 gen_fn ngens dtype kwargs st
  = run_sim_until garbage N0 gen_fn ngens dtype kwargs ngens st.
Proof.
  unfold run_sim, run_sim_until, bind.
  destruct (np_empty _ _ _ _ st) as [[A | e] s1]; [| reflexivity].
  destruct (setitem _ _ _ _ _ s1) as [[N | e] s2]; [| reflexivity].
  destruct (for_each _ _ _ s2) as [[N' | e] s3]; reflexivity.
Qed.

Lemma run_sim_until_split N0 (gen_fn : gen_fn_1d W K) ngens dtype kwargs
      (t : nat) hi st :
  1 <= Z.of_nat t <= hi ->
  run_sim_until garbage N0 gen_fn ngens dtype kwargs hi st
  = bind (run_sim_until garbage N0 gen_fn ngens dtype kwargs (Z.of_nat t))
      (for_each (range (Z.of_nat t) hi)
         (run_sim_step gen_fn (dtype_or_default dtype) kwargs)) st.
Proof.
  intros Ht. unfold run_sim_until, bind.
  destruct (np_empty _ _ _ _ st) as [[A | e] s1]; [| reflexivity].
  destruct (setitem _ _ _ _ _ s1) as [[N | e] s2]; [| reflexivity].
  rewrite (range_split t hi Ht), for_each_app. reflexivity.
Qed.

Lemma run_sim_until_shape N0 (gen_fn : gen_fn_1d W K) ngens dtype kwargs t st N st' :
  run_sim_until garbage N0 gen_fn ngens dtype kwargs t st = (Ok N, st') ->
  shape (Z.to_nat ngens) (len N0) N.
Proof.
  unfold run_sim_until. intros H.
  apply bind_ok in H as (A & st1 & Hnp & H).
  apply bind_ok in H as (N1 & st2 & Hset & H).
  assert (Hinit : bind (np_empty garbage BufN ngens (len N0))
                    (fun A => setitem (dtype_or_default dtype) BufN A 0 N0) st
                  = (Ok N1, st2)).
  { unfold bind. rewrite Hnp. exact Hset. }
  apply init_ok in Hinit as (_ & r0 & _ & Hshape & _).
  eapply loop_1d_shape; eassumption.
Qed.

(** Generation 0 as it is stored, before the loop. *)
Lemma run_sim_until_1 N0 (gen_fn : gen_fn_1d W K) ngens dtype kwargs st traj st' :
  run_sim garbage N0 gen_fn ngens dtype kwargs st = (Ok traj, st') ->
  exists N1 r0,
    run_sim_until garbage N0 gen_fn ngens dtype kwargs 1 st
    = (Ok N1, after st (world st) [Alloc BufN; Store BufN 0])
    /\ cast_all (dtype_or_default dtype) N0 = Ok r0
    /\ N1 !! 0%nat = Some r0.
Proof.
  intros H.
  pose proof (run_sim_ok garbage _ _ _ _ _ _ _ _ H) as (Hpos & _).
  rewrite run_sim_until_all, (run_sim_until_split _ _ _ _ _ 1) in H by lia.
  apply bind_ok in H as (N1 & st1 & Hun & _).
  pose proof Hun as Hun'. unfold run_sim_until in Hun'.
  rewrite <- bind_assoc in Hun'.
  apply bind_ok in Hun' as (N1' & st1' & Hinit & Hloop).
  apply init_ok in Hinit as (_ & r0 & Hc & _ & H0 & ->).
  change (range 1 (Z.of_nat 1)) with (@nil nat) in Hloop.
  injection Hloop as <- <-.
  exists N1', r0. auto.
Qed.

(** Turn [t] of a run that returns: the call it makes and what it stores,
    in the state the turns before it have left. *)
Lemma run_sim_turn N0 (gen_fn : gen_fn_1d W K) ngens dtype kwargs st traj st' :
  run_sim garbage N0 gen_fn ngens dtype kwargs st = (Ok traj, st') ->
  forall t : nat, 1 <= Z.of_nat t <= ngens - 1 ->
    exists N st1 v out v' w' r,
      run_sim_until garbage N0 gen_fn ngens dtype kwargs (Z.of_nat t) st
      = (Ok N, st1)
      /\ N !! (t - 1)%nat = Some v
      /\ gen_fn v kwargs (world st1) = (Ok (out, v'), w')
      /\ coerce (dtype_or_default dtype) (len N0) out = Ok r
      /\ run_sim_until garbage N0 gen_fn ngens dtype kwargs (Z.of_nat t + 1) st
         = (Ok (<[t := r]> (<[(t - 1)%nat := write_through v v']> N)),
            after st1 w' [Call; Store BufN t]).
Proof.
  intros H t Ht.
  rewrite run_sim_until_all, (run_sim_until_split _ _ _ _ _ t) in H by lia.
  apply bind_ok in H as (N & st1 & Hun & Hloop).
  rewrite range_cons in Hloop by lia. simpl in Hloop.
  apply bind_ok in Hloop as (N' & st2 & Hstep & _).
  pose proof (run_sim_until_shape _ _ _ _ _ _ _ _ _ Hun) as Hshape.
  pose proof Hstep as Hstep'.
  apply run_sim_step_ok in Hstep'
    as (v & out & v' & w' & old & r & Hv & Hg & Hold & Hc & -> & ->).
  assert (HL : length old = len N0).
  { eapply shape_lookup; [| exact Hold].
    apply shape_insert; [exact Hshape |].
    rewrite write_through_length. eapply shape_lookup; eassumption. }
  rewrite HL in Hc.
  exists N, st1, v, out, v', w', r.
  split; [exact Hun |]. split; [exact Hv |]. split; [exact Hg |].
  split; [exact Hc |].
  rewrite (run_sim_until_split _ _ _ _ _ t (Z.of_nat t + 1)) by lia.
  unfold bind at 1. rewrite Hun.
  rewrite range_cons by lia.
  rewrite range_nil. simpl. rewrite bind_ret_r. exact Hstep.
Qed.

Lemma run_sim_until_succ N0 (gen_fn : gen_fn_1d W K) ngens dtype kwargs
      (t : nat) st :
  1 <= Z.of_nat t ->
  run_sim_until garbage N0 gen_fn ngens dtype kwargs (Z.of_nat t + 1) st
  = bind (run_sim_until garbage N0 gen_fn ngens dtype kwargs (Z.of_nat t))
      (run_sim_step gen_fn (dtype_or_default dtype) kwargs t) st.
Proof.
  intros Ht.
  rewrite (run_sim_until_split _ _ _ _ _ t (Z.of_nat t + 1)) by lia.
  unfold bind.
  destruct (run_sim_until _ _ _ _ _ _ _ st) as [[N | e] st1]; [| reflexivity].
  rewrite range_cons by lia. rewrite range_nil. simpl. apply bind_ret_r.
Qed.

(** A turn that raises ends the run. *)
Lemma run_sim_raises_at N0 (gen_fn : gen_fn_1d W K) ngens dtype kwargs st
      (t : nat) N st1 e st2 :
  1 <= Z.of_nat t <= ngens - 1 ->
  run_sim_until garbage N0 gen_fn ngens dtype kwargs (Z.of_nat t) st = (Ok N, st1) ->
  run_sim_step gen_fn (dtype_or_default dtype) kwargs t N st1 = (Raise e, st2) ->
  run_sim garbage N0 gen_fn ngens dtype kwargs st = (Raise e, st2).
Proof.
  intros Ht Hun Hstep.
  rewrite run_sim_until_all, (run_sim_until_split _ _ _ _ _ t) by lia.
  unfold bind at 1. rewrite Hun.
  rewrite range_cons by lia. simpl.
  apply bind_raise_l, Hstep.
Qed.

Lemma run_sim_2d_until_all N0 M0 (gen_fn : gen_fn_2d W K) ngens dtype kwargs st :
  run_sim_2d garbage N0 M0 gen_fn ngens dtype kwargs st
  = run_sim_2d_until garbage N0 M0 gen_fn ngens dtype kwargs ngens st.
Proof.
  unfold run_sim_2d, run_sim_2d_until.
  destruct (negb (len N0 =? len M0)%nat); [reflexivity |].
  unfold bind.
  destruct (np_empty _ _ _ _ st) as [[A | e] s1]; [| reflexivity].
  destruct (setitem _ _ _ _ _ s1) as [[N | e] s2]; [| reflexivity].
  destruct (np_empty _ _ _ _ s2) as [[B | e] s3]; [| reflexivity].
  destruct (setitem _ _ _ _ _ s3) as [[M1 | e] s4]; [| reflexivity].
  destruct (for_each _ _ _ s4) as [[NM | e] s5]; reflexivity.
Qed.

Lemma run_sim_2d_until_split N0 M0 (gen_fn : gen_fn_2d W K) ngens dtype kwargs
      (t : nat) hi st :
  1 <= Z.of_nat t <= hi ->
  run_sim_2d_until garbage N0 M0 gen_fn ngens dtype kwargs hi st
  = bind (run_sim_2d_until garbage N0 M0 gen_fn ngens dtype kwargs (Z.of_nat t))
      (for_each (range (Z.of_nat t) hi)
         (run_sim_2d_step gen_fn (dtype_or_default dtype) kwargs)) st.
Proof.
  intros Ht. unfold run_sim_2d_until.
  destruct (negb (len N0 =? len M0)%nat); [reflexivity |].
  unfold bind.
  destruct (np_empty _ _ _ _ st) as [[A | e] s1]; [| reflexivity].
  destruct (setitem _ _ _ _ _ s1) as [[N | e] s2]; [| reflexivity].
  destruct (np_empty _ _ _ _ s2) as [[B | e] s3]; [| reflexivity].
  destruct (setitem _ _ _ _ _ s3) as [[M1 | e] s4]; [| reflexivity].
  rewrite (range_split t hi Ht), for_each_app. reflexivity.
Qed.

Lemma run_sim_2d_until_ok N0 M0 (gen_fn : gen_fn_2d W K) ngens dtype kwargs
      t st N M_ st' :
  run_sim_2d_until garbage N0 M0 gen_fn ngens dtype kwargs t st
  = (Ok (N, M_), st') ->
  len N0 = len M0
  /\ exists rN rM N1 M1,
      cast_all (dtype_or_default dtype) N0 = Ok rN
      /\ cast_all (dtype_or_default dtype) M0 = Ok rM
      /\ shape (Z.to_nat ngens) (len N0) N1
      /\ shape (Z.to_nat ngens) (len M0) M1
      /\ N1 !! 0%nat = Some rN
      /\ M1 !! 0%nat = Some rM
      /\ for_each (range 1 t)
           (run_sim_2d_step gen_fn (dtype_or_default dtype) kwargs) (N1, M1)
           (after st (world st) [Alloc BufN; Store BufN 0; Alloc BufM; Store BufM 0])
         = (Ok (N, M_), st').
Proof.
  unfold run_sim_2d_until. intros H.
  destruct (Nat.eqb_spec (len N0) (len M0)) as [Hlen | Hlen];
    simpl in H; [| discriminate].
  split; [exact Hlen |].
  apply bind_ok in H as (A & st1 & Hnp & H).
  apply bind_ok in H as (N1 & st2 & Hset & H).
  assert (HinitN : bind (np_empty garbage BufN ngens (len N0))
                     (fun A => setitem (dtype_or_default dtype) BufN A 0 N0) st
                   = (Ok N1, st2)).
  { unfold bind. rewrite Hnp. exact Hset. }
  apply init_ok in HinitN as (Hpos & rN & HcN & HshapeN & HN0 & ->).
  clear A st1 Hnp Hset.
  apply bind_ok in H as (A & st1 & Hnp & H).
  apply bind_ok in H as (M1 & st2 & Hset & H).
  assert (HinitM : bind (np_empty garbage BufM ngens (len M0))
                     (fun A => setitem (dtype_or_default dtype) BufM A 0 M0)
                     (after st (world st) [Alloc BufN; Store BufN 0])
                   = (Ok M1, st2)).
  { unfold bind. rewrite Hnp. exact Hset. }
  apply init_ok in HinitM as (_ & rM & HcM & HshapeM & HM0 & ->).
  exists rN, rM, N1, M1.
  rewrite after_after in H. auto 10.
Qed.

Lemma run_sim_2d_until_1 N0 M0 (gen_fn : gen_fn_2d W K) ngens dtype kwargs
      st TN TM st' :
  run_sim_2d garbage N0 M0 gen_fn ngens dtype kwargs st = (Ok (TN, TM), st') ->
  exists N1 M1 rN rM,
    run_sim_2d_until garbage N0 M0 gen_fn ngens dtype kwargs 1 st
    = (Ok (N1, M1),
       after st (world st) [Alloc BufN; Store BufN 0; Alloc BufM; Store BufM 0])
    /\ cast_all (dtype_or_default dtype) N0 = Ok rN
    /\ cast_all (dtype_or_default dtype) M0 = Ok rM
    /\ N1 !! 0%nat = Some rN
    /\ M1 !! 0%nat = Some rM.
Proof.
  intros H.
  pose proof (run_sim_2d_ok garbage _ _ _ _ _ _ _ _ _ _ H) as (_ & Hpos & _).
  rewrite run_sim_2d_until_all, (run_sim_2d_until_split _ _ _ _ _ _ 1) in H by lia.
  apply bind_ok in H as ([N1 M1] & st1 & Hun & _).
  pose proof Hun as Hun'.
  apply run_sim_2d_until_ok in Hun'
    as (_ & rN & rM & N1' & M1' & HcN & HcM & _ & _ & HN0 & HM0 & Hloop).
  change (range 1 1) with (@nil nat) in Hloop.
  injection Hloop as <- <- <-.
  exists N1', M1', rN, rM. auto 10.
Qed.

(** Turn [t] of a run of [run_sim_2d] that returns: one call, on generation
    [t - 1] of both buffers, and the store of its two results as generation
    [t] of the one and of the other. *)
Lemma run_sim_2d_turn N0 M0 (gen_fn : gen_fn_2d W K) ngens dtype kwargs
      st TN TM st' :
  run_sim_2d garbage N0 M0 gen_fn ngens dtype kwargs st = (Ok (TN, TM), st') ->
  forall t : nat, 1 <= Z.of_nat t <= ngens - 1 ->
    exists N M_ st1 vN vM outN outM vN' vM' w' rN rM,
      run_sim_2d_until garbage N0 M0 gen_fn ngens dtype kwargs (Z.of_nat t) st
      = (Ok (N, M_), st1)
      /\ N !! (t - 1)%nat = Some vN
      /\ M_ !! (t - 1)%nat = Some vM
      /\ gen_fn vN vM kwargs (world st1) = (Ok ((outN, outM), (vN', vM')), w')
      /\ coerce (dtype_or_default dtype) (len N0) outN = Ok rN
      /\ coerce (dtype_or_default dtype) (len M0) outM = Ok rM
      /\ run_sim_2d_until garbage N0 M0 gen_fn ngens dtype kwargs
           (Z.of_nat t + 1) st
         = (Ok (<[t := rN]> (<[(t - 1)%nat := write_through vN vN']> N),
                <[t := rM]> (<[(t - 1)%nat := write_through vM vM']> M_)),
            after st1 w' [Call; Store BufN t; Store BufM t]).
Proof.
  intros H t Ht.
  rewrite run_sim_2d_until_all, (run_sim_2d_until_split _ _ _ _ _ _ t) in H by lia.
  apply bind_ok in H as ([N M_] & st1 & Hun & Hloop).
  rewrite range_cons in Hloop by lia. simpl in Hloop.
  apply bind_ok in Hloop as ([N' M'] & st2 & Hstep & _).
  pose proof Hun as Hun'.
  apply run_sim_2d_until_ok in Hun'
    as (_ & rN0 & rM0 & N1 & M1 & _ & _ & HshN & HshM & _ & _ & Hpre).
  destruct (loop_2d_shape _ _ _ _ _ _ _ (N1, M1) _ (N, M_) _ HshN HshM Hpre)
    as [HshN' HshM'].
  simpl in HshN', HshM'.
  pose proof Hstep as Hstep'.
  apply run_sim_2d_step_ok in Hstep'
    as (vN & vM & outN & outM & vN' & vM' & w' & oldN & oldM & rN & rM
        & HvN & HvM & Hg & HoldN & HoldM & HcN & HcM & -> & -> & ->).
  assert (HLN : length oldN = len N0).
  { eapply shape_lookup; [| exact HoldN].
    apply shape_insert; [exact HshN' |].
    rewrite write_through_length. eapply shape_lookup; eassumption. }
  assert (HLM : length oldM = len M0).
  { eapply shape_lookup; [| exact HoldM].
    apply shape_insert; [exact HshM' |].
    rewrite write_through_length. eapply shape_lookup; eassumption. }
  rewrite HLN in HcN. rewrite HLM in HcM.
  exists N, M_, st1, vN, vM, outN, outM, vN', vM', w', rN, rM.
  split; [exact Hun |]. split; [exact HvN |]. split; [exact HvM |].
  split; [exact Hg |]. split; [exact HcN |]. split; [exact HcM |].
  rewrite (run_sim_2d_until_split _ _ _ _ _ _ t (Z.of_nat t + 1)) by lia.
  unfold bind at 1. rewrite Hun.
  rewrite range_cons by lia.
  rewrite range_nil. simpl. rewrite bind_ret_r. exact Hstep.
Qed.

Lemma run_sim_2d_until_shape N0 M0 (gen_fn : gen_fn_2d W K) ngens dtype kwargs
      t st N M_ st' :
  run_sim_2d_until garbage N0 M0 gen_fn ngens dtype kwargs t st
  = (Ok (N, M_), st') ->
  shape (Z.to_nat ngens) (len N0) N /\ shape (Z.to_nat ngens) (len M0) M_.
Proof.
  intros H.
  apply run_sim_2d_until_ok in H
    as (_ & rN & rM & N1 & M1 & _ & _ & HshN & HshM & _ & _ & Hloop).
  exact (loop_2d_shape _ _ _ _ _ _ _ (N1, M1) _ (N, M_) _ HshN HshM Hloop).
Qed.

(** With a transition function that leaves its arguments alone, the
    generations stored before turn [k] are in the returned trajectory as
    they were stored. *)
Lemma run_sim_kept N0 (gen_fn : gen_fn_1d W K) ngens dtype kwargs st traj st'
      (k : nat) N st1 :
  no_inplace_1d gen_fn ->
  run_sim garbage N0 gen_fn ngens dtype kwargs st = (Ok traj, st') ->
  1 <= Z.of_nat k <= ngens ->
  run_sim_until garbage N0 gen_fn ngens dtype kwargs (Z.of_nat k) st = (Ok N, st1) ->
  forall i, (i < k)%nat -> traj !! i = N !! i.
Proof.
  intros Hpure H Hk Hun i Hi.
  rewrite run_sim_until_all, (run_sim_until_split _ _ _ _ _ k) in H by lia.
  unfold bind in H. rewrite Hun in H.
  eapply loop_1d_frame_no_inplace; [exact Hpure | exact H |].
  unfold range. rewrite elem_of_seq. lia.
Qed.

Lemma run_sim_2d_kept N0 M0 (gen_fn : gen_fn_2d W K) ngens dtype kwargs
      st TN TM st' (k : nat) N M_ st1 :
  no_inplace_2d gen_fn ->
  run_sim_2d garbage N0 M0 gen_fn ngens dtype kwargs st = (Ok (TN, TM), st') ->
  1 <= Z.of_nat k <= ngens ->
  run_sim_2d_until garbage N0 M0 gen_fn ngens dtype kwargs (Z.of_nat k) st
  = (Ok (N, M_), st1) ->
  forall i, (i < k)%nat -> TN !! i = N !! i /\ TM !! i = M_ !! i.
Proof.
  intros Hpure H Hk Hun i Hi.
  rewrite run_sim_2d_until_all, (run_sim_2d_until_split _ _ _ _ _ _ k) in H by lia.
  unfold bind in H. rewrite Hun in H.
  apply (loop_2d_frame_no_inplace _ _ _ _ (N, M_) _ (TN, TM) _ i Hpure H).
  unfold range. rewrite elem_of_seq. lia.
Qed.

(** The two generations a turn has to do with, in the returned trajectory,
    when the transition function leaves its argument alone. *)
Lemma run_sim_turn_kept N0 (gen_fn : gen_fn_1d W K) ngens dtype kwargs st traj st'
      (t : nat) N st1 v r st2 :
  no_inplace_1d gen_fn ->
  run_sim garbage N0 gen_fn ngens dtype kwargs st = (Ok traj, st') ->
  1 <= Z.of_nat t <= ngens - 1 ->
  run_sim_until garbage N0 gen_fn ngens dtype kwargs (Z.of_nat t) st = (Ok N, st1) ->
  N !! (t - 1)%nat = Some v ->
  run_sim_until garbage N0 gen_fn ngens dtype kwargs (Z.of_nat t + 1) st
  = (Ok (<[t := r]> (<[(t - 1)%nat := write_through v v]> N)), st2) ->
  traj !! (t - 1)%nat = Some v /\ traj !! t = Some r.
Proof.
  intros Hpure H Ht Hun Hv Hun'.
  replace (Z.of_nat t + 1) with (Z.of_nat (S t)) in Hun' by lia.
  assert (Hks : 1 <= Z.of_nat (S t) <= ngens) by lia.
  pose proof (run_sim_kept _ _ _ _ _ _ _ _ _ _ _ Hpure H Hks Hun') as Hk.
  destruct (run_sim_until_shape _ _ _ _ _ _ _ _ _ Hun) as [Hlen _].
  rewrite write_through_same, (list_insert_id _ _ _ Hv) in Hk.
  split.
  - rewrite Hk by lia. rewrite list_lookup_insert_ne by lia. exact Hv.
  - rewrite Hk by lia. apply list_lookup_insert_eq. lia.
Qed.

Lemma run_sim_2d_turn_kept N0 M0 (gen_fn : gen_fn_2d W K) ngens dtype kwargs
      st TN TM st' (t : nat) N M_ st1 vN vM rN rM st2 :
  no_inplace_2d gen_fn ->
  run_sim_2d garbage N0 M0 gen_fn ngens dtype kwargs st = (Ok (TN, TM), st') ->
  1 <= Z.of_nat t <= ngens - 1 ->
  run_sim_2d_until garbage N0 M0 gen_fn ngens dtype kwargs (Z.of_nat t) st
  = (Ok (N, M_), st1) ->
  N !! (t - 1)%nat = Some vN ->
  M_ !! (t - 1)%nat = Some vM ->
  run_sim_2d_until garbage N0 M0 gen_fn ngens dtype kwargs (Z.of_nat t + 1) st
  = (Ok (<[t := rN]> (<[(t - 1)%nat := write_through vN vN]> N),
         <[t := rM]> (<[(t - 1)%nat := write_through vM vM]> M_)), st2) ->
  TN !! (t - 1)%nat = Some vN /\ TM !! (t - 1)%nat = Some vM
  /\ TN !! t = Some rN /\ TM !! t = Some rM.
Proof.
  intros Hpure H Ht Hun HvN HvM Hun'.
  replace (Z.of_nat t + 1) with (Z.of_nat (S t)) in Hun' by lia.
  assert (Hks : 1 <= Z.of_nat (S t) <= ngens) by lia.
  pose proof (run_sim_2d_kept _ _ _ _ _ _ _ _ _ _ _ _ _ _ Hpure H Hks Hun')
    as Hk.
  destruct (run_sim_2d_until_shape _ _ _ _ _ _ _ _ _ _ _ Hun)
    as [[HlenN _] [HlenM _]].
  rewrite !write_through_same in Hk.
  rewrite (list_insert_id _ _ _ HvN), (list_insert_id _ _ _ HvM) in Hk.
  destruct (Hk (t - 1)%nat ltac:(lia)) as [-> ->].
  destruct (Hk t ltac:(lia)) as [-> ->].
  rewrite !list_lookup_insert_ne by lia.
  split; [exact HvN |]. split; [exact HvM |].
  split; apply list_lookup_insert_eq; lia.
Qed.

End Turns.

(** * The scenarios of the specification *)

(** C6: [run_sim] with initial vector [[10]], transition [f(N) = N + 1] and
    5 generations returns the trajectory [[10, 11, 12, 13, 14]], whatever the
    fresh buffer held and whatever went on before. *)
Theorem run_sim_succ_scenario {W} garbage (st : state W) :
  (run_sim garbage (PyList (ints [10])) (pure_1d succ_gen) 5 None tt st).1
  = Ok [ints [10]; ints [11]; ints [12]; ints [13]; ints [14]].
Proof. reflexivity. Qed.

(** C7: [run_sim_2d] with initial vectors [([10], [0])], transition
    [f(N, M) = (N - 1, M + 1)] and 4 generations returns the N-trajectory
    [[10, 9, 8, 7]] and the M-trajectory [[0, 1, 2, 3]]. *)
Theorem run_sim_2d_shift_scenario {W} garbage (st : state W) :
  (run_sim_2d garbage (PyList (ints [10])) (PyList (ints [0]))
     (pure_2d shift_gen) 4 None tt st).1
  = Ok ([ints [10]; ints [9]; ints [8]; ints [7]],
        [ints [0]; ints [1]; ints [2]; ints [3]]).
Proof. reflexivity. Qed.

(** * Shape of the trajectories *)

(** C8: whenever a driver returns, the trajectory has as many entries as
    generations were requested and every generation has as many cells as the
    initial condition; for [run_sim_2d] the two initial conditions have the
    same length. *)
Theorem trajectory_shape {W K} garbage (N0 M0 : value)
        (gen_fn : gen_fn_1d W K) (gen_fn2 : gen_fn_2d W K)
        ngens dtype kwargs (st : state W) :
  (forall traj st',
      run_sim garbage N0 gen_fn ngens dtype kwargs st = (Ok traj, st') ->
      Z.of_nat (length traj) = ngens
      /\ Forall (fun r => length r = len N0) traj)
  /\ (forall TN TM st',
         run_sim_2d garbage N0 M0 gen_fn2 ngens dtype kwargs st = (Ok (TN, TM), st') ->
         len N0 = len M0
         /\ Z.of_nat (length TN) = ngens
         /\ Z.of_nat (length TM) = ngens
         /\ Forall (fun r => length r = len N0) TN
         /\ Forall (fun r => length r = len M0) TM).
Proof.
  split.
  - intros traj st' H.
    apply run_sim_shape in H as (Hpos & Hlen & Hrows).
    split; [apply nat_of_ngens; assumption | exact Hrows].
  - intros TN TM st' H.
    apply run_sim_2d_shape in H
      as (Hlen & Hpos & [HlenN HrowsN] & [HlenM HrowsM]).
    repeat split; try assumption; apply nat_of_ngens; assumption.
Qed.

Lemma trajectory_shape_witness :
  (Z.of_nat (length [ints [10]; ints [11]; ints [12]]) = 3
   /\ Forall (fun r => length r = len (PyList (ints [10])))
        [ints [10]; ints [11]; ints [12]])
  /\ (len (PyList (ints [10])) = len (PyList (ints [0]))
      /\ Z.of_nat (length [ints [10]; ints [9]]) = 2
      /\ Z.of_nat (length [ints [0]; ints [1]]) = 2
      /\ Forall (fun r => length r = len (PyList (ints [10])))
           [ints [10]; ints [9]]
      /\ Forall (fun r => length r = len (PyList (ints [0])))
           [ints [0]; ints [1]]).
Proof.
  split.
  - eapply (proj1 (trajectory_shape no_garbage (PyList (ints [10]))
                     (PyList (ints [0])) (pure_1d succ_gen) (pure_2d shift_gen)
                     3 None tt (start tt))).
    reflexivity.
  - eapply (proj2 (trajectory_shape no_garbage (PyList (ints [10]))
                     (PyList (ints [0])) (pure_1d succ_gen) (pure_2d shift_gen)
                     2 None tt (start tt))).
    reflexivity.
Defined.

(** * The precondition of [run_sim_2d] and lockstep *)

(** C3: with initial vectors of different lengths [run_sim_2d] raises at its
    assertion, before it has allocated or stored anything and before it has
    called the transition function: the state is the one it was called in.
    With initial vectors of the same length, a run that returns has taken
    both trajectories through the generations together.  Both have [ngens]
    entries.  Every turn [t] from 1 to [ngens - 1] is one call of the
    transition function, on generation [t - 1] of both buffers and in the
    state the turns before it have left, followed by the stores of its two
    results as generation [t] of N and as generation [t] of M; the run is
    what the last turn leaves.  With a transition function that does not
    update its arguments in place, generations [t - 1] and [t] of the
    returned trajectories are what that call was given and what was stored
    of its results. *)
Theorem run_sim_2d_lockstep {W K} garbage (N0 M0 : value)
        (gen_fn : gen_fn_2d W K) ngens dtype kwargs (st : state W) :
  (len N0 <> len M0 ->
   run_sim_2d garbage N0 M0 gen_fn ngens dtype kwargs st
   = (Raise AssertionError, st))
  /\ (len N0 = len M0 ->
      forall TN TM st',
        run_sim_2d garbage N0 M0 gen_fn ngens dtype kwargs st = (Ok (TN, TM), st') ->
        Z.of_nat (length TN) = ngens
        /\ Z.of_nat (length TM) = ngens
        /\ trace st'
           = trace st
               ++ [Alloc BufN; Store BufN 0; Alloc BufM; Store BufM 0]
               ++ loop_trace_2d (seq 1 (Z.to_nat (ngens - 1)))
        /\ run_sim_2d_until garbage N0 M0 gen_fn ngens dtype kwargs ngens st
           = (Ok (TN, TM), st')
        /\ forall t : nat, 1 <= Z.of_nat t <= ngens - 1 ->
             exists N M_ st1 vN vM outN outM vN' vM' w' rN rM,
               run_sim_2d_until garbage N0 M0 gen_fn ngens dtype kwargs
                 (Z.of_nat t) st
               = (Ok (N, M_), st1)
               /\ N !! (t - 1)%nat = Some vN
               /\ M_ !! (t - 1)%nat = Some vM
               /\ gen_fn vN vM kwargs (world st1)
                  = (Ok ((outN, outM), (vN', vM')), w')
               /\ coerce (dtype_or_default dtype) (len N0) outN = Ok rN
               /\ coerce (dtype_or_default dtype) (len M0) outM = Ok rM
               /\ run_sim_2d_until garbage N0 M0 gen_fn ngens dtype kwargs
                    (Z.of_nat t + 1) st
                  = (Ok (<[t := rN]> (<[(t - 1)%nat := write_through vN vN']> N),
                         <[t := rM]> (<[(t - 1)%nat := write_through vM vM']> M_)),
                     after st1 w' [Call; Store BufN t; Store BufM t])
               /\ (no_inplace_2d gen_fn ->
                   TN !! (t - 1)%nat = Some vN /\ TM !! (t - 1)%nat = Some vM
                   /\ TN !! t = Some rN /\ TM !! t = Some rM)).
Proof.
  split.
  - intros Hne. unfold run_sim_2d.
    destruct (Nat.eqb_spec (len N0) (len M0)); [contradiction |].
    reflexivity.
  - intros _ TN TM st' H.
    pose proof (run_sim_2d_shape _ _ _ _ _ _ _ _ _ _ _ H)
      as (_ & Hpos & [HN _] & [HM _]).
    split; [apply nat_of_ngens; assumption |].
    split; [apply nat_of_ngens; assumption |].
    split.
    { pose proof H as H'.
      apply run_sim_2d_ok in H'
        as (_ & _ & rN & rM & N1 & M1 & _ & _ & _ & _ & _ & _ & Hloop).
      apply loop_2d_trace in Hloop. rewrite Hloop. simpl.
      rewrite <- app_assoc. reflexivity. }
    split; [rewrite <- run_sim_2d_until_all; exact H |].
    intros t Ht.
    destruct (run_sim_2d_turn garbage _ _ _ _ _ _ _ _ _ _ H t Ht)
      as (N & M_ & st1 & vN & vM & outN & outM & vN' & vM' & w' & rN & rM
          & Hun & HvN & HvM & Hg & HcN & HcM & Hun').
    exists N, M_, st1, vN, vM, outN, outM, vN', vM', w', rN, rM.
    split; [exact Hun |]. split; [exact HvN |]. split; [exact HvM |].
    split; [exact Hg |]. split; [exact HcN |]. split; [exact HcM |].
    split; [exact Hun' |].
    intros Hpure.
    pose proof (Hpure _ _ _ _ _ _ _ Hg) as Heq.
    injection Heq as -> ->.
    eapply run_sim_2d_turn_kept; eassumption.
Qed.

Lemma run_sim_2d_lockstep_witness :
  run_sim_2d no_garbage (PyList (ints [10; 20])) (PyList (ints [0]))
    (pure_2d shift_gen) 4 None tt (start tt)
  = (Raise AssertionError, start tt)
  /\ (Z.of_nat (length [ints [10]; ints [9]; ints [8]]) = 3
      /\ Z.of_nat (length [ints [0]; ints [1]; ints [2]]) = 3
      /\ exists N M_ st1 vN vM outN outM vN' vM' w' rN rM,
           run_sim_2d_until no_garbage (PyList (ints [10])) (PyList (ints [0]))
             (pure_2d shift_gen) 3 None tt (Z.of_nat 2) (start tt)
           = (Ok (N, M_), st1)
           /\ N !! (2 - 1)%nat = Some vN
           /\ M_ !! (2 - 1)%nat = Some vM
           /\ pure_2d shift_gen vN vM tt (world st1)
              = (Ok ((outN, outM), (vN', vM')), w')
           /\ coerce (dtype_or_default None) (len (PyList (ints [10]))) outN
              = Ok rN
           /\ coerce (dtype_or_default None) (len (PyList (ints [0]))) outM
              = Ok rM
           /\ run_sim_2d_until no_garbage (PyList (ints [10])) (PyList (ints [0]))
                (pure_2d shift_gen) 3 None tt (Z.of_nat 2 + 1) (start tt)
              = (Ok (<[2%nat := rN]> (<[(2 - 1)%nat := write_through vN vN']> N),
                     <[2%nat := rM]> (<[(2 - 1)%nat := write_through vM vM']> M_)),
                 after st1 w' [Call; Store BufN 2; Store BufM 2])
           /\ (no_inplace_2d (W:=unit) (pure_2d shift_gen) ->
               [ints [10]; ints [9]; ints [8]] !! (2 - 1)%nat = Some vN
               /\ [ints [0]; ints [1]; ints [2]] !! (2 - 1)%nat = Some vM
               /\ [ints [10]; ints [9]; ints [8]] !! 2%nat = Some rN
               /\ [ints [0]; ints [1]; ints [2]] !! 2%nat = Some rM)).
Proof.
  split.
  - apply (proj1 (run_sim_2d_lockstep no_garbage (PyList (ints [10; 20]))
                    (PyList (ints [0])) (pure_2d shift_gen) 4 None tt (start tt))).
    unfold len. simpl. lia.
  - destruct (proj2 (run_sim_2d_lockstep no_garbage (PyList (ints [10]))
                       (PyList (ints [0])) (pure_2d shift_gen) 3 None tt (start tt))
                eq_refl
                [ints [10]; ints [9]; ints [8]] [ints [0]; ints [1]; ints [2]]
                {| world := tt;
                   trace := [Alloc BufN; Store BufN 0; Alloc BufM; Store BufM 0;
                             Call; Store BufN 1; Store BufM 1;
                             Call; Store BufN 2; Store BufM 2] |}
                eq_refl)
      as (H1 & H2 & _ & _ & H3).
    split; [exact H1 |]. split; [exact H2 |].
    apply (H3 2%nat). simpl. lia.
Defined.

(** * Generation 0 and the recurrence *)

Lemma run_sim_entry0 {W K} garbage N0 (gen_fn : gen_fn_1d W K)
      ngens dtype kwargs (st : state W) traj st' :
  no_inplace_1d gen_fn ->
  run_sim garbage N0 gen_fn ngens dtype kwargs st = (Ok traj, st') ->
  exists r0,
    cast_all (dtype_or_default dtype) N0 = Ok r0 /\ traj !! 0%nat = Some r0.
Proof.
  intros Hpure H.
  apply run_sim_ok in H as (_ & r0 & N1 & Hc & _ & H0 & Hloop).
  exists r0. split; [exact Hc |].
  rewrite (loop_1d_frame_no_inplace _ _ _ _ _ _ _ _ _ Hpure Hloop); [exact H0 |].
  rewrite elem_of_seq. lia.
Qed.

Lemma run_sim_2d_entry0 {W K} garbage N0 M0 (gen_fn : gen_fn_2d W K)
      ngens dtype kwargs (st : state W) TN TM st' :
  no_inplace_2d gen_fn ->
  run_sim_2d garbage N0 M0 gen_fn ngens dtype kwargs st = (Ok (TN, TM), st') ->
  exists rN rM,
    cast_all (dtype_or_default dtype) N0 = Ok rN
    /\ cast_all (dtype_or_default dtype) M0 = Ok rM
    /\ TN !! 0%nat = Some rN /\ TM !! 0%nat = Some rM.
Proof.
  intros Hpure H.
  apply run_sim_2d_ok in H
    as (_ & _ & rN & rM & N1 & M1 & HcN & HcM & _ & _ & HN0 & HM0 & Hloop).
  exists rN, rM. split; [exact HcN |]. split; [exact HcM |].
  assert (H0 : 0%nat ∉ seq 1 (Z.to_nat (ngens - 1))) by (rewrite elem_of_seq; lia).
  destruct (loop_2d_frame_no_inplace _ _ _ _ (N1, M1) _ (TN, TM) _ _ Hpure Hloop H0)
    as [EN EM].
  simpl in EN, EM. rewrite EN, EM. auto.
Qed.

Lemma run_sim_recurrence {W K} garbage N0 (gen_fn : gen_fn_1d W K)
      ngens dtype kwargs (st : state W) traj st' :
  no_inplace_1d gen_fn ->
  run_sim garbage N0 gen_fn ngens dtype kwargs st = (Ok traj, st') ->
  forall t : nat, 1 <= Z.of_nat t <= ngens - 1 ->
    exists prev out w w' r,
      traj !! (t - 1)%nat = Some prev
      /\ gen_fn prev kwargs w = (Ok (out, prev), w')
      /\ coerce (dtype_or_default dtype) (len N0) out = Ok r
      /\ traj !! t = Some r.
Proof.
  intros Hpure H t Ht.
  apply run_sim_ok in H as (_ & r0 & N1 & _ & Hshape & _ & Hloop).
  eapply (loop_1d_recurrence _ _ _ _ _ _ 1); try eassumption; lia.
Qed.

Lemma run_sim_2d_recurrence {W K} garbage N0 M0 (gen_fn : gen_fn_2d W K)
      ngens dtype kwargs (st : state W) TN TM st' :
  no_inplace_2d gen_fn ->
  run_sim_2d garbage N0 M0 gen_fn ngens dtype kwargs st = (Ok (TN, TM), st') ->
  forall t : nat, 1 <= Z.of_nat t <= ngens - 1 ->
    exists prevN prevM outN outM w w' rN rM,
      TN !! (t - 1)%nat = Some prevN
      /\ TM !! (t - 1)%nat = Some prevM
      /\ gen_fn prevN prevM kwargs w = (Ok ((outN, outM), (prevN, prevM)), w')
      /\ coerce (dtype_or_default dtype) (len N0) outN = Ok rN
      /\ coerce (dtype_or_default dtype) (len M0) outM = Ok rM
      /\ TN !! t = Some rN
      /\ TM !! t = Some rM.
Proof.
  intros Hpure H t Ht.
  apply run_sim_2d_ok in H
    as (_ & _ & rN & rM & N1 & M1 & _ & _ & HshN & HshM & _ & _ & Hloop).
  eapply (loop_2d_recurrence _ _ _ _ _ _ _ 1 (N1, M1) _ (TN, TM));
    try eassumption; lia.
Qed.

Lemma run_sim_trace {W K} garbage N0 (gen_fn : gen_fn_1d W K)
      ngens dtype kwargs (st : state W) traj st' :
  run_sim garbage N0 gen_fn ngens dtype kwargs st = (Ok traj, st') ->
  trace st'
  = trace st ++ [Alloc BufN; Store BufN 0]
      ++ loop_trace_1d (seq 1 (Z.to_nat (ngens - 1))).
Proof.
  intros H.
  apply run_sim_ok in H as (_ & r0 & N1 & _ & _ & _ & Hloop).
  apply loop_1d_trace in Hloop. rewrite Hloop. simpl.
  rewrite <- app_assoc. reflexivity.
Qed.

(** C1, as the code has it: when a driver returns, and the transition
    function has not updated its arguments in place, the trajectory has
    exactly [ngens] entries and entry 0 is the initial vector converted cell
    by cell to the dtype of the buffer; it is the initial vector itself when
    the dtype stores the values of that vector as they are.  The same holds
    of each of the two trajectories of [run_sim_2d]. *)
Theorem trajectory_entry0 {W K} garbage (N0 M0 : value)
        (gen_fn : gen_fn_1d W K) (gen_fn2 : gen_fn_2d W K)
        ngens dtype kwargs (st : state W) :
  (no_inplace_1d gen_fn ->
   forall traj st',
     run_sim garbage N0 gen_fn ngens dtype kwargs st = (Ok traj, st') ->
     Z.of_nat (length traj) = ngens
     /\ (exists r0,
            cast_all (dtype_or_default dtype) N0 = Ok r0
            /\ traj !! 0%nat = Some r0)
     /\ (of_dtype (dtype_or_default dtype) N0 -> traj !! 0%nat = Some (cells N0)))
  /\ (no_inplace_2d gen_fn2 ->
      forall TN TM st',
        run_sim_2d garbage N0 M0 gen_fn2 ngens dtype kwargs st = (Ok (TN, TM), st') ->
        Z.of_nat (length TN) = ngens
        /\ Z.of_nat (length TM) = ngens
        /\ (exists rN rM,
               cast_all (dtype_or_default dtype) N0 = Ok rN
               /\ cast_all (dtype_or_default dtype) M0 = Ok rM
               /\ TN !! 0%nat = Some rN /\ TM !! 0%nat = Some rM)
        /\ (of_dtype (dtype_or_default dtype) N0 -> TN !! 0%nat = Some (cells N0))
        /\ (of_dtype (dtype_or_default dtype) M0 -> TM !! 0%nat = Some (cells M0))).
Proof.
  split.
  - intros Hpure traj st' H.
    pose proof (run_sim_shape _ _ _ _ _ _ _ _ _ H) as (Hpos & Hlen & _).
    destruct (run_sim_entry0 _ _ _ _ _ _ _ _ _ Hpure H) as (r0 & Hc & H0).
    split; [apply nat_of_ngens; assumption |].
    split; [eauto |].
    intros Hfix. apply cast_all_fixed in Hfix. congruence.
  - intros Hpure TN TM st' H.
    pose proof (run_sim_2d_shape _ _ _ _ _ _ _ _ _ _ _ H)
      as (_ & Hpos & [HlenN _] & [HlenM _]).
    destruct (run_sim_2d_entry0 _ _ _ _ _ _ _ _ _ _ _ Hpure H)
      as (rN & rM & HcN & HcM & HN0 & HM0).
    split; [apply nat_of_ngens; assumption |].
    split; [apply nat_of_ngens; assumption |].
    split; [eauto 10 |].
    split; intros Hfix; apply cast_all_fixed in Hfix; congruence.
Qed.

Lemma trajectory_entry0_witness :
  (Z.of_nat (length [ints [0]; ints [1]; ints [2]]) = 3
   /\ (exists r0,
          cast_all (dtype_or_default None) (PyList [half]) = Ok r0
          /\ [ints [0]; ints [1]; ints [2]] !! 0%nat = Some r0)
   /\ (of_dtype (dtype_or_default None) (PyList [half]) ->
       [ints [0]; ints [1]; ints [2]] !! 0%nat = Some (cells (PyList [half]))))
  /\ (Z.of_nat (length [ints [10]; ints [9]]) = 2
      /\ Z.of_nat (length [ints [0]; ints [1]]) = 2
      /\ (exists rN rM,
             cast_all (dtype_or_default None) (PyList (ints [10])) = Ok rN
             /\ cast_all (dtype_or_default None) (NdArray (ints [0])) = Ok rM
             /\ [ints [10]; ints [9]] !! 0%nat = Some rN
             /\ [ints [0]; ints [1]] !! 0%nat = Some rM)
      /\ (of_dtype (dtype_or_default None) (PyList (ints [10])) ->
          [ints [10]; ints [9]] !! 0%nat = Some (cells (PyList (ints [10]))))
      /\ (of_dtype (dtype_or_default None) (NdArray (ints [0])) ->
          [ints [0]; ints [1]] !! 0%nat = Some (cells (NdArray (ints [0]))))).
Proof.
  split.
  - eapply (proj1 (trajectory_entry0 no_garbage (PyList [half]) (PyList (ints [0]))
                     (pure_1d succ_gen) (pure_2d shift_gen) 3 None tt (start tt))).
    + apply pure_1d_no_inplace.
    + reflexivity.
  - eapply (proj2 (trajectory_entry0 no_garbage (PyList (ints [10]))
                     (NdArray (ints [0]))
                     (pure_1d succ_gen) (pure_2d shift_gen) 2 None tt (start tt))).
    + apply pure_2d_no_inplace.
    + reflexivity.
Defined.

(** [run_sim([0.5], f, 1)] is [[[0]]], for the list [[0.5]] and for the
    array. *)
Example run_sim_half :
  (run_sim no_garbage (PyList [half]) (pure_1d succ_gen) 1 None tt (start tt)).1
  = Ok [ints [0]]
  /\ (run_sim no_garbage (NdArray [half]) (pure_1d succ_gen) 1 None tt
        (start tt)).1
     = Ok [ints [0]].
Proof. split; reflexivity. Qed.

(** C1 as stated fails: with the default dtype the initial vector [[0.5]]
    is stored as [[0]]. *)
Lemma stated_entry0_fails :
  ~ stated_entry0 no_garbage (PyList [half]) (pure_1d succ_gen) 1 None tt
      (start tt).
Proof.
  intros H.
  destruct (H [ints [0]] _ eq_refl) as [_ Habs]. discriminate Habs.
Qed.

(** C2, as the code has it: for a transition function [f] without effects,
    every generation [t] from 1 to [ngens - 1] of the returned trajectory is
    what the assignment [N[t, :] = f(N[t-1, :], **kwargs)] stores: the value
    of [f] at generation [t - 1] of that same trajectory, converted to the
    dtype and broadcast to the length of the initial vector.  It is that
    value itself when it has the length of the initial vector and the dtype
    stores its cells as they are.  The generations are computed in
    increasing order, one call before each store. *)
Theorem trajectory_recurrence {W K} garbage (N0 : value) (f : row -> K -> value)
        ngens dtype kwargs (st : state W) traj st' :
  run_sim garbage N0 (pure_1d f) ngens dtype kwargs st = (Ok traj, st') ->
  (forall t : nat, 1 <= Z.of_nat t <= ngens - 1 ->
     exists prev r,
       traj !! (t - 1)%nat = Some prev
       /\ coerce (dtype_or_default dtype) (len N0) (f prev kwargs) = Ok r
       /\ traj !! t = Some r
       /\ (len (f prev kwargs) = len N0 ->
           of_dtype (dtype_or_default dtype) (f prev kwargs) ->
           traj !! t = Some (cells (f prev kwargs))))
  /\ trace st'
     = trace st ++ [Alloc BufN; Store BufN 0]
         ++ loop_trace_1d (seq 1 (Z.to_nat (ngens - 1))).
Proof.
  intros H. split; [| eapply run_sim_trace, H].
  intros t Ht.
  destruct (run_sim_recurrence _ _ _ _ _ _ _ _ _ (pure_1d_no_inplace f) H t Ht)
    as (prev & out & w & w' & r & Hprev & Hg & Hc & Hr).
  injection Hg as <- _.
  exists prev, r. repeat split; try assumption.
  intros Hlen Hfix. rewrite <- Hlen, (coerce_fixed _ _ Hfix) in Hc. congruence.
Qed.

Lemma trajectory_recurrence_witness :
  (forall t : nat, 1 <= Z.of_nat t <= 3 - 1 ->
     exists prev r,
       [ints [10]; ints [11]; ints [12]] !! (t - 1)%nat = Some prev
       /\ coerce (dtype_or_default None) (len (PyList (ints [10])))
            (succ_gen prev tt) = Ok r
       /\ [ints [10]; ints [11]; ints [12]] !! t = Some r
       /\ (len (succ_gen prev tt) = len (PyList (ints [10])) ->
           of_dtype (dtype_or_default None) (succ_gen prev tt) ->
           [ints [10]; ints [11]; ints [12]] !! t
           = Some (cells (succ_gen prev tt))))
  /\ [Alloc BufN; Store BufN 0; Call; Store BufN 1; Call; Store BufN 2]
     = [] ++ [Alloc BufN; Store BufN 0]
          ++ loop_trace_1d (seq 1 (Z.to_nat (3 - 1))).
Proof.
  apply (trajectory_recurrence no_garbage (PyList (ints [10])) succ_gen 3 None tt
           (start tt)
           [ints [10]; ints [11]; ints [12]]
           {| world := tt;
              trace := [Alloc BufN; Store BufN 0; Call; Store BufN 1;
                        Call; Store BufN 2] |}).
  reflexivity.
Defined.

(** With [f(N) = N + 0.5], [run_sim([0], f, 2)] is [[[0], [0]]], while
    [f([0])] is [[0.5]]. *)
Example run_sim_plus_half :
  (run_sim no_garbage (PyList (ints [0]))
     (pure_1d (fun N (_ : unit) => NdArray (map (fun x => np_add x half) N)))
     2 None tt (start tt)).1
  = Ok [ints [0]; ints [0]]
  /\ map (fun x => np_add x half) (ints [0]) = [half].
Proof. split; reflexivity. Qed.

(** C2 as stated fails on that run: generation 1 is not [f] of generation
    0. *)
Lemma stated_recurrence_fails :
  ~ stated_recurrence no_garbage (PyList (ints [0]))
      (fun N (_ : unit) => NdArray (map (fun x => np_add x half) N)) 2 None tt
      (start tt).
Proof.
  intros H.
  destruct (H [ints [0]; ints [0]] _ eq_refl 1%nat ltac:(lia)) as (prev & Hprev & Habs).
  injection Hprev as <-. vm_compute in Habs. discriminate Habs.
Qed.

(** * Failures of [run_sim] *)

Lemma outcome_cases {A} (r : outcome A) : (exists x, r = Ok x) \/ raises r.
Proof. destruct r as [x | e]; [left | right]; eexists; reflexivity. Qed.

(** C4, as the code has it: [run_sim] raises when fewer than one generation
    is requested: a negative count is refused by [np.empty], and with a
    count of 0 there is no row to store generation 0 in.  It raises at the
    first turn whose call returns a vector whose length is neither the
    length [L] of the initial vector nor 1, whatever the transition function
    has done in the turns before, and so whenever the transition function
    only returns such vectors and two generations or more are requested.  A
    vector of length 1 does not make it raise: its cell is converted and
    stored in every cell of the generation, and the run goes on.  When
    [run_sim] returns with a transition function [f] without effects, the
    value of [f] at each generation but the last has length [L] or 1. *)
Theorem run_sim_failures {W K} garbage (N0 : value) (gen_fn : gen_fn_1d W K)
        (f : row -> K -> value) ngens dtype kwargs (st : state W) :
  (ngens < 0 ->
   run_sim garbage N0 gen_fn ngens dtype kwargs st = (Raise ValueError, st))
  /\ (ngens = 0 ->
      run_sim garbage N0 gen_fn ngens dtype kwargs st
      = (Raise IndexError, after st (world st) [Alloc BufN]))
  /\ (forall (t : nat) N st1 v out v' w',
         1 <= Z.of_nat t <= ngens - 1 ->
         run_sim_until garbage N0 gen_fn ngens dtype kwargs (Z.of_nat t) st
         = (Ok N, st1) ->
         N !! (t - 1)%nat = Some v ->
         gen_fn v kwargs (world st1) = (Ok (out, v'), w') ->
         (len out <> len N0 -> len out <> 1%nat ->
          exists e,
            run_sim garbage N0 gen_fn ngens dtype kwargs st
            = (Raise e, after st1 w' [Call]))
         /\ (forall x y,
                cells out = [x] ->
                convert (dtype_or_default dtype) out x = Ok y ->
                run_sim_until garbage N0 gen_fn ngens dtype kwargs
                  (Z.of_nat t + 1) st
                = (Ok (<[t := replicate (len N0) y]>
                         (<[(t - 1)%nat := write_through v v']> N)),
                   after st1 w' [Call; Store BufN t])))
  /\ (2 <= ngens ->
      (forall v w out v' w',
          gen_fn v kwargs w = (Ok (out, v'), w') ->
          len out <> len N0 /\ len out <> 1%nat) ->
      raises (run_sim garbage N0 gen_fn ngens dtype kwargs st).1)
  /\ (forall traj st',
         run_sim garbage N0 (pure_1d f) ngens dtype kwargs st = (Ok traj, st') ->
         forall t : nat, 1 <= Z.of_nat t <= ngens - 1 ->
           exists prev,
             traj !! (t - 1)%nat = Some prev
             /\ (len (f prev kwargs) = len N0
                 \/ len (f prev kwargs) = 1%nat)).
Proof.
  split; [| split; [| split; [| split]]].
  - intros Hn. unfold run_sim. apply bind_raise_l, np_empty_negative, Hn.
  - intros ->. reflexivity.
  - intros t N st1 v out v' w' Ht Hun Hv Hg.
    pose proof (run_sim_until_shape _ _ _ _ _ _ _ _ _ _ Hun) as Hshape.
    assert (Hshape' : shape (Z.to_nat ngens) (len N0)
                        (<[(t - 1)%nat := write_through v v']> N)).
    { apply shape_insert; [exact Hshape |].
      rewrite write_through_length. eapply shape_lookup; eassumption. }
    destruct (lookup_lt_is_Some_2 (<[(t - 1)%nat := write_through v v']> N) t)
      as [old Hold].
    { destruct Hshape' as [-> _]. lia. }
    pose proof (shape_lookup _ _ _ _ _ Hshape' Hold) as HL.
    pose proof (run_sim_step_eq gen_fn (dtype_or_default dtype) kwargs t N st1
                  v out v' w' old Hv Hg Hold) as Hstep.
    rewrite HL in Hstep.
    split.
    + intros HnL Hn1.
      destruct (coerce_mismatch (dtype_or_default dtype) _ _ HnL Hn1) as [e He].
      rewrite He in Hstep. exists e.
      eapply run_sim_raises_at; eassumption.
    + intros x y Hx Hy.
      rewrite (coerce_one _ _ _ _ _ Hx Hy) in Hstep.
      rewrite run_sim_until_succ by lia.
      unfold bind. rewrite Hun. exact Hstep.
  - intros Hn Hbad.
    destruct (run_sim garbage N0 gen_fn ngens dtype kwargs st) as [r st'] eqn:H.
    destruct (outcome_cases r) as [[traj ->] | Hr]; [| exact Hr].
    exfalso.
    destruct (run_sim_turn garbage _ _ _ _ _ _ _ _ H 1%nat ltac:(lia))
      as (N & st1 & v & out & v' & w' & r & _ & _ & Hg & Hc & _).
    destruct (Hbad _ _ _ _ _ Hg) as [HnL Hn1].
    destruct (coerce_ok_length _ _ _ _ Hc); contradiction.
  - intros traj st' H t Ht.
    destruct (run_sim_recurrence _ _ _ _ _ _ _ _ _ (pure_1d_no_inplace f) H t Ht)
      as (prev & out & w & w' & r & Hprev & Hg & Hc & Hr).
    injection Hg as <- _.
    exists prev. split; [exact Hprev |]. eapply coerce_ok_length, Hc.
Qed.

Lemma run_sim_failures_witness :
  run_sim no_garbage (PyList (ints [1; 2]))
    (pure_1d (fun _ (_ : unit) => NdArray (ints [7; 8; 9]))) (-1) None tt (start tt)
  = (Raise ValueError, start tt)
  /\ run_sim no_garbage (PyList (ints [1; 2]))
       (pure_1d (fun _ (_ : unit) => NdArray (ints [7; 8; 9]))) 0 None tt (start tt)
     = (Raise IndexError, after (start tt) tt [Alloc BufN])
  /\ (exists e,
         run_sim no_garbage (PyList (ints [1; 2]))
           (pure_1d (fun _ (_ : unit) => NdArray (ints [7; 8; 9]))) 3 None tt
           (start tt)
         = (Raise e, after (after (start tt) tt [Alloc BufN; Store BufN 0]) tt [Call]))
  /\ run_sim_until no_garbage (PyList (ints [1; 2]))
       (pure_1d (fun _ (_ : unit) => PyList (ints [7]))) 3 None tt (Z.of_nat 1 + 1)
       (start tt)
     = (Ok (<[1%nat := replicate (len (PyList (ints [1; 2]))) (PyInt 7)]>
              (<[(1 - 1)%nat := write_through (ints [1; 2]) (ints [1; 2])]>
                 [ints [1; 2]; ints [0; 0]; ints [0; 0]])),
        after (after (start tt) tt [Alloc BufN; Store BufN 0]) tt
          [Call; Store BufN 1])
  /\ raises (run_sim no_garbage (PyList (ints [1; 2]))
               (pure_1d (fun _ (_ : unit) => NdArray (ints [7; 8; 9])))
               2 None tt (start tt)).1
  /\ (forall t : nat, 1 <= Z.of_nat t <= 2 - 1 ->
        exists prev,
          [ints [1; 2]; ints [7; 7]] !! (t - 1)%nat = Some prev
          /\ (len (PyList (ints [7])) = len (PyList (ints [1; 2]))
              \/ len (PyList (ints [7])) = 1%nat)).
Proof.
  split; [| split; [| split; [| split; [| split]]]].
  - apply (proj1 (run_sim_failures no_garbage (PyList (ints [1; 2]))
                    (pure_1d (fun _ (_ : unit) => NdArray (ints [7; 8; 9])))
                    (fun _ _ => PyList (ints [7])) (-1) None tt (start tt))).
    lia.
  - apply (proj1 (proj2 (run_sim_failures no_garbage (PyList (ints [1; 2]))
                           (pure_1d (fun _ (_ : unit) => NdArray (ints [7; 8; 9])))
                           (fun _ _ => PyList (ints [7])) 0 None tt (start tt)))).
    reflexivity.
  - apply (proj1 (proj1 (proj2 (proj2
             (run_sim_failures no_garbage (PyList (ints [1; 2]))
                (pure_1d (fun _ (_ : unit) => NdArray (ints [7; 8; 9])))
                (fun _ _ => PyList (ints [7])) 3 None tt (start tt))))
             1%nat [ints [1; 2]; ints [0; 0]; ints [0; 0]]
             (after (start tt) tt [Alloc BufN; Store BufN 0])
             (ints [1; 2]) (NdArray (ints [7; 8; 9])) (ints [1; 2]) tt
             ltac:(lia) eq_refl eq_refl eq_refl));
      unfold len; simpl; lia.
  - apply (proj2 (proj1 (proj2 (proj2
             (run_sim_failures no_garbage (PyList (ints [1; 2]))
                (pure_1d (fun _ (_ : unit) => PyList (ints [7])))
                (fun _ _ => PyList (ints [7])) 3 None tt (start tt))))
             1%nat [ints [1; 2]; ints [0; 0]; ints [0; 0]]
             (after (start tt) tt [Alloc BufN; Store BufN 0])
             (ints [1; 2]) (PyList (ints [7])) (ints [1; 2]) tt
             ltac:(lia) eq_refl eq_refl eq_refl)
             (PyInt 7) (PyInt 7)); reflexivity.
  - apply (proj1 (proj2 (proj2 (proj2
             (run_sim_failures no_garbage (PyList (ints [1; 2]))
                (pure_1d (fun _ (_ : unit) => NdArray (ints [7; 8; 9])))
                (fun _ _ => PyList (ints [7])) 2 None tt (start tt)))))).
    + lia.
    + intros v w out v' w' [= <- _ _]. unfold len. simpl. lia.
  - apply (proj2 (proj2 (proj2 (proj2
             (run_sim_failures no_garbage (PyList (ints [1; 2]))
                (pure_1d (fun _ (_ : unit) => NdArray (ints [7; 8; 9])))
                (fun _ _ => PyList (ints [7])) 2 None tt (start tt)))))
             [ints [1; 2]; ints [7; 7]]
             {| world := tt;
                trace := [Alloc BufN; Store BufN 0; Call; Store BufN 1] |}).
    reflexivity.
Defined.

(** [run_sim([1, 2], lambda N: [7], 2)] is [[[1, 2], [7, 7]]]. *)
Example run_sim_broadcast :
  (run_sim no_garbage (PyList (ints [1; 2]))
     (pure_1d (fun _ (_ : unit) => PyList (ints [7]))) 2 None tt (start tt)).1
  = Ok [ints [1; 2]; ints [7; 7]].
Proof. reflexivity. Qed.

(** C4 as stated fails: a transition function that returns [[7]] for an
    initial vector of two cells does not make [run_sim] raise; the 7 is
    stored in both cells. *)
Lemma stated_length_failure_fails :
  ~ stated_length_failure no_garbage (PyList (ints [1; 2]))
      (fun _ (_ : unit) => PyList (ints [7])) 2 None tt (start tt).
Proof.
  intros H.
  destruct H as [e He]; [lia | unfold len; simpl; lia |].
  vm_compute in He. discriminate He.
Qed.

(** * A single generation *)

(** What ['int'] makes of an array of int64 or float64 cells. *)
Lemma cast_all_int_array c :
  Forall machine_number c -> cast_all dt_int (NdArray c) = Ok (map int_cast c).
Proof.
  unfold cast_all. simpl.
  induction 1 as [| x c Hx _ IH]; simpl; [reflexivity |].
  rewrite IH. destruct x as [z | y]; simpl in *; [rewrite Hx |]; reflexivity.
Qed.

(** C5, as the code has it: asked for one generation, a driver allocates,
    stores generation 0 and returns; it never calls the transition function
    and leaves the world alone.  It returns when every value of the initial
    vector converts to the dtype of the buffer, as every cell of an int64 or
    float64 array does under the default dtype, and raises there and then
    when one does not.  The trajectory it returns holds one entry, the
    initial vector converted to the dtype of the buffer, which is the
    initial vector itself when the dtype stores its values as they are. *)
Theorem single_generation {W K} garbage (N0 M0 : value)
        (gen_fn : gen_fn_1d W K) (gen_fn2 : gen_fn_2d W K)
        dtype kwargs (st : state W) :
  run_sim garbage N0 gen_fn 1 dtype kwargs st
  = match cast_all (dtype_or_default dtype) N0 with
    | Ok r0 => (Ok [r0], after st (world st) [Alloc BufN; Store BufN 0])
    | Raise e => (Raise e, after st (world st) [Alloc BufN])
    end
  /\ (of_dtype (dtype_or_default dtype) N0 ->
      run_sim garbage N0 gen_fn 1 dtype kwargs st
      = (Ok [cells N0], after st (world st) [Alloc BufN; Store BufN 0]))
  /\ (forall c,
         Forall machine_number c ->
         run_sim garbage (NdArray c) gen_fn 1 None kwargs st
         = (Ok [map int_cast c], after st (world st) [Alloc BufN; Store BufN 0]))
  /\ (len N0 = len M0 ->
      run_sim_2d garbage N0 M0 gen_fn2 1 dtype kwargs st
      = match cast_all (dtype_or_default dtype) N0 with
        | Raise e => (Raise e, after st (world st) [Alloc BufN])
        | Ok rN =>
            match cast_all (dtype_or_default dtype) M0 with
            | Raise e =>
                (Raise e, after st (world st) [Alloc BufN; Store BufN 0; Alloc BufM])
            | Ok rM =>
                (Ok ([rN], [rM]),
                 after st (world st)
                   [Alloc BufN; Store BufN 0; Alloc BufM; Store BufM 0])
            end
        end)
  /\ (len N0 = len M0 ->
      of_dtype (dtype_or_default dtype) N0 ->
      of_dtype (dtype_or_default dtype) M0 ->
      run_sim_2d garbage N0 M0 gen_fn2 1 dtype kwargs st
      = (Ok ([cells N0], [cells M0]),
         after st (world st) [Alloc BufN; Store BufN 0; Alloc BufM; Store BufM 0])).
Proof.
  assert (H1 : forall N0 dtype,
             run_sim garbage N0 gen_fn 1 dtype kwargs st
             = match cast_all (dtype_or_default dtype) N0 with
               | Ok r0 => (Ok [r0], after st (world st) [Alloc BufN; Store BufN 0])
               | Raise e => (Raise e, after st (world st) [Alloc BufN])
               end).
  { intros N dt. unfold run_sim. rewrite <- bind_assoc. unfold bind at 1.
    rewrite init_one.
    destruct (cast_all (dtype_or_default dt) N); reflexivity. }
  assert (H2 : len N0 = len M0 ->
               run_sim_2d garbage N0 M0 gen_fn2 1 dtype kwargs st
               = match cast_all (dtype_or_default dtype) N0 with
                 | Raise e => (Raise e, after st (world st) [Alloc BufN])
                 | Ok rN =>
                     match cast_all (dtype_or_default dtype) M0 with
                     | Raise e =>
                         (Raise e,
                          after st (world st) [Alloc BufN; Store BufN 0; Alloc BufM])
                     | Ok rM =>
                         (Ok ([rN], [rM]),
                          after st (world st)
                            [Alloc BufN; Store BufN 0; Alloc BufM; Store BufM 0])
                     end
                 end).
  { intros Hlen. unfold run_sim_2d.
    destruct (Nat.eqb_spec (len N0) (len M0)); [| contradiction]. simpl.
    rewrite <- bind_assoc. unfold bind at 1. rewrite init_one.
    destruct (cast_all (dtype_or_default dtype) N0) as [rN |]; [| reflexivity].
    rewrite <- bind_assoc. unfold bind at 1. rewrite init_one.
    destruct (cast_all (dtype_or_default dtype) M0) as [rM |];
      rewrite after_after; reflexivity. }
  split; [apply H1 |]. split; [| split; [| split; [exact H2 |]]].
  - intros HN. rewrite H1, (cast_all_fixed _ _ HN). reflexivity.
  - intros c Hc. rewrite H1. simpl dtype_or_default.
    rewrite (cast_all_int_array _ Hc). reflexivity.
  - intros Hlen HN HM.
    rewrite (H2 Hlen), (cast_all_fixed _ _ HN), (cast_all_fixed _ _ HM).
    reflexivity.
Qed.

Lemma single_generation_witness :
  run_sim no_garbage (PyList [half]) (pure_1d succ_gen) 1 None tt (start tt)
  = (Ok [ints [0]], after (start tt) tt [Alloc BufN; Store BufN 0])
  /\ run_sim no_garbage (PyList (ints [10])) (pure_1d succ_gen) 1 None tt (start tt)
     = (Ok [cells (PyList (ints [10]))],
        after (start tt) tt [Alloc BufN; Store BufN 0])
  /\ run_sim no_garbage (NdArray [half; nan]) (pure_1d succ_gen) 1 None tt (start tt)
     = (Ok [map int_cast [half; nan]],
        after (start tt) tt [Alloc BufN; Store BufN 0])
  /\ run_sim_2d no_garbage (PyList (ints [10])) (PyList [half]) (pure_2d shift_gen)
       1 None tt (start tt)
     = (Ok ([ints [10]], [ints [0]]),
        after (start tt) tt [Alloc BufN; Store BufN 0; Alloc BufM; Store BufM 0])
  /\ run_sim_2d no_garbage (PyList (ints [10])) (PyList (ints [0]))
       (pure_2d shift_gen) 1 None tt (start tt)
     = (Ok ([cells (PyList (ints [10]))], [cells (PyList (ints [0]))]),
        after (start tt) tt [Alloc BufN; Store BufN 0; Alloc BufM; Store BufM 0]).
Proof.
  split; [| split; [| split; [| split]]].
  - exact (proj1 (single_generation no_garbage (PyList [half]) (PyList [half])
                    (pure_1d succ_gen) (pure_2d shift_gen) None tt (start tt))).
  - apply (proj1 (proj2 (single_generation no_garbage (PyList (ints [10]))
                           (PyList (ints [0]))
                           (pure_1d succ_gen) (pure_2d shift_gen) None tt (start tt)))).
    repeat constructor.
  - apply (proj1 (proj2 (proj2 (single_generation no_garbage (PyList (ints [10]))
                                  (PyList (ints [0]))
                                  (pure_1d succ_gen) (pure_2d shift_gen) None tt
                                  (start tt))))).
    repeat constructor.
  - apply (proj1 (proj2 (proj2 (proj2
             (single_generation no_garbage (PyList (ints [10])) (PyList [half])
                (pure_1d succ_gen) (pure_2d shift_gen) None tt (start tt)))))).
    reflexivity.
  - apply (proj2 (proj2 (proj2 (proj2
             (single_generation no_garbage (PyList (ints [10])) (PyList (ints [0]))
                (pure_1d succ_gen) (pure_2d shift_gen) None tt (start tt)))))).
    + reflexivity.
    + repeat constructor.
    + repeat constructor.
Defined.

(** One generation from the array [[0.5, nan]] is [[[0, int64_min]]]; from
    the list [[nan]] numpy raises a [ValueError]. *)
Example run_sim_nan :
  (run_sim no_garbage (NdArray [half; nan]) (pure_1d succ_gen) 1 None tt
     (start tt)).1
  = Ok [ints [0; int64_min]]
  /\ (run_sim no_garbage (PyList [nan]) (pure_1d succ_gen) 1 None tt (start tt)).1
     = Raise ValueError.
Proof. split; reflexivity. Qed.

(** C5 as stated fails in what the trajectory holds: with the default dtype
    one generation from [[0.5]] is [[[0]]], not [[[0.5]]]. *)
Lemma stated_single_generation_fails :
  ~ stated_single_generation no_garbage (PyList [half]) (pure_1d succ_gen) None tt
      (start tt).
Proof.
  intros (st' & H & _). vm_compute in H. discriminate H.
Qed.

(** * Conversion to the default dtype *)

(** [trunc_mag] is the integer part of [m * 2^e]. *)
Lemma trunc_mag_exact m e : 0 <= e -> trunc_mag m e = Zpos m * 2 ^ e.
Proof. intros He. unfold trunc_mag. apply Z.shiftl_mul_pow2, He. Qed.

Lemma trunc_mag_floor m e :
  e < 0 ->
  trunc_mag m e * 2 ^ (- e) <= Zpos m < (trunc_mag m e + 1) * 2 ^ (- e).
Proof.
  intros He. unfold trunc_mag.
  rewrite Z.shiftl_div_pow2 by lia.
  assert (Hp : 0 < 2 ^ (- e)) by (apply Z.pow_pos_nonneg; lia).
  pose proof (Z.mul_div_le (Zpos m) _ Hp).
  pose proof (Z.mul_succ_div_gt (Zpos m) _ Hp).
  lia.
Qed.

Lemma trunc_mag_le m e : e < 0 -> 0 <= trunc_mag m e <= Zpos m.
Proof.
  intros He. pose proof (trunc_mag_floor m e He) as [Hlo _].
  assert (Hp : 0 < 2 ^ (- e)) by (apply Z.pow_pos_nonneg; lia).
  unfold trunc_mag in *. rewrite Z.shiftl_div_pow2 in * by lia.
  split; [apply Z.div_pos; lia |].
  apply Z.div_le_upper_bound; [exact Hp |]. nia.
Qed.

(** What ['int'] stores out of a list is the truncation of what it was
    given, and an int64. *)
Lemma pack_int_trunc x y :
  pack_int x = Ok y ->
  fits_int64 x = true /\ y = np_trunc x /\ y = int_cast x.
Proof.
  unfold fits_int64, int_cast, float_to_int64.
  destruct x as [z | [s | s | | s m e]]; simpl; try discriminate.
  - destruct (in_int64 z) eqn:Hz; [| discriminate].
    intros [= <-]. auto.
  - intros [= <-]. auto.
  - destruct (in_int64 _) eqn:Hz; [| discriminate].
    intros [= <-]. auto.
Qed.

(** Out of a list ['int'] accepts nothing else. *)
Lemma pack_int_rejects x : fits_int64 x = false -> raises (pack_int x).
Proof.
  unfold fits_int64, raises.
  destruct x as [z | [s | s | | s m e]]; simpl; try (intros _; eauto; fail).
  - intros ->. eauto.
  - discriminate.
  - intros ->. eauto.
Qed.

Lemma astype_int_cast x y : astype_int x = Ok y -> y = int_cast x.
Proof.
  destruct x as [z | f]; simpl.
  - destruct (in_int64 z); [| discriminate]. intros [= <-]. reflexivity.
  - intros [= <-]. reflexivity.
Qed.

Lemma convert_int_cast v x y : convert dt_int v x = Ok y -> y = int_cast x.
Proof.
  destruct v; simpl; intros H.
  - apply (pack_int_trunc _ _ H).
  - apply astype_int_cast, H.
Qed.

Lemma float_to_int64_range f : in_int64 (float_to_int64 f) = true.
Proof.
  unfold float_to_int64.
  destruct (SFtrunc f) as [z |]; [| reflexivity].
  destruct (in_int64 z) eqn:Hz; [exact Hz | reflexivity].
Qed.

(** Whatever ['int'] stores is an int64. *)
Lemma convert_int_int64 v x y :
  convert dt_int v x = Ok y -> exists z, y = PyInt z /\ in_int64 z = true.
Proof.
  destruct v; simpl.
  - destruct x as [z | [s | s | | s m e]]; simpl; try discriminate.
    + destruct (in_int64 z) eqn:Hz; [| discriminate]. intros [= <-]. eauto.
    + intros [= <-]. eauto.
    + destruct (in_int64 _) eqn:Hz; [| discriminate]. intros [= <-]. eauto.
  - destruct x as [z | f]; simpl.
    + destruct (in_int64 z) eqn:Hz; [| discriminate]. intros [= <-]. eauto.
    + intros [= <-]. eexists. split; [reflexivity | apply float_to_int64_range].
Qed.

(** Where the integer truncation fits, it is what is stored. *)
Lemma int_cast_fits x : fits_int64 x = true -> int_cast x = np_trunc x.
Proof.
  unfold fits_int64, int_cast, float_to_int64.
  destruct x as [z | f]; simpl; [reflexivity |].
  destruct (SFtrunc f) as [z |]; [| discriminate].
  intros ->. reflexivity.
Qed.

(** Where it does not, the cell of an array is stored as [int64_min]. *)
Lemma int_cast_unfit f :
  fits_int64 (PyFloat f) = false -> int_cast (PyFloat f) = PyInt int64_min.
Proof.
  unfold fits_int64, int_cast, float_to_int64. simpl.
  destruct (SFtrunc f) as [z |]; [| reflexivity].
  intros ->. reflexivity.
Qed.

(** The truncation of a number with a fraction is another number. *)
Lemma non_integer_trunc x :
  non_integer x = true -> num_eqb (np_trunc x) x = false /\ np_trunc x <> x.
Proof.
  destruct x as [z | [s | s | | s m e]]; simpl; try discriminate.
  intros H. apply negb_true_iff in H. rewrite H. simpl.
  split; [reflexivity | discriminate].
Qed.

Lemma digits2_pos_bound m : Zpos m < 2 ^ Zpos (digits2_pos m).
Proof.
  induction m as [m IH | m IH |]; simpl digits2_pos.
  - rewrite Pos2Z.inj_succ, Z.pow_succ_r, Pos2Z.inj_xI by lia. lia.
  - rewrite Pos2Z.inj_succ, Z.pow_succ_r, Pos2Z.inj_xO by lia. lia.
  - reflexivity.
Qed.

(** The mantissa of a binary64 float has 53 bits. *)
Lemma binary64_mantissa s m e :
  valid_binary prec64 emax64 (S754_finite s m e) = true -> Zpos m < 2 ^ 53.
Proof.
  simpl. unfold bounded, canonical_mantissa, fexp, emin, prec64, emax64.
  intros H. apply andb_true_iff in H as [H _]. apply Z.eqb_eq in H.
  pose proof (digits2_pos_bound m) as Hm.
  assert (Hd : Zpos (digits2_pos m) <= 53) by lia.
  pose proof (Z.pow_le_mono_r 2 _ _ ltac:(lia) Hd). lia.
Qed.

(** A float with a fraction is small: its integer truncation fits. *)
Lemma non_integer_fits x :
  binary64 x = true -> non_integer x = true -> fits_int64 x = true.
Proof.
  intros Hv Hfrac.
  destruct x as [z | [s | s | | s m e]]; simpl in Hfrac; try discriminate.
  apply (binary64_mantissa s m e) in Hv.
  apply negb_true_iff, orb_false_iff in Hfrac as [He _].
  apply Z.leb_gt in He.
  pose proof (trunc_mag_le m e He) as Hb.
  unfold fits_int64. simpl.
  unfold in_int64, int64_min, int64_max.
  apply andb_true_iff. rewrite !Z.leb_le.
  assert (H53 : 2 ^ 53 < 2 ^ 63) by reflexivity.
  destruct s; simpl; lia.
Qed.

Lemma cast_all_int_cast v w : cast_all dt_int v = Ok w -> w = map int_cast (cells v).
Proof. apply cast_all_map. intros x y. apply convert_int_cast. Qed.

Lemma coerce_int_cast L v w :
  coerce dt_int L v = Ok w -> broadcast L (map int_cast (cells v)) = Ok w.
Proof.
  unfold coerce. destruct (cast_all dt_int v) as [u |] eqn:H; [| discriminate].
  apply cast_all_int_cast in H as ->. auto.
Qed.

Lemma coerce_int_int64 L v w :
  coerce dt_int L v = Ok w ->
  Forall (fun y => exists z, y = PyInt z /\ in_int64 z = true) w.
Proof.
  unfold coerce. destruct (cast_all dt_int v) as [u |] eqn:Hu; [| discriminate].
  assert (Hall : Forall (fun y => exists z, y = PyInt z /\ in_int64 z = true) u).
  { apply cast_all_Forall2 in Hu.
    induction Hu as [| x y c u Hxy _ IH]; constructor; [| exact IH].
    eapply convert_int_int64, Hxy. }
  intros H.
  destruct (broadcast_inv _ _ _ H) as [[_ ->] | (x & -> & ->)]; [exact Hall |].
  apply Forall_replicate. inversion Hall; assumption.
Qed.

(** A list with a number whose truncation does not fit is refused. *)
Lemma coerce_int_list_rejects L l x :
  x ∈ l -> fits_int64 x = false -> raises (coerce dt_int L (PyList l)).
Proof.
  intros Hx Hfit. unfold coerce, cast_all. simpl.
  assert (Hr : raises (cast_cells pack_int l)).
  { induction l as [| a l IH]; [inversion Hx |].
    apply elem_of_cons in Hx as [<- | Hx]; simpl.
    - destruct (pack_int_rejects x Hfit) as [e ->]. eexists. reflexivity.
    - destruct (pack_int a); [| eexists; reflexivity].
      destruct (IH Hx) as [e ->]. eexists. reflexivity. }
  destruct Hr as [e ->]. eexists. reflexivity.
Qed.

Lemma lookup_agree {A} (l : list A) i x y :
  l !! i = Some x -> l !! i = Some y -> x = y.
Proof. congruence. Qed.

(** C9, as the code has it.  The [dtype] parameter of both drivers defaults
    to ['int'], and every generation a driver stores is converted to the
    dtype of the buffer, generation 0 included.  Under the default dtype an
    assignment stores int64 cells: the conversion of the cells supplied,
    broadcast to the length of the row.  A number whose integer truncation
    fits an int64 is stored as that truncation; so is every float with a
    fraction, which is therefore never stored as it is.  A float whose
    truncation does not fit, NaN and the infinities are stored as
    [int64_min] when they come in an array, and are refused when they come
    in a Python list.  This is what generation 0 holds when the loop of a
    driver starts, and what every turn [t] stores as generation [t] of the
    result of its call; with a transition function that does not update its
    arguments in place it is what the returned trajectory holds. *)
Theorem default_dtype_truncates {W K} garbage (N0 M0 : value)
        (gen_fn : gen_fn_1d W K) (gen_fn2 : gen_fn_2d W K)
        ngens kwargs (st : state W) :
  dtype_or_default None = dt_int
  /\ (forall L v r,
         coerce dt_int L v = Ok r ->
         broadcast L (map int_cast (cells v)) = Ok r
         /\ Forall (fun y => exists z, y = PyInt z /\ in_int64 z = true) r)
  /\ (forall x, fits_int64 x = true -> int_cast x = np_trunc x)
  /\ (forall x,
         binary64 x = true -> non_integer x = true ->
         int_cast x = np_trunc x /\ np_trunc x <> x)
  /\ (forall f,
         fits_int64 (PyFloat f) = false -> int_cast (PyFloat f) = PyInt int64_min)
  /\ (forall L l x,
         x ∈ l -> fits_int64 x = false -> raises (coerce dt_int L (PyList l)))
  /\ (forall traj st',
         run_sim garbage N0 gen_fn ngens None kwargs st = (Ok traj, st') ->
         (exists N1,
             run_sim_until garbage N0 gen_fn ngens None kwargs 1 st
             = (Ok N1, after st (world st) [Alloc BufN; Store BufN 0])
             /\ N1 !! 0%nat = Some (map int_cast (cells N0)))
         /\ (forall t : nat, 1 <= Z.of_nat t <= ngens - 1 ->
               exists N st1 v out v' w' r,
                 run_sim_until garbage N0 gen_fn ngens None kwargs (Z.of_nat t) st
                 = (Ok N, st1)
                 /\ N !! (t - 1)%nat = Some v
                 /\ gen_fn v kwargs (world st1) = (Ok (out, v'), w')
                 /\ broadcast (len N0) (map int_cast (cells out)) = Ok r
                 /\ run_sim_until garbage N0 gen_fn ngens None kwargs
                      (Z.of_nat t + 1) st
                    = (Ok (<[t := r]> (<[(t - 1)%nat := write_through v v']> N)),
                       after st1 w' [Call; Store BufN t])
                 /\ (no_inplace_1d gen_fn -> traj !! t = Some r))
         /\ (no_inplace_1d gen_fn ->
             traj !! 0%nat = Some (map int_cast (cells N0))))
  /\ (forall TN TM st',
         run_sim_2d garbage N0 M0 gen_fn2 ngens None kwargs st = (Ok (TN, TM), st') ->
         (exists N1 M1,
             run_sim_2d_until garbage N0 M0 gen_fn2 ngens None kwargs 1 st
             = (Ok (N1, M1),
                after st (world st)
                  [Alloc BufN; Store BufN 0; Alloc BufM; Store BufM 0])
             /\ N1 !! 0%nat = Some (map int_cast (cells N0))
             /\ M1 !! 0%nat = Some (map int_cast (cells M0)))
         /\ (forall t : nat, 1 <= Z.of_nat t <= ngens - 1 ->
               exists N M_ st1 vN vM outN outM vN' vM' w' rN rM,
                 run_sim_2d_until garbage N0 M0 gen_fn2 ngens None kwargs
                   (Z.of_nat t) st
                 = (Ok (N, M_), st1)
                 /\ N !! (t - 1)%nat = Some vN
                 /\ M_ !! (t - 1)%nat = Some vM
                 /\ gen_fn2 vN vM kwargs (world st1)
                    = (Ok ((outN, outM), (vN', vM')), w')
                 /\ broadcast (len N0) (map int_cast (cells outN)) = Ok rN
                 /\ broadcast (len M0) (map int_cast (cells outM)) = Ok rM
                 /\ run_sim_2d_until garbage N0 M0 gen_fn2 ngens None kwargs
                      (Z.of_nat t + 1) st
                    = (Ok (<[t := rN]> (<[(t - 1)%nat := write_through vN vN']> N),
                           <[t := rM]> (<[(t - 1)%nat := write_through vM vM']> M_)),
                       after st1 w' [Call; Store BufN t; Store BufM t])
                 /\ (no_inplace_2d gen_fn2 ->
                     TN !! t = Some rN /\ TM !! t = Some rM))
         /\ (no_inplace_2d gen_fn2 ->
             TN !! 0%nat = Some (map int_cast (cells N0))
             /\ TM !! 0%nat = Some (map int_cast (cells M0)))).
Proof.
  split; [reflexivity |].
  split.
  { intros L v r H. split; [apply coerce_int_cast | eapply coerce_int_int64]; exact H. }
  split; [exact int_cast_fits |].
  split.
  { intros x Hv Hfrac. split.
    - apply int_cast_fits, non_integer_fits; assumption.
    - apply non_integer_trunc, Hfrac. }
  split; [exact int_cast_unfit |].
  split; [exact coerce_int_list_rejects |].
  split.
  - intros traj st' H. split; [| split].
    + destruct (run_sim_until_1 garbage _ _ _ _ _ _ _ _ H)
        as (N1 & r0 & Hun & Hc & H0).
      apply cast_all_int_cast in Hc as ->. eauto.
    + intros t Ht.
      destruct (run_sim_turn garbage _ _ _ _ _ _ _ _ H t Ht)
        as (N & st1 & v & out & v' & w' & r & Hun & Hv & Hg & Hc & Hun').
      exists N, st1, v, out, v', w', r.
      split; [exact Hun |]. split; [exact Hv |]. split; [exact Hg |].
      split; [apply coerce_int_cast, Hc |]. split; [exact Hun' |].
      intros Hpure. pose proof (Hpure _ _ _ _ _ _ Hg) as ->.
      eapply run_sim_turn_kept; eassumption.
    + intros Hpure.
      destruct (run_sim_entry0 _ _ _ _ _ _ _ _ _ Hpure H) as (r0 & Hc & H0).
      apply cast_all_int_cast in Hc as ->. exact H0.
  - intros TN TM st' H. split; [| split].
    + destruct (run_sim_2d_until_1 garbage _ _ _ _ _ _ _ _ _ _ H)
        as (N1 & M1 & rN & rM & Hun & HcN & HcM & HN0 & HM0).
      apply cast_all_int_cast in HcN as ->.
      apply cast_all_int_cast in HcM as ->. eauto.
    + intros t Ht.
      destruct (run_sim_2d_turn garbage _ _ _ _ _ _ _ _ _ _ H t Ht)
        as (N & M_ & st1 & vN & vM & outN & outM & vN' & vM' & w' & rN & rM
            & Hun & HvN & HvM & Hg & HcN & HcM & Hun').
      exists N, M_, st1, vN, vM, outN, outM, vN', vM', w', rN, rM.
      split; [exact Hun |]. split; [exact HvN |]. split; [exact HvM |].
      split; [exact Hg |].
      split; [apply coerce_int_cast, HcN |].
      split; [apply coerce_int_cast, HcM |]. split; [exact Hun' |].
      intros Hpure. pose proof (Hpure _ _ _ _ _ _ _ Hg) as Heq.
      injection Heq as -> ->.
      eapply (run_sim_2d_turn_kept garbage) in Hun'; try eassumption.
      destruct Hun' as (_ & _ & HrN & HrM). auto.
    + intros Hpure.
      destruct (run_sim_2d_entry0 _ _ _ _ _ _ _ _ _ _ _ Hpure H)
        as (rN & rM & HcN & HcM & HN0 & HM0).
      apply cast_all_int_cast in HcN as ->.
      apply cast_all_int_cast in HcM as ->. auto.
Qed.

Lemma default_dtype_truncates_witness :
  (broadcast 2 (map int_cast (cells (NdArray [half; ten_to_19])))
   = Ok (ints [0; int64_min])
   /\ Forall (fun y => exists z, y = PyInt z /\ in_int64 z = true)
        (ints [0; int64_min]))
  /\ int_cast three_halves = np_trunc three_halves
  /\ (int_cast half = np_trunc half /\ np_trunc half <> half)
  /\ int_cast ten_to_19 = PyInt int64_min
  /\ raises (coerce dt_int 2 (PyList [half; ten_to_19]))
  /\ (forall t : nat, 1 <= Z.of_nat t <= 3 - 1 ->
        exists N st1 v out v' (w' : unit) r,
          run_sim_until no_garbage (NdArray [half]) (pure_1d drift_gen) 3 None tt
            (Z.of_nat t) (start tt)
          = (Ok N, st1)
          /\ N !! (t - 1)%nat = Some v
          /\ pure_1d drift_gen v tt (world st1) = (Ok (out, v'), w')
          /\ broadcast (len (NdArray [half])) (map int_cast (cells out)) = Ok r
          /\ run_sim_until no_garbage (NdArray [half]) (pure_1d drift_gen) 3 None tt
               (Z.of_nat t + 1) (start tt)
             = (Ok (<[t := r]> (<[(t - 1)%nat := write_through v v']> N)),
                after st1 w' [Call; Store BufN t])
          /\ (no_inplace_1d (W:=unit) (pure_1d drift_gen) ->
              [ints [0]; ints [1]; ints [2]] !! t = Some r))
  /\ (no_inplace_2d (W:=unit) (pure_2d shift_gen) ->
      [ints [0]; ints [-1]; ints [-2]] !! 0%nat
      = Some (map int_cast (cells (PyList [half])))
      /\ [ints [1]; ints [2]; ints [3]] !! 0%nat
         = Some (map int_cast (cells (NdArray [three_halves])))).
Proof.
  destruct (default_dtype_truncates no_garbage (NdArray [half]) (NdArray [half])
              (pure_1d drift_gen) (pure_2d shift_gen) 3 tt (start tt))
    as (_ & H1 & H2 & H3 & H4 & H5 & H6 & _).
  destruct (default_dtype_truncates no_garbage (PyList [half])
              (NdArray [three_halves])
              (pure_1d drift_gen) (pure_2d shift_gen) 3 tt (start tt))
    as (_ & _ & _ & _ & _ & _ & _ & H7).
  split; [| split; [| split; [| split; [| split; [| split]]]]].
  - apply (H1 2%nat (NdArray [half; ten_to_19]) (ints [0; int64_min])).
    reflexivity.
  - apply H2. reflexivity.
  - apply H3; reflexivity.
  - apply H4. reflexivity.
  - apply (H5 2%nat [half; ten_to_19] ten_to_19).
    + apply list_elem_of_further, list_elem_of_here.
    + reflexivity.
  - apply (H6 [ints [0]; ints [1]; ints [2]]
              {| world := tt;
                 trace := [Alloc BufN; Store BufN 0; Call; Store BufN 1;
                           Call; Store BufN 2] |}).
    reflexivity.
  - apply (H7 [ints [0]; ints [-1]; ints [-2]] [ints [1]; ints [2]; ints [3]]
              {| world := tt;
                 trace := [Alloc BufN; Store BufN 0; Alloc BufM; Store BufM 0;
                           Call; Store BufN 1; Store BufM 1;
                           Call; Store BufN 2; Store BufM 2] |}).
    reflexivity.
Defined.

(** One generation from the array [[0.5, 1e19]] is [[[0, int64_min]]], and
    the integer truncation of [1e19] is [10^19]. *)
Example run_sim_beyond_int64 :
  (run_sim no_garbage (NdArray [half; ten_to_19]) (pure_1d succ_gen) 1 None tt
     (start tt)).1
  = Ok [ints [0; int64_min]]
  /\ map np_trunc [half; ten_to_19] = ints [0; 10 ^ 19].
Proof. split; reflexivity. Qed.

(** Two generations of [logistic_step] from [[600]] with [mu] equal to
    [lam]: the step returns NaN, which is stored as [int64_min]. *)
Example run_sim_logistic_nan :
  (run_sim no_garbage (PyList (ints [600])) (pure_1d logistic_step_fn) 2 None
     {| lg_lam := half; lg_mu := half; lg_K := PyInt 2000 |} (start tt)).1
  = Ok [ints [600]; ints [int64_min]].
Proof. vm_compute. reflexivity. Qed.

(** C9 as stated fails: the array [[0.5, 1e19]] holds a value with a
    fraction, and what is stored for it is not the integer truncation of
    its values. *)
Lemma stated_truncation_fails :
  ~ stated_truncation no_garbage (NdArray [half; ten_to_19]) (pure_1d succ_gen)
      tt (start tt).
Proof.
  intros H.
  assert (Hfrac : Exists (fun x => non_integer x = true)
                    (cells (NdArray [half; ten_to_19]))).
  { apply Exists_cons_hd. reflexivity. }
  specialize (H Hfrac [ints [0; int64_min]] _ eq_refl).
  vm_compute in H. discriminate H.
Qed.

(** * Views into the buffer *)

Lemma write_through_full (v v' : row) :
  length v' = length v -> write_through v v' = v'.
Proof.
  intros H. unfold write_through.
  rewrite take_ge, drop_ge by lia. apply app_nil_r.
Qed.

Lemma as_int64_ok v zs : as_int64 v = Ok zs -> v = map PyInt zs.
Proof.
  revert zs. induction v as [| [z | x] v IH]; simpl; intros zs H.
  - injection H as <-. reflexivity.
  - destruct (as_int64 v) as [zs' |]; [| discriminate].
    injection H as <-. simpl. rewrite (IH zs' eq_refl). reflexivity.
  - discriminate.
Qed.

Section SIFacts.

Context {W : Type}.
Variable rng : np_random W.

Lemma binomial_each_length ns p (w : W) xs w' :
  binomial_each rng ns p w = (Ok xs, w') -> length xs = length ns.
Proof.
  revert w xs. induction ns as [| n ns IH]; simpl; intros w xs H.
  - injection H as <- _. reflexivity.
  - inv_bind H. inv_bind H. injection H as <- <-.
    simpl. f_equal. eapply IH, H1.
Qed.

Lemma infect_length p k SI (w : W) SI' w' :
  infect rng p k SI w = (Ok SI', w') ->
  length SI'.1 = length SI.1 /\ length SI'.2 = length SI.2.
Proof.
  destruct SI as [S_ I_]. unfold infect.
  destruct (S_ !! k) as [s |]; [| discriminate].
  destruct (I_ !! k) as [i |]; [| discriminate].
  intros H. inv_bind H. injection H as <- _.
  simpl. rewrite !length_insert. auto.
Qed.

Lemma infections_length p ts SI (w : W) SI' w' :
  for_each ts (infect rng p) SI w = (Ok SI', w') ->
  length SI'.1 = length SI.1 /\ length SI'.2 = length SI.2.
Proof.
  revert SI w. induction ts as [| k ts IH]; simpl; intros SI w H.
  - injection H as <- _. auto.
  - inv_bind H. apply infect_length in H0 as [E1 E2].
    apply IH in H as [-> ->]. auto.
Qed.

(** The rate [a * c] of the infection loop is the same in every turn. *)
Lemma infect_at_loop a c ts SI (w : W) SI' w' :
  for_each ts (infect_at rng a c) SI w = (Ok SI', w') ->
  exists p, for_each ts (infect rng p) SI w = (Ok SI', w').
Proof.
  destruct (py_mul a c) as [p | e] eqn:Hp.
  - exists p. revert SI w H. induction ts as [| k ts IH]; intros SI w H.
    + exact H.
    + simpl in H |- *. apply bind_ok in H as (SI1 & w1 & Hk & H).
      unfold infect_at, bind, lift_outcome in Hk. rewrite Hp in Hk.
      unfold bind. rewrite Hk. apply IH, H.
  - destruct ts as [| k ts]; intros H.
    + exists (PyInt 0). exact H.
    + simpl in H. apply bind_ok in H as (SI1 & w1 & Hk & _).
      unfold infect_at, bind, lift_outcome in Hk. rewrite Hp in Hk.
      discriminate.
Qed.

(** [SI_gen], step by step, for a call that returns. *)
Lemma SI_gen_inv S_ I_ kwargs (w : W) out vs' w' :
  SI_gen rng S_ I_ kwargs w = (Ok (out, vs'), w') ->
  exists rates births w1 Sz Iz dS w2 dI w3 S2 I2 w4 rec p,
    SI_rescale kwargs = Ok rates
    /\ poisson rng (r_lam rates) w = (Ok births, w1)
    /\ S_ = ints Sz /\ I_ = ints Iz /\ length Sz = length Iz
    /\ binomial_each rng (map (fun s => add64 s births) Sz) (r_mu rates) w1
       = (Ok dS, w2)
    /\ binomial_each rng Iz (r_delta rates) w2 = (Ok dI, w3)
    /\ for_each (seq 0 (length Sz)) (infect rng p)
         (zip_with sub64 (map (fun s => add64 s births) Sz) dS,
          zip_with sub64 Iz dI) w3
       = (Ok (S2, I2), w4)
    /\ binomial_each rng I2 (r_rho rates) w4 = (Ok rec, w')
    /\ out = (NdArray (ints (zip_with add64 S2 rec)),
              NdArray (ints (zip_with sub64 I2 rec)))
    /\ vs' = (ints (zip_with add64 S2 rec), ints (zip_with sub64 I2 rec)).
Proof.
  unfold SI_gen. intros H.
  apply bind_ok in H as (rates & w0 & Hr & H).
  injection Hr as Hr <-.
  destruct (Nat.eqb_spec (length S_) (length I_)) as [Hlen | Hlen];
    simpl in H; [| discriminate].
  apply bind_ok in H as (births & w1 & Hb & H).
  apply bind_ok in H as (Sz & u1 & HS & H).
  injection HS as HS <-. apply as_int64_ok in HS.
  apply bind_ok in H as (dS & w2 & HdS & H).
  apply bind_ok in H as (Iz & u2 & HI & H).
  injection HI as HI <-. apply as_int64_ok in HI.
  apply bind_ok in H as (dI & w3 & HdI & H).
  apply bind_ok in H as ([S2 I2] & w4 & Hinf & H).
  apply bind_ok in H as (rec & w5 & Hrec & H).
  injection H as <- <- <-.
  subst S_ I_. rewrite !length_map in Hinf.
  assert (Hlen' : length Sz = length Iz).
  { rewrite <- (length_map PyInt Sz), <- (length_map PyInt Iz). exact Hlen. }
  apply infect_at_loop in Hinf as [p Hinf].
  exists rates, births, w1, Sz, Iz, dS, w2, dI, w3, S2, I2, w4, rec, p.
  unfold ints. auto 15.
Qed.

(** [SI_gen] returns the arrays it was given, as it has left them. *)
Lemma SI_gen_ok S_ I_ kwargs (w : W) out vs' w' :
  SI_gen rng S_ I_ kwargs w = (Ok (out, vs'), w') ->
  out = (NdArray vs'.1, NdArray vs'.2)
  /\ length vs'.1 = length S_ /\ length vs'.2 = length I_.
Proof.
  intros H.
  apply SI_gen_inv in H
    as (rates & births & w1 & Sz & Iz & dS & w2 & dI & w3 & S2 & I2 & w4 & rec & p
        & _ & _ & -> & -> & Hlen & HdS & HdI & Hinf & Hrec & -> & ->).
  split; [reflexivity |].
  apply binomial_each_length in HdS, HdI, Hrec.
  apply infections_length in Hinf as [HS2 HI2]. simpl in HS2, HI2.
  rewrite length_map in HdS.
  rewrite length_zip_with, length_map in HS2.
  rewrite length_zip_with in HI2.
  simpl. unfold ints. rewrite !length_map, !length_zip_with. lia.
Qed.

End SIFacts.

Lemma run_sim_first_view {W K} garbage N0 (gen_fn : gen_fn_1d W K)
      ngens dtype kwargs (st : state W) traj st' :
  2 <= ngens ->
  run_sim garbage N0 gen_fn ngens dtype kwargs st = (Ok traj, st') ->
  exists r0 out v' w',
    cast_all (dtype_or_default dtype) N0 = Ok r0
    /\ gen_fn r0 kwargs (world st) = (Ok (out, v'), w')
    /\ traj !! 0%nat = Some (write_through r0 v').
Proof.
  intros Hn H.
  apply run_sim_ok in H as (_ & r0 & N1 & Hc & _ & H0 & Hloop).
  replace (Z.to_nat (ngens - 1)) with (S (Z.to_nat (ngens - 2))) in Hloop by lia.
  apply loop_1d_first_view in Hloop as (v & out & v' & w' & Hv & Hg & Hr); [| lia].
  simpl in Hv, Hr, Hg. rewrite H0 in Hv. injection Hv as <-.
  exists r0, out, v', w'. auto.
Qed.

Lemma run_sim_2d_first_view {W K} garbage N0 M0 (gen_fn : gen_fn_2d W K)
      ngens dtype kwargs (st : state W) TN TM st' :
  2 <= ngens ->
  run_sim_2d garbage N0 M0 gen_fn ngens dtype kwargs st = (Ok (TN, TM), st') ->
  exists rN rM out vN' vM' w',
    cast_all (dtype_or_default dtype) N0 = Ok rN
    /\ cast_all (dtype_or_default dtype) M0 = Ok rM
    /\ gen_fn rN rM kwargs (world st) = (Ok (out, (vN', vM')), w')
    /\ TN !! 0%nat = Some (write_through rN vN')
    /\ TM !! 0%nat = Some (write_through rM vM').
Proof.
  intros Hn H.
  apply run_sim_2d_ok in H
    as (_ & _ & rN & rM & N1 & M1 & HcN & HcM & _ & _ & HN0 & HM0 & Hloop).
  replace (Z.to_nat (ngens - 1)) with (S (Z.to_nat (ngens - 2))) in Hloop by lia.
  apply (loop_2d_first_view _ _ _ _ _ (N1, M1) _ (TN, TM)) in Hloop
    as (vN & vM & out & vN' & vM' & w' & HvN & HvM & Hg & HrN & HrM); [| lia].
  simpl in HvN, HvM, HrN, HrM, Hg.
  rewrite HN0 in HvN. rewrite HM0 in HvM.
  injection HvN as <-. injection HvM as <-.
  exists rN, rM, out, vN', vM', w'. auto 10.
Qed.

(** C10: a driver hands generation [t - 1] to the transition function as a
    view into its buffer.  With a transition function that does not update
    its arguments in place, computing any generations [ts] leaves every
    other generation of the buffer, generation 0 included, as it was; this
    holds of every turn of the loop and so of the returned trajectory.
    Without that proviso it fails: generation 0 of the returned trajectory
    is what the first call left in its view.  [SI_gen] updates its arguments
    in place and returns them, so that generation 0 of either trajectory is
    the state after the first step; on the initial vectors and arguments of
    the notebook, with births from the tape, it is not the initial vector. *)
Theorem views_not_copies {W K} garbage
        (gen_fn : gen_fn_1d W K) (gen_fn2 : gen_fn_2d W K) (rng : np_random W)
        (N0 M0 : value) ngens dtype (kwargs : K) (si_kwargs : SI_kwargs)
        (st : state W) :
  (no_inplace_1d gen_fn ->
   forall ts N st0 N' st' i,
     for_each ts (run_sim_step gen_fn (dtype_or_default dtype) kwargs) N st0
     = (Ok N', st') ->
     i ∉ ts -> N' !! i = N !! i)
  /\ (no_inplace_2d gen_fn2 ->
      forall ts N M_ st0 N' M' st' i,
        for_each ts (run_sim_2d_step gen_fn2 (dtype_or_default dtype) kwargs)
          (N, M_) st0
        = (Ok (N', M'), st') ->
        i ∉ ts -> N' !! i = N !! i /\ M' !! i = M_ !! i)
  /\ (2 <= ngens ->
      forall traj st',
        run_sim garbage N0 gen_fn ngens dtype kwargs st = (Ok traj, st') ->
        exists r0 out v' w',
          cast_all (dtype_or_default dtype) N0 = Ok r0
          /\ gen_fn r0 kwargs (world st) = (Ok (out, v'), w')
          /\ traj !! 0%nat = Some (write_through r0 v'))
  /\ (2 <= ngens ->
      forall TN TM st',
        run_sim_2d garbage N0 M0 gen_fn2 ngens dtype kwargs st = (Ok (TN, TM), st') ->
        exists rN rM out vN' vM' w',
          cast_all (dtype_or_default dtype) N0 = Ok rN
          /\ cast_all (dtype_or_default dtype) M0 = Ok rM
          /\ gen_fn2 rN rM kwargs (world st) = (Ok (out, (vN', vM')), w')
          /\ TN !! 0%nat = Some (write_through rN vN')
          /\ TM !! 0%nat = Some (write_through rM vM'))
  /\ (2 <= ngens ->
      forall TN TM st',
        run_sim_2d garbage N0 M0 (SI_gen rng) ngens dtype si_kwargs st
        = (Ok (TN, TM), st') ->
        exists rN rM S1 I1 w',
          cast_all (dtype_or_default dtype) N0 = Ok rN
          /\ cast_all (dtype_or_default dtype) M0 = Ok rM
          /\ SI_gen rng rN rM si_kwargs (world st)
             = (Ok ((NdArray S1, NdArray I1), (S1, I1)), w')
          /\ TN !! 0%nat = Some S1
          /\ TM !! 0%nat = Some I1)
  /\ (run_sim_2d no_garbage SI_N0 SI_M0 (SI_gen tape_rng) 3 None SI_args
        (start SI_tape)).1
     = Ok ([ints [202; 203; 283; 273]; ints [202; 203; 283; 273];
            ints [202; 203; 283; 273]],
           [ints [10; 98; 10; 100]; ints [10; 98; 10; 100];
            ints [10; 98; 10; 100]]).
Proof.
  split; [| split; [| split; [| split; [| split]]]].
  - intros Hpure ts N st0 N' st' i H Hi.
    eapply loop_1d_frame_no_inplace; eassumption.
  - intros Hpure ts N M_ st0 N' M' st' i H Hi.
    exact (loop_2d_frame_no_inplace _ _ _ _ (N, M_) _ (N', M') _ _ Hpure H Hi).
  - intros Hn traj st' H. eapply run_sim_first_view; eassumption.
  - intros Hn TN TM st' H. eapply run_sim_2d_first_view; eassumption.
  - intros Hn TN TM st' H.
    destruct (run_sim_2d_first_view _ _ _ _ _ _ _ _ _ _ _ Hn H)
      as (rN & rM & out & vN' & vM' & w' & HcN & HcM & Hg & HN & HM).
    destruct (SI_gen_ok _ _ _ _ _ _ _ _ Hg) as (-> & HlS & HlI).
    simpl in HlS, HlI.
    rewrite write_through_full in HN by exact HlS.
    rewrite write_through_full in HM by exact HlI.
    exists rN, rM, vN', vM', w'. auto 10.
  - vm_compute. reflexivity.
Qed.

Lemma views_not_copies_witness :
  ([ints [10]; ints [11]; ints [12]] !! 0%nat
   = [ints [10]; ints [0]; ints [0]] !! 0%nat)
  /\ ([ints [10]; ints [9]; ints [8]] !! 0%nat
      = [ints [10]; ints [0]; ints [0]] !! 0%nat
      /\ [ints [5]; ints [6]; ints [7]] !! 0%nat
         = [ints [5]; ints [0]; ints [0]] !! 0%nat)
  /\ (exists r0 out v' w',
         cast_all (dtype_or_default None) SI_N0 = Ok r0
         /\ pure_1d succ_gen r0 tt (world (start SI_tape)) = (Ok (out, v'), w')
         /\ [cells SI_N0; ints [201; 201; 281; 271]; ints [202; 202; 282; 272]]
              !! 0%nat
            = Some (write_through r0 v'))
  /\ (exists rN rM out vN' vM' w',
         cast_all (dtype_or_default None) SI_N0 = Ok rN
         /\ cast_all (dtype_or_default None) SI_M0 = Ok rM
         /\ pure_2d shift_gen rN rM tt (world (start SI_tape))
            = (Ok (out, (vN', vM')), w')
         /\ [cells SI_N0; ints [199; 199; 279; 269]; ints [198; 198; 278; 268]]
              !! 0%nat
            = Some (write_through rN vN')
         /\ [cells SI_M0; ints [11; 101; 11; 101]; ints [12; 102; 12; 102]]
              !! 0%nat
            = Some (write_through rM vM'))
  /\ (exists rN rM S1 I1 w',
         cast_all (dtype_or_default None) SI_N0 = Ok rN
         /\ cast_all (dtype_or_default None) SI_M0 = Ok rM
         /\ SI_gen tape_rng rN rM SI_args (world (start SI_tape))
            = (Ok ((NdArray S1, NdArray I1), (S1, I1)), w')
         /\ [ints [202; 203; 283; 273]; ints [202; 203; 283; 273];
             ints [202; 203; 283; 273]] !! 0%nat = Some S1
         /\ [ints [10; 98; 10; 100]; ints [10; 98; 10; 100];
             ints [10; 98; 10; 100]] !! 0%nat = Some I1).
Proof.
  destruct (views_not_copies no_garbage (pure_1d succ_gen) (pure_2d shift_gen)
              tape_rng SI_N0 SI_M0 3 None tt SI_args (start SI_tape))
    as (H1 & H2 & H3 & H4 & H5 & _).
  assert (Hi : 0%nat ∉ [1%nat; 2%nat]).
  { intros Hin. apply elem_of_cons in Hin as [Hin | Hin]; [discriminate |].
    apply elem_of_cons in Hin as [Hin | Hin]; [discriminate |].
    inversion Hin. }
  split; [| split; [| split; [| split]]].
  - apply (H1 (pure_1d_no_inplace _) [1%nat; 2%nat]
              [ints [10]; ints [0]; ints [0]] (start SI_tape)
              [ints [10]; ints [11]; ints [12]]
              {| world := SI_tape;
                 trace := [Call; Store BufN 1; Call; Store BufN 2] |}
              0%nat eq_refl Hi).
  - apply (H2 (pure_2d_no_inplace _) [1%nat; 2%nat]
              [ints [10]; ints [0]; ints [0]] [ints [5]; ints [0]; ints [0]]
              (start SI_tape)
              [ints [10]; ints [9]; ints [8]] [ints [5]; ints [6]; ints [7]]
              {| world := SI_tape;
                 trace := [Call; Store BufN 1; Store BufM 1;
                           Call; Store BufN 2; Store BufM 2] |}
              0%nat eq_refl Hi).
  - apply (H3 ltac:(lia)
              [cells SI_N0; ints [201; 201; 281; 271]; ints [202; 202; 282; 272]]
              {| world := SI_tape;
                 trace := [Alloc BufN; Store BufN 0; Call; Store BufN 1;
                           Call; Store BufN 2] |}).
    reflexivity.
  - apply (H4 ltac:(lia)
              [cells SI_N0; ints [199; 199; 279; 269]; ints [198; 198; 278; 268]]
              [cells SI_M0; ints [11; 101; 11; 101]; ints [12; 102; 12; 102]]
              {| world := SI_tape;
                 trace := [Alloc BufN; Store BufN 0; Alloc BufM; Store BufM 0;
                           Call; Store BufN 1; Store BufM 1;
                           Call; Store BufN 2; Store BufM 2] |}).
    reflexivity.
  - apply (H5 ltac:(lia)
              [ints [202; 203; 283; 273]; ints [202; 203; 283; 273];
               ints [202; 203; 283; 273]]
              [ints [10; 98; 10; 100]; ints [10; 98; 10; 100];
               ints [10; 98; 10; 100]]
              {| world := []; 
                 trace := [Alloc BufN; Store BufN 0; Alloc BufM; Store BufM 0;
                           Call; Store BufN 1; Store BufM 1;
                           Call; Store BufN 2; Store BufM 2] |}).
    vm_compute. reflexivity.
Defined.

(** * More of the notebook: [SI_gen] *)

Lemma wrap64_range z : int64_min <= wrap64 z <= int64_max.
Proof.
  unfold wrap64, int64_min, int64_max.
  pose proof (Z.mod_pos_bound (z + 2 ^ 63) (2 ^ 64) ltac:(lia)). lia.
Qed.

Lemma wrap64_in_int64 z : in_int64 (wrap64 z) = true.
Proof.
  unfold in_int64. pose proof (wrap64_range z).
  apply andb_true_iff. rewrite !Z.leb_le. lia.
Qed.

Lemma wrap64_small z : int64_min <= z <= int64_max -> wrap64 z = z.
Proof.
  unfold wrap64, int64_min, int64_max. intros H.
  rewrite Z.mod_small by lia. lia.
Qed.

Lemma as_int64_ints zs : as_int64 (ints zs) = Ok zs.
Proof.
  unfold ints. induction zs as [| z zs IH]; simpl; [reflexivity |].
  rewrite IH. reflexivity.
Qed.

Lemma as_int64_float v x : PyFloat x ∈ v -> as_int64 v = Raise TypeError.
Proof.
  induction v as [| [z | y] v IH]; intros Hin.
  - inversion Hin.
  - apply elem_of_cons in Hin as [Hin | Hin]; [discriminate |].
    simpl. rewrite (IH Hin). reflexivity.
  - reflexivity.
Qed.

Lemma lookup_map {A B} (f : A -> B) (l : list A) i :
  map f l !! i = f <$> l !! i.
Proof.
  revert i. induction l as [| x l IH]; intros [| i]; simpl; auto.
Qed.

Section SIMore.

Context {W : Type}.
Variable rng : np_random W.

(** What the draws of [np.random.binomial(ns, p, len(ns))] are. *)
Lemma binomial_each_draws ns p (w : W) xs w' :
  binomial_each rng ns p w = (Ok xs, w') ->
  Forall2 (fun n x => exists w1 w2, binomial rng n p w1 = (Ok x, w2)) ns xs.
Proof.
  revert w xs. induction ns as [| n ns IH]; simpl; intros w xs H.
  - injection H as <- _. constructor.
  - inv_bind H. inv_bind H. injection H as <- <-.
    constructor; [eauto | eapply IH, H1].
Qed.

Lemma binomial_each_bounds ns p (w : W) xs w' :
  sampler_ok rng ->
  binomial_each rng ns p w = (Ok xs, w') ->
  Forall2 (fun n x => 0 <= x <= n) ns xs.
Proof.
  intros [_ Hb] H. apply binomial_each_draws in H.
  eapply Forall2_impl; [exact H |].
  intros n x (w1 & w2 & Hx). eapply Hb, Hx.
Qed.

(** One turn of the infection loop moves [x] individuals of replicate [k]
    from [S] to [I], and [x] is at most [S[k]]: it counts draws, and there
    are [S[k]] of them. *)
Lemma infect_ok p k S_ I_ (w : W) S' I' w' :
  infect rng p k (S_, I_) w = (Ok (S', I'), w') ->
  exists s i x,
    S_ !! k = Some s /\ I_ !! k = Some i
    /\ 0 <= x <= s
    /\ S' = <[k := sub64 s x]> S_
    /\ I' = <[k := add64 i x]> I_.
Proof.
  unfold infect.
  destruct (S_ !! k) as [s |] eqn:Hs; [| discriminate].
  destruct (I_ !! k) as [i |] eqn:Hi; [| discriminate].
  intros H. apply bind_ok in H as (enc & w1 & Henc & H).
  injection H as <- <- _.
  exists s, i, (Z.of_nat (length (filter (fun x => 0 < x) enc))).
  repeat split; try reflexivity; [lia |].
  unfold binomial_size in Henc.
  destruct (Z.ltb_spec s 0) as [Hneg | Hpos]; [discriminate |].
  apply binomial_each_length in Henc. rewrite length_replicate in Henc.
  pose proof (length_filter (fun x => 0 < x) enc). lia.
Qed.

Lemma infections_ok p m a S_ I_ (w : W) S' I' w' :
  for_each (seq a m) (infect rng p) (S_, I_) w = (Ok (S', I'), w') ->
  (forall k, (k < a \/ a + m <= k)%nat ->
             S' !! k = S_ !! k /\ I' !! k = I_ !! k)
  /\ (forall k, (a <= k < a + m)%nat ->
        exists s i x,
          S_ !! k = Some s /\ I_ !! k = Some i
          /\ 0 <= x <= s
          /\ S' !! k = Some (sub64 s x)
          /\ I' !! k = Some (add64 i x)).
Proof.
  revert a S_ I_ w. induction m as [| m IH]; intros a S_ I_ w H.
  - simpl in H. injection H as <- <- _. split; [auto | intros k Hk; lia].
  - simpl in H. apply bind_ok in H as ([S1 I1] & w1 & Hstep & H).
    apply infect_ok in Hstep as (s & i & x & Hs & Hi & Hx & -> & ->).
    apply IH in H as [Hout Hin]. split.
    + intros k Hk. destruct (Hout k ltac:(lia)) as [-> ->].
      rewrite !list_lookup_insert_ne by lia. auto.
    + intros k Hk. destruct (decide (k = a)) as [-> | Hne].
      * destruct (Hout a ltac:(lia)) as [-> ->].
        exists s, i, x.
        split; [exact Hs |]. split; [exact Hi |]. split; [exact Hx |]. split.
        -- apply list_lookup_insert_eq. eapply lookup_lt_Some, Hs.
        -- apply list_lookup_insert_eq. eapply lookup_lt_Some, Hi.
      * destruct (Hin k ltac:(lia)) as (s' & i' & x' & Hs' & Hi' & Hx' & HS' & HI').
        rewrite list_lookup_insert_ne in Hs', Hi' by lia.
        exists s', i', x'. auto 10.
Qed.

(** Replicate [k] of [SI_gen], with no assumption on the random source:
    births, deaths, infections and recoveries in int64 arithmetic.  The
    births are the Poisson draw the call starts with, the deaths the two
    arrays of binomial draws that follow it. *)
Lemma SI_gen_cell S_ I_ kwargs (w : W) out vs' w' :
  SI_gen rng S_ I_ kwargs w = (Ok (out, vs'), w') ->
  exists rates births w1 Sz Iz dS w2 dI w3,
    SI_rescale kwargs = Ok rates
    /\ poisson rng (r_lam rates) w = (Ok births, w1)
    /\ S_ = ints Sz /\ I_ = ints Iz
    /\ binomial_each rng (map (fun s => add64 s births) Sz) (r_mu rates) w1
       = (Ok dS, w2)
    /\ binomial_each rng Iz (r_delta rates) w2 = (Ok dI, w3)
    /\ forall k s i,
        Sz !! k = Some s -> Iz !! k = Some i ->
        exists ds di x r,
          dS !! k = Some ds /\ dI !! k = Some di
          /\ (exists q u1 u2, binomial rng (add64 s births) q u1 = (Ok ds, u2))
          /\ (exists q u1 u2, binomial rng i q u1 = (Ok di, u2))
          /\ 0 <= x <= sub64 (add64 s births) ds
          /\ (exists q u1 u2,
                 binomial rng (add64 (sub64 i di) x) q u1 = (Ok r, u2))
          /\ cells out.1 !! k
             = Some (PyInt (add64 (sub64 (sub64 (add64 s births) ds) x) r))
          /\ cells out.2 !! k = Some (PyInt (sub64 (add64 (sub64 i di) x) r)).
Proof.
  intros H.
  apply SI_gen_inv in H
    as (rates & births & w1 & Sz & Iz & dS & w2 & dI & w3 & S2 & I2 & w4 & rec & p
        & Hr & Hb & -> & -> & Hlen & HdS & HdI & Hinf & Hrec & -> & ->).
  exists rates, births, w1, Sz, Iz, dS, w2, dI, w3.
  split; [exact Hr |]. split; [exact Hb |].
  split; [reflexivity |]. split; [reflexivity |].
  split; [exact HdS |]. split; [exact HdI |].
  intros k s i Hs0 Hi0.
  apply binomial_each_draws in HdS, HdI, Hrec.
  assert (Hs1 : map (fun s => add64 s births) Sz !! k = Some (add64 s births)).
  { rewrite lookup_map, Hs0. reflexivity. }
  destruct (Forall2_lookup_l _ _ _ _ _ HdS Hs1) as (ds & Hds & (u1 & u2 & Hdraw_s)).
  destruct (Forall2_lookup_l _ _ _ _ _ HdI Hi0) as (di & Hdi & (u3 & u4 & Hdraw_i)).
  apply infections_ok in Hinf as [_ Hin].
  assert (Hk : (0 <= k < 0 + length Sz)%nat).
  { split; [lia |]. simpl. eapply lookup_lt_Some, Hs0. }
  destruct (Hin k Hk) as (s2 & i2 & x & Hs2 & Hi2 & Hx & HS2 & HI2).
  rewrite lookup_zip_with, Hs1, Hds in Hs2. simpl in Hs2. injection Hs2 as <-.
  rewrite lookup_zip_with, Hi0, Hdi in Hi2. simpl in Hi2. injection Hi2 as <-.
  destruct (Forall2_lookup_l _ _ _ _ _ Hrec HI2) as (r & Hr' & (u5 & u6 & Hdraw_r)).
  exists ds, di, x, r.
  split; [exact Hds |]. split; [exact Hdi |].
  split; [eauto |]. split; [eauto |]. split; [exact Hx |].
  split; [eauto |]. simpl. unfold ints, row.
  rewrite !lookup_map, !lookup_zip_with, HS2, HI2, Hr'. simpl. auto.
Qed.

End SIMore.

Lemma tape_rng_ok : sampler_ok tape_rng.
Proof.
  split.
  - intros lam w x w' H. simpl in H. inv_bind H. injection H as <- _. lia.
  - intros n p w x w' H. simpl in H.
    destruct (Z.ltb_spec n 0) as [Hn | Hn]; [discriminate |].
    inv_bind H. injection H as <- _. lia.
Qed.

Lemma zip_with_wrapped (f : Z -> Z -> Z) (l k : list Z) :
  (forall x y, in_int64 (f x y) = true) ->
  of_dtype dt_int (NdArray (ints (zip_with f l k))).
Proof.
  intros Hf. unfold of_dtype, ints. simpl.
  revert k. induction l as [| x l IH]; intros [| y k]; simpl; try constructor.
  - simpl. rewrite Hf. reflexivity.
  - apply IH.
Qed.


(** The product Python returns is the product of the two numbers. *)
Lemma py_mul_num a b c : py_mul a b = Ok c -> c = num_mul a b.
Proof.
  unfold py_mul. destruct (py_coerces a b); [| discriminate].
  intros [= <-]. reflexivity.
Qed.




(** X2: the infection loop of [SI_gen], whatever the random source draws:
    in each replicate it moves some number [x] of individuals from [S] to
    [I], never more than [S] holds, so that it leaves no replicate of [S]
    negative; the arrays keep their lengths. *)
Theorem SI_infections_bounded {W} (rng : np_random W) p (S_ I_ : list Z)
        (w : W) S' I' w' :
  for_each (seq 0 (length S_)) (infect rng p) (S_, I_) w = (Ok (S', I'), w') ->
  length S' = length S_ /\ length I' = length I_
  /\ forall k s i,
      S_ !! k = Some s -> I_ !! k = Some i ->
      exists x,
        0 <= x <= s
        /\ S' !! k = Some (sub64 s x)
        /\ I' !! k = Some (add64 i x)
        /\ (s <= int64_max -> sub64 s x = s - x /\ 0 <= s - x).
Proof.
  intros H.
  destruct (infections_length _ _ _ _ _ _ _ H) as [HlS HlI]. simpl in HlS, HlI.
  split; [exact HlS |]. split; [exact HlI |].
  intros k s i Hs Hi.
  apply infections_ok in H as [_ Hin].
  destruct (Hin k) as (s0 & i0 & x & Hs0 & Hi0 & Hx & HS' & HI').
  { split; [lia |]. simpl. eapply lookup_lt_Some, Hs. }
  rewrite Hs in Hs0. rewrite Hi in Hi0.
  injection Hs0 as <-. injection Hi0 as <-.
  exists x. split; [exact Hx |]. split; [exact HS' |]. split; [exact HI' |].
  intros Hmax. split; [| lia].
  unfold sub64. apply wrap64_small. unfold int64_min, int64_max in *. lia.
Qed.

Lemma SI_infections_bounded_witness :
  length [1; 0] = length [2; 0]
  /\ length [6; 5] = length [5; 5]
  /\ forall k s i,
      [2; 0] !! k = Some s -> [5; 5] !! k = Some i ->
      exists x,
        0 <= x <= s
        /\ [1; 0] !! k = Some (sub64 s x)
        /\ [6; 5] !! k = Some (add64 i x)
        /\ (s <= int64_max -> sub64 s x = s - x /\ 0 <= s - x).
Proof.
  apply (SI_infections_bounded tape_rng half [2; 0] [5; 5] [1; 0] [1; 0] [6; 5] []).
  reflexivity.
Defined.

Lemma wrap64_not_negative z : 0 <= z <= int64_max -> wrap64 z = z.
Proof.
  intros H. apply wrap64_small. unfold int64_min. lia.
Qed.

(** The int64 arithmetic of one replicate of [SI_gen] does not wrap around
    when the replicate has room for the births. *)
Lemma SI_cell_arith s i births ds di x r :
  0 <= s -> 0 <= i -> 0 <= births -> s + i + births <= int64_max ->
  0 <= ds <= add64 s births -> 0 <= di <= i ->
  0 <= x <= sub64 (add64 s births) ds ->
  0 <= r <= add64 (sub64 i di) x ->
  0 <= ds <= s + births
  /\ add64 (sub64 (sub64 (add64 s births) ds) x) r = s + births - ds - x + r
  /\ sub64 (add64 (sub64 i di) x) r = i - di + x - r
  /\ 0 <= s + births - ds - x + r
  /\ 0 <= i - di + x - r.
Proof.
  intros Hs Hi Hb Hroom Hds Hdi Hx Hr.
  unfold add64, sub64 in *.
  rewrite (wrap64_not_negative (s + births)) in * by lia.
  rewrite (wrap64_not_negative (s + births - ds)) in * by lia.
  rewrite (wrap64_not_negative (i - di)) in * by lia.
  rewrite (wrap64_not_negative (i - di + x)) in * by lia.
  rewrite (wrap64_not_negative (s + births - ds - x)) by lia.
  rewrite (wrap64_not_negative (s + births - ds - x + r)) by lia.
  rewrite (wrap64_not_negative (i - di + x - r)) by lia.
  lia.
Qed.

(** X3: one generation of [SI_gen] with a well-behaved random source.  The
    births are the one Poisson draw the call starts with, the same for
    every replicate; the deaths are the binomial draws that follow it, out
    of [S + births] and out of [I].  In a replicate that starts with
    non-negative counts and has room for the births in an int64, neither
    count becomes negative, and the replicate grows by the births and
    shrinks by those deaths and by nothing else: infections and recoveries
    only move individuals between [S] and [I]. *)
Theorem SI_gen_population {W} (rng : np_random W) (S_ I_ : row) kwargs (w : W)
        S' I' vs' w' :
  sampler_ok rng ->
  SI_gen rng S_ I_ kwargs w = (Ok ((S', I'), vs'), w') ->
  exists rates births w1 Sz Iz dS w2 dI w3,
    SI_rescale kwargs = Ok rates
    /\ poisson rng (r_lam rates) w = (Ok births, w1)
    /\ 0 <= births
    /\ S_ = ints Sz /\ I_ = ints Iz
    /\ binomial_each rng (map (fun s => add64 s births) Sz) (r_mu rates) w1
       = (Ok dS, w2)
    /\ binomial_each rng Iz (r_delta rates) w2 = (Ok dI, w3)
    /\ forall k s i,
        Sz !! k = Some s -> Iz !! k = Some i ->
        0 <= s -> 0 <= i -> s + i + births <= int64_max ->
        exists ds di s' i',
          dS !! k = Some ds /\ dI !! k = Some di
          /\ 0 <= ds <= s + births /\ 0 <= di <= i
          /\ cells S' !! k = Some (PyInt s') /\ cells I' !! k = Some (PyInt i')
          /\ 0 <= s' /\ 0 <= i'
          /\ s' + i' = s + births - ds + i - di.
Proof.
  intros [Hp Hb] H.
  apply SI_gen_cell in H
    as (rates & births & w1 & Sz & Iz & dS & w2 & dI & w3
        & Hr & Hbirths & HS & HI & HdS & HdI & Hcell).
  exists rates, births, w1, Sz, Iz, dS, w2, dI, w3.
  pose proof (Hp _ _ _ _ Hbirths) as Hb0.
  split; [exact Hr |]. split; [exact Hbirths |]. split; [exact Hb0 |].
  split; [exact HS |]. split; [exact HI |].
  split; [exact HdS |]. split; [exact HdI |].
  intros k s i Hs Hi Hs0 Hi0 Hroom.
  destruct (Hcell k s i Hs Hi)
    as (ds & di & x & r & Hdsk & Hdik & (q1 & u1 & u2 & Hds)
        & (q2 & u3 & u4 & Hdi) & Hx & (q3 & u5 & u6 & Hrk) & HS' & HI').
  cbn [fst snd] in HS', HI'.
  apply Hb in Hds, Hdi, Hrk.
  destruct (SI_cell_arith s i births ds di x r Hs0 Hi0 Hb0 Hroom Hds Hdi Hx Hrk)
    as (Hds' & ES & EI & HS0 & HI0).
  exists ds, di, (s + births - ds - x + r), (i - di + x - r).
  split; [exact Hdsk |]. split; [exact Hdik |].
  split; [exact Hds' |]. split; [exact Hdi |].
  split; [rewrite <- ES; exact HS' |]. split; [rewrite <- EI; exact HI' |].
  split; [exact HS0 |]. split; [exact HI0 |]. lia.
Qed.

Lemma SI_gen_population_witness :
  exists rates births w1 Sz Iz dS w2 dI w3,
    SI_rescale SI_args = Ok rates
    /\ poisson tape_rng (r_lam rates) SI_tape = (Ok births, w1)
    /\ 0 <= births
    /\ cells SI_N0 = ints Sz /\ cells SI_M0 = ints Iz
    /\ binomial_each tape_rng (map (fun s => add64 s births) Sz) (r_mu rates) w1
       = (Ok dS, w2)
    /\ binomial_each tape_rng Iz (r_delta rates) w2 = (Ok dI, w3)
    /\ forall k s i,
        Sz !! k = Some s -> Iz !! k = Some i ->
        0 <= s -> 0 <= i -> s + i + births <= int64_max ->
        exists ds di s' i',
          dS !! k = Some ds /\ dI !! k = Some di
          /\ 0 <= ds <= s + births /\ 0 <= di <= i
          /\ cells (NdArray (ints [202; 203; 283; 273])) !! k = Some (PyInt s')
          /\ cells (NdArray (ints [10; 98; 10; 100])) !! k = Some (PyInt i')
          /\ 0 <= s' /\ 0 <= i'
          /\ s' + i' = s + births - ds + i - di.
Proof.
  apply (SI_gen_population tape_rng (cells SI_N0) (cells SI_M0) SI_args SI_tape
           (NdArray (ints [202; 203; 283; 273])) (NdArray (ints [10; 98; 10; 100]))
           (ints [202; 203; 283; 273], ints [10; 98; 10; 100]) []).
  - exact tape_rng_ok.
  - vm_compute. reflexivity.
Defined.

Lemma astype_float_is_float x y :
  astype dt_float x = Ok y -> exists f, y = PyFloat f.
Proof.
  destruct x as [z | f]; simpl.
  - destruct (SFofZ z); intros [= <-]; eauto.
  - intros [= <-]. eauto.
Qed.

Lemma ints_no_float zs f : PyFloat f ∉ ints zs.
Proof.
  unfold ints. induction zs as [| z zs IH]; simpl; intros Hin.
  - inversion Hin.
  - apply elem_of_cons in Hin as [Hin | Hin]; [discriminate | auto].
Qed.

(** X4: [SI_gen] needs int64 buffers.  Asked for two generations or more of
    a float64 trajectory of [SI_gen], for initial vectors that are not
    empty, [run_sim_2d] never returns: the first call of [SI_gen] raises. *)
Theorem run_sim_2d_SI_gen_float {W} garbage (rng : np_random W) (N0 M0 : value)
        ngens kwargs (st : state W) :
  cells N0 <> [] ->
  2 <= ngens ->
  raises (run_sim_2d garbage N0 M0 (SI_gen rng) ngens (Some dt_float) kwargs st).1.
Proof.
  intros Hne Hn.
  destruct (run_sim_2d garbage N0 M0 (SI_gen rng) ngens (Some dt_float) kwargs st)
    as [r st'] eqn:H.
  destruct (outcome_cases r) as [[[TN TM] ->] | Hr]; [| exact Hr].
  exfalso.
  apply run_sim_2d_first_view in H
    as (rN & rM & out & vN' & vM' & w' & HcN & _ & Hg & _); [| exact Hn].
  apply SI_gen_inv in Hg
    as (rates & births & w1 & Sz & Iz & dS & w2 & dI & w3 & S2 & I2 & w4 & rec & p
        & _ & _ & HrN & _).
  unfold cast_all in HcN. simpl in HcN.
  destruct (cells N0) as [| x r] eqn:Hc; [contradiction |].
  simpl in HcN.
  destruct (convert dt_float N0 x) as [y |] eqn:Hy; [| discriminate].
  destruct (cast_cells (convert dt_float N0) r) as [u |]; [| discriminate].
  injection HcN as <-.
  assert (Hf : exists f, y = PyFloat f).
  { destruct N0; simpl in Hy; apply (astype_float_is_float x y), Hy. }
  destruct Hf as [f ->].
  apply (ints_no_float Sz f). rewrite <- HrN. apply list_elem_of_here.
Qed.

Lemma run_sim_2d_SI_gen_float_witness :
  raises (run_sim_2d no_garbage SI_N0 SI_M0 (SI_gen tape_rng) 3 (Some dt_float)
            SI_args (start SI_tape)).1.
Proof.
  apply (run_sim_2d_SI_gen_float no_garbage tape_rng SI_N0 SI_M0 3 SI_args
           (start SI_tape)).
  - discriminate.
  - lia.
Defined.

(** What [SI_gen] returns can be stored in an int64 buffer as it is. *)
Lemma SI_gen_out_int64 {W} (rng : np_random W) S_ I_ kwargs (w : W) out vs' w' :
  SI_gen rng S_ I_ kwargs w = (Ok (out, vs'), w') ->
  of_dtype dt_int out.1 /\ of_dtype dt_int out.2.
Proof.
  intros H.
  apply SI_gen_inv in H
    as (rates & births & w1 & Sz & Iz & dS & w2 & dI & w3 & S2 & I2 & w4 & rec & p
        & _ & _ & _ & _ & _ & _ & _ & _ & _ & -> & _).
  simpl. split; apply zip_with_wrapped; intros x y; apply wrap64_in_int64.
Qed.

(** The last turn of the loop of [run_sim_2d] with [SI_gen] leaves the same
    vector in the last two generations. *)
Lemma run_sim_2d_step_SI_gen {W} (rng : np_random W) n L kwargs t
      N M_ (st : state W) N' M' st' :
  shape n L N -> shape n L M_ ->
  (1 <= t)%nat ->
  run_sim_2d_step (SI_gen rng) dt_int kwargs t (N, M_) st = (Ok (N', M'), st') ->
  exists S1 I1,
    N' !! (t - 1)%nat = Some S1 /\ N' !! t = Some S1
    /\ M' !! (t - 1)%nat = Some I1 /\ M' !! t = Some I1.
Proof.
  intros HN HM Ht H.
  apply run_sim_2d_step_ok in H
    as (vN & vM & outN & outM & vN' & vM' & w' & oldN & oldM & rN & rM
        & HvN & HvM & Hg & HoldN & HoldM & HcN & HcM & -> & -> & _).
  destruct (SI_gen_ok _ _ _ _ _ _ _ _ Hg) as ([= -> ->] & HlS & HlI).
  destruct (SI_gen_out_int64 _ _ _ _ _ _ _ _ Hg) as [HfN HfM].
  cbn [fst snd] in HlS, HlI, HfN, HfM.
  pose proof (shape_lookup _ _ _ _ _ HN HvN) as HLN.
  pose proof (shape_lookup _ _ _ _ _ HM HvM) as HLM.
  assert (HoN : length oldN = len (NdArray vN')).
  { unfold len. cbn [cells]. rewrite HlS, HLN. eapply shape_lookup; [| exact HoldN].
    apply shape_insert; [exact HN |]. rewrite write_through_length. exact HLN. }
  assert (HoM : length oldM = len (NdArray vM')).
  { unfold len. cbn [cells]. rewrite HlI, HLM. eapply shape_lookup; [| exact HoldM].
    apply shape_insert; [exact HM |]. rewrite write_through_length. exact HLM. }
  rewrite HoN, (coerce_fixed _ _ HfN) in HcN. injection HcN as <-.
  rewrite HoM, (coerce_fixed _ _ HfM) in HcM. injection HcM as <-.
  rewrite (write_through_full _ _ HlS), (write_through_full _ _ HlI).
  rewrite (write_through_full _ _ HlS) in HoldN.
  rewrite (write_through_full _ _ HlI) in HoldM.
  exists vN', vM'.
  pose proof (lookup_lt_Some _ _ _ HvN) as HltN.
  pose proof (lookup_lt_Some _ _ _ HvM) as HltM.
  pose proof (lookup_lt_Some _ _ _ HoldN) as HltN'.
  pose proof (lookup_lt_Some _ _ _ HoldM) as HltM'.
  repeat split.
  - rewrite list_lookup_insert_ne by lia. apply list_lookup_insert_eq, HltN.
  - apply list_lookup_insert_eq, HltN'.
  - rewrite list_lookup_insert_ne by lia. apply list_lookup_insert_eq, HltM.
  - apply list_lookup_insert_eq, HltM'.
Qed.

(** X5: what [SI_gen]'s updates in place do to the trajectories of
    [run_sim_2d].  Under the default dtype, whenever two generations or more
    are returned, the last two generations of either trajectory are the same
    vector: the last call of [SI_gen] has overwritten the generation it was
    given with the generation it computed. *)
Theorem run_sim_2d_SI_gen_repeats {W} garbage (rng : np_random W) (N0 M0 : value)
        ngens kwargs (st : state W) TN TM st' :
  2 <= ngens ->
  run_sim_2d garbage N0 M0 (SI_gen rng) ngens None kwargs st = (Ok (TN, TM), st') ->
  exists S1 I1,
    TN !! Z.to_nat (ngens - 2) = Some S1
    /\ TN !! Z.to_nat (ngens - 1) = Some S1
    /\ TM !! Z.to_nat (ngens - 2) = Some I1
    /\ TM !! Z.to_nat (ngens - 1) = Some I1.
Proof.
  intros Hn H.
  apply run_sim_2d_ok in H
    as (Hlen & _ & rN & rM & N1 & M1 & _ & _ & HshN & HshM & _ & _ & Hloop).
  rewrite <- Hlen in HshM.
  replace (Z.to_nat (ngens - 1)) with (S (Z.to_nat (ngens - 2))) in * by lia.
  rewrite seq_S, for_each_app in Hloop.
  apply bind_ok in Hloop as ([N2 M2] & st2 & Hpre & Hlast).
  simpl in Hlast. apply bind_ok in Hlast as ([N3 M3] & st3 & Hstep & Hret).
  injection Hret as <- <- _.
  destruct (loop_2d_shape _ _ _ _ _ _ _ (N1, M1) _ (N2, M2) _ HshN HshM Hpre)
    as [HshN2 HshM2].
  simpl in HshN2, HshM2.
  assert (Ht : (1 <= 1 + Z.to_nat (ngens - 2))%nat) by lia.
  destruct (run_sim_2d_step_SI_gen _ _ _ _ _ _ _ _ _ _ _ HshN2 HshM2 Ht Hstep)
    as (S1 & I1 & H1 & H2 & H3 & H4).
  replace (1 + Z.to_nat (ngens - 2) - 1)%nat with (Z.to_nat (ngens - 2))
    in H1, H3 by lia.
  exists S1, I1. auto.
Qed.

Lemma run_sim_2d_SI_gen_repeats_witness :
  exists S1 I1,
    [ints [202; 203; 283; 273]; ints [202; 203; 283; 273];
     ints [202; 203; 283; 273]] !! Z.to_nat (3 - 2) = Some S1
    /\ [ints [202; 203; 283; 273]; ints [202; 203; 283; 273];
        ints [202; 203; 283; 273]] !! Z.to_nat (3 - 1) = Some S1
    /\ [ints [10; 98; 10; 100]; ints [10; 98; 10; 100];
        ints [10; 98; 10; 100]] !! Z.to_nat (3 - 2) = Some I1
    /\ [ints [10; 98; 10; 100]; ints [10; 98; 10; 100];
        ints [10; 98; 10; 100]] !! Z.to_nat (3 - 1) = Some I1.
Proof.
  apply (run_sim_2d_SI_gen_repeats no_garbage tape_rng SI_N0 SI_M0 3 SI_args
           (start SI_tape) _ _
           {| world := [];
              trace := [Alloc BufN; Store BufN 0; Alloc BufM; Store BufM 0;
                        Call; Store BufN 1; Store BufM 1;
                        Call; Store BufN 2; Store BufM 2] |}).
  - lia.
  - vm_compute. reflexivity.
Defined.

(** * More of the notebook: [logistic_step] *)


Lemma SFsub_diag x : zero_or_nan (SFsub prec64 emax64 x x).
Proof.
  destruct x as [[] | [] | | s m e]; simpl; try exact I.
  rewrite Z.sub_diag. exact I.
Qed.

Lemma SFmul_zero_or_nan_l x y :
  zero_or_nan x -> zero_or_nan (SFmul prec64 emax64 x y).
Proof. destruct x; try contradiction; destruct y; intros _; exact I. Qed.

Lemma SFmul_zero_or_nan_r x y :
  zero_or_nan y -> zero_or_nan (SFmul prec64 emax64 x y).
Proof. destruct y; try contradiction; destruct x; intros _; exact I. Qed.

Lemma SFdiv_by_zero_or_nan x y :
  zero_or_nan y -> inf_or_nan (SFdiv prec64 emax64 x y).
Proof. destruct y; try contradiction; destruct x; intros _; exact I. Qed.

Lemma SFsub_inf_or_nan x y :
  inf_or_nan y -> inf_or_nan (SFsub prec64 emax64 x y).
Proof.
  destruct y as [| sy | |]; try contradiction; intros _.
  - destruct x as [| [] | |]; destruct sy; exact I.
  - destruct x; exact I.
Qed.

Lemma SFmul_zero_inf x y :
  zero_or_nan x -> inf_or_nan y -> SFmul prec64 emax64 x y = S754_nan.
Proof.
  destruct x; try contradiction; destruct y; try contradiction; reflexivity.
Qed.

Lemma SFadd_nan x : SFadd prec64 emax64 x S754_nan = S754_nan.
Proof. destruct x; reflexivity. Qed.

(** [lam - lam] is zero or NaN, and so is every product with it. *)
Lemma num_sub_diag lam : zeroish (num_sub lam lam).
Proof.
  destruct lam as [z | x]; simpl.
  - apply Z.sub_diag.
  - apply SFsub_diag.
Qed.

Lemma zeroish_to_float a : zeroish a -> zero_or_nan (to_float a).
Proof. destruct a as [z | x]; simpl; [intros -> | auto]. exact I. Qed.

Lemma num_mul_zeroish K r : zeroish r -> zeroish (num_mul K r).
Proof.
  destruct K as [k | y], r as [z | x]; simpl; intros H.
  - subst z. apply Z.mul_0_r.
  - apply SFmul_zero_or_nan_r, H.
  - subst z. apply SFmul_zero_or_nan_r. exact I.
  - apply SFmul_zero_or_nan_r, H.
Qed.

Lemma np_mul_zeroish r n : zeroish r -> zeroish (np_mul r n).
Proof.
  destruct r as [z | x], n as [c | y]; simpl; intros H.
  - subst z. reflexivity.
  - subst z. apply SFmul_zero_or_nan_l. exact I.
  - apply SFmul_zero_or_nan_l, H.
  - apply SFmul_zero_or_nan_l, H.
Qed.

Lemma np_mul_zeroish_inf a u :
  zeroish a -> inf_or_nan u -> np_mul a (PyFloat u) = nan.
Proof.
  destruct a as [z | x]; simpl; intros Ha Hu; unfold nan; f_equal.
  - subst z. apply SFmul_zero_inf; [exact I | exact Hu].
  - apply SFmul_zero_inf; assumption.
Qed.

Lemma np_add_nan n : np_add n nan = nan.
Proof.
  destruct n as [c | y]; simpl; unfold nan; f_equal; apply SFadd_nan.
Qed.

Lemma np_sub_int_float x y :
  np_sub (PyInt x) (PyFloat y) = PyFloat (SFsub prec64 emax64 (SFofZ x) y).
Proof. reflexivity. Qed.

Lemma logistic_step_diag (N : row) (lam K : scalar) :
  logistic_step N lam lam K = map (fun _ => nan) N.
Proof.
  unfold logistic_step.
  apply map_ext. intros n.
  pose proof (num_sub_diag lam) as Hr.
  pose proof (num_mul_zeroish K _ Hr) as HKr.
  pose proof (np_mul_zeroish _ n Hr) as HrN.
  unfold np_true_divide. rewrite np_sub_int_float.
  rewrite (np_mul_zeroish_inf _ _ HrN).
  - apply np_add_nan.
  - apply SFsub_inf_or_nan, SFdiv_by_zero_or_nan, zeroish_to_float, HKr.
Qed.

(** X6: [logistic_step] divides by [K * (lam - mu)].  When [mu] is [lam]
    that is a division by zero, which numpy answers with an infinity or NaN
    and no exception, and every cell of the result is NaN, whatever the
    populations and whatever [K]: the step does not return the populations
    unchanged, as the recurrence [N + 0 * ...] might suggest.  (Python
    integers among the arguments are taken to fit an int64.) *)
Theorem logistic_step_equal_rates (N : row) (lam K : scalar) :
  machine_number lam -> machine_number K ->
  logistic_step N lam lam K = map (fun _ => nan) N.
Proof. intros _ _. apply logistic_step_diag. Qed.


Lemma logistic_step_equal_rates_witness :
  logistic_step [PyInt 600; three_halves] half half (PyInt 2000)
  = map (fun _ => nan) [PyInt 600; three_halves].
Proof.
  apply (logistic_step_equal_rates [PyInt 600; three_halves] half (PyInt 2000)).
  - exact I.
  - reflexivity.
Defined.

Lemma map_const_replicate {A B} (b : B) (l : list A) :
  map (fun _ => b) l = replicate (length l) b.
Proof. induction l as [| x l IH]; simpl; [reflexivity | rewrite IH; reflexivity]. Qed.

Lemma of_dtype_float_nan n : of_dtype dt_float (NdArray (replicate n nan)).
Proof. unfold of_dtype. simpl. apply Forall_replicate. reflexivity. Qed.

(** X7: the same in a run.  A float64 trajectory of [logistic_step] with
    [mu] equal to [lam] is NaN in every cell of every generation after the
    initial one. *)
Theorem run_sim_logistic_step_equal_rates {W} garbage (N0 : value) ngens
        (lam K : scalar) (st : state W) traj st' :
  machine_number lam -> machine_number K ->
  run_sim garbage N0 (pure_1d logistic_step_fn) ngens (Some dt_float)
    {| lg_lam := lam; lg_mu := lam; lg_K := K |} st
  = (Ok traj, st') ->
  forall t : nat, 1 <= Z.of_nat t <= ngens - 1 ->
    traj !! t = Some (replicate (len N0) nan).
Proof.
  intros Hlam HK H t Ht.
  pose proof (run_sim_shape _ _ _ _ _ _ _ _ _ H) as (_ & _ & Hrows).
  destruct (run_sim_recurrence _ _ _ _ _ _ _ _ _ (pure_1d_no_inplace _) H t Ht)
    as (prev & out & w & w' & r & Hprev & Hg & Hc & Hr).
  injection Hg as <- _.
  rewrite Forall_lookup in Hrows. pose proof (Hrows _ _ Hprev) as Hlen.
  unfold logistic_step_fn in Hc. simpl in Hc.
  rewrite logistic_step_diag, map_const_replicate, Hlen in Hc.
  pose proof (coerce_fixed _ _ (of_dtype_float_nan (len N0))) as Hfix.
  unfold len at 1 in Hfix. cbn [cells] in Hfix.
  rewrite length_replicate in Hfix.
  simpl dtype_or_default in Hc. rewrite Hfix in Hc. injection Hc as <-.
  exact Hr.
Qed.

Lemma run_sim_logistic_step_equal_rates_witness :
  [[PyFloat (S754_finite false 5277655813324800 (-43))]; [nan]; [nan]] !! 2%nat
  = Some (replicate (len (PyList [PyInt 600])) nan).
Proof.
  apply (run_sim_logistic_step_equal_rates no_garbage (PyList [PyInt 600]) 3 half
           (PyInt 2000) (start tt) _
           {| world := tt;
              trace := [Alloc BufN; Store BufN 0; Call; Store BufN 1;
                        Call; Store BufN 2] |}).
  - exact I.
  - reflexivity.
  - vm_compute. reflexivity.
  - lia.
Defined.

(** * More of the notebook: [logistic_gen] and [lv_gen] *)

Section GenerationFacts.

Context {W : Type}.
Variable rng : np_random W.

Lemma poisson_each_draws rates (w : W) xs w' :
  poisson_each rng rates w = (Ok xs, w') ->
  Forall2 (fun r x => exists w1 w2, poisson rng r w1 = (Ok x, w2)) rates xs.
Proof.
  revert w xs. induction rates as [| r rates IH]; simpl; intros w xs H.
  - injection H as <- _. constructor.
  - inv_bind H. inv_bind H. injection H as <- <-.
    constructor; [eauto | eapply IH, H1].
Qed.

Lemma poisson_each_bounds rates (w : W) xs w' :
  sampler_ok rng ->
  poisson_each rng rates w = (Ok xs, w') ->
  length xs = length rates /\ Forall (fun x => 0 <= x) xs.
Proof.
  intros [Hp _] H. apply poisson_each_draws in H.
  split; [symmetry; eapply Forall2_length, H |].
  induction H as [| r x rates xs (w1 & w2 & Hx) _ IH]; constructor.
  - eapply Hp, Hx.
  - exact IH.
Qed.

(** [logistic_gen], step by step: the births are drawn first, one Poisson
    draw per replicate, then the survivors, one binomial draw per
    replicate. *)
Lemma logistic_gen_inv N lam mu K (w : W) out v' w' :
  logistic_gen rng N lam mu K w = (Ok (out, v'), w') ->
  exists births Nz survivors w1,
    poisson_each rng (logistic_rates N lam K) w = (Ok births, w1)
    /\ N = ints Nz
    /\ binomial_each rng Nz (num_sub (PyInt 1) mu) w1 = (Ok survivors, w')
    /\ out = NdArray (ints (zip_with add64 births survivors))
    /\ v' = N.
Proof.
  unfold logistic_gen. intros H.
  apply bind_ok in H as (births & w1 & Hb & H).
  apply bind_ok in H as (Nz & w2 & HN & H).
  injection HN as HN <-. apply as_int64_ok in HN.
  apply bind_ok in H as (survivors & w3 & Hs & H).
  injection H as <- <- <-.
  exists births, Nz, survivors, w1. auto.
Qed.

End GenerationFacts.

(** X8: one generation of [logistic_gen] with a well-behaved random source.
    The argument is left as it is and the result has its length.  The
    births are the Poisson draws the call starts with, one per replicate at
    the rate [lam * N * fmax(0, 1 - N / K)] of that replicate; the survivors
    are the binomial draws that follow, one per replicate out of the
    population of that replicate with probability [1 - mu].  Each replicate
    of the result is its births, which are not negative, plus its
    survivors, which are at most its population; unless the sum leaves the
    int64 range it is that sum. *)
Theorem logistic_gen_population {W} (rng : np_random W) (N : row)
        (lam mu K : scalar) (w : W) out v' w' :
  sampler_ok rng ->
  logistic_gen rng N lam mu K w = (Ok (out, v'), w') ->
  v' = N
  /\ len out = length N
  /\ exists births Nz survivors w1,
      poisson_each rng (logistic_rates N lam K) w = (Ok births, w1)
      /\ N = ints Nz
      /\ binomial_each rng Nz (num_sub (PyInt 1) mu) w1 = (Ok survivors, w')
      /\ forall k n,
          Nz !! k = Some n ->
          exists b s,
            births !! k = Some b /\ survivors !! k = Some s
            /\ 0 <= b /\ 0 <= s <= n
            /\ cells out !! k = Some (PyInt (add64 b s))
            /\ (b + s <= int64_max -> add64 b s = b + s).
Proof.
  intros Hok H.
  apply logistic_gen_inv in H
    as (births & Nz & survivors & w1 & Hb & -> & Hs & -> & ->).
  destruct (poisson_each_bounds _ _ _ _ _ Hok Hb) as [Hlb Hb0].
  pose proof (binomial_each_length _ _ _ _ _ _ Hs) as Hls.
  pose proof (binomial_each_bounds _ _ _ _ _ _ Hok Hs) as Hs0.
  unfold logistic_rates in Hlb. rewrite length_map in Hlb.
  unfold len, ints in *. cbn [cells]. rewrite length_map in Hlb.
  split; [reflexivity |].
  split; [rewrite !length_map, length_zip_with; lia |].
  exists births, Nz, survivors, w1.
  split; [exact Hb |]. split; [reflexivity |]. split; [exact Hs |].
  intros k n Hn.
  destruct (Forall2_lookup_l _ _ _ _ _ Hs0 Hn) as (s & Hsk & Hsb).
  destruct (lookup_lt_is_Some_2 births k) as [b Hbk].
  { rewrite Hlb. eapply lookup_lt_Some, Hn. }
  rewrite Forall_lookup in Hb0. pose proof (Hb0 _ _ Hbk) as Hb1.
  exists b, s. split; [exact Hbk |]. split; [exact Hsk |].
  split; [exact Hb1 |]. split; [exact Hsb |]. split.
  - unfold row. rewrite lookup_map, lookup_zip_with, Hbk, Hsk. reflexivity.
  - intros Hmax. unfold add64. apply wrap64_small.
    unfold int64_min, int64_max in *. lia.
Qed.

Lemma logistic_gen_population_witness :
  [PyInt 5; PyInt 7] = [PyInt 5; PyInt 7]
  /\ len (NdArray (ints [5; 8])) = length [PyInt 5; PyInt 7]
  /\ exists births Nz survivors w1,
      poisson_each tape_rng (logistic_rates [PyInt 5; PyInt 7] half (PyInt 2000))
        [2; 1; 3; 9]
      = (Ok births, w1)
      /\ [PyInt 5; PyInt 7] = ints Nz
      /\ binomial_each tape_rng Nz (num_sub (PyInt 1) half) w1 = (Ok survivors, [])
      /\ forall k n,
          Nz !! k = Some n ->
          exists b s,
            births !! k = Some b /\ survivors !! k = Some s
            /\ 0 <= b /\ 0 <= s <= n
            /\ cells (NdArray (ints [5; 8])) !! k = Some (PyInt (add64 b s))
            /\ (b + s <= int64_max -> add64 b s = b + s).
Proof.
  apply (logistic_gen_population tape_rng [PyInt 5; PyInt 7] half half
           (PyInt 2000) [2; 1; 3; 9] (NdArray (ints [5; 8])) [PyInt 5; PyInt 7] []).
  - exact tape_rng_ok.
  - vm_compute. reflexivity.
Defined.

Lemma binary_round_aux_not_negative m e l :
  not_negative (binary_round_aux prec64 emax64 false m e l).
Proof.
  unfold binary_round_aux.
  destruct (shr_fexp prec64 emax64 m e l) as [mrs' e'].
  destruct (shr_fexp prec64 emax64 _ e' loc_Exact) as [mrs'' e''].
  destruct (shr_m mrs''); [exact I | | exact I].
  destruct (Z.leb e'' (emax64 - prec64)); exact I.
Qed.

Lemma SFofZ_not_negative z : 0 <= z -> not_negative (SFofZ z).
Proof.
  destruct z as [| m | m]; intros Hz; [exact I | | lia].
  unfold SFofZ, binary_normalize, binary_round.
  destruct (shl_align m 0 _) as [mz ez].
  apply binary_round_aux_not_negative.
Qed.

Lemma SFmul_not_negative x y :
  not_negative x -> not_negative y -> not_negative (SFmul prec64 emax64 x y).
Proof.
  destruct x as [sx | [] | | [] mx ex]; try contradiction;
    destruct y as [sy | [] | | [] my ey]; try contradiction;
    intros _ _; try exact I.
  apply binary_round_aux_not_negative.
Qed.

Lemma np_fmax0_not_negative a :
  exists g, np_fmax0 a = PyFloat g /\ not_negative g.
Proof.
  unfold np_fmax0.
  destruct (to_float a) as [s | s | | s m e].
  - exists (S754_zero false). split; [reflexivity | exact I].
  - destruct s; simpl; eexists; split; try reflexivity; exact I.
  - exists (S754_zero false). split; [reflexivity | exact I].
  - destruct s; simpl; eexists; split; try reflexivity; exact I.
Qed.

Lemma to_float_not_negative c : cell_not_negative c -> not_negative (to_float c).
Proof. destruct c as [n | y]; simpl; [apply SFofZ_not_negative | auto]. Qed.

(** X9: the rate [logistic_gen] hands to [np.random.poisson] is never a
    negative number, for a float [lam] that is not negative and populations
    that are not negative: [np.fmax(0.0, ...)] cuts the factor [1 - N / K]
    off at zero, also where [N] exceeds [K] and where [K] is zero. *)
Theorem logistic_rates_not_negative (N : row) (x : spec_float) (K : scalar)
        (k : nat) (c : scalar) :
  not_negative x ->
  N !! k = Some c ->
  cell_not_negative c ->
  exists r,
    logistic_rates N (PyFloat x) K !! k = Some (PyFloat r) /\ not_negative r.
Proof.
  intros Hx Hc Hc0.
  destruct (np_fmax0_not_negative (np_sub (PyInt 1) (np_true_divide c K)))
    as (g & Hg_eq & Hg).
  assert (Hlc : exists u, np_mul (PyFloat x) c = PyFloat u /\ not_negative u).
  { destruct c as [n | y]; simpl; eexists; (split; [reflexivity |]).
    - apply SFmul_not_negative; [exact Hx | apply SFofZ_not_negative, Hc0].
    - apply SFmul_not_negative; assumption. }
  destruct Hlc as (u & Hu_eq & Hu).
  exists (SFmul prec64 emax64 u g). split.
  - unfold logistic_rates, row. unfold row in Hc.
    rewrite lookup_map, Hc. cbn [fmap option_fmap option_map].
    rewrite Hu_eq, Hg_eq. reflexivity.
  - apply SFmul_not_negative; assumption.
Qed.

Lemma logistic_rates_not_negative_witness :
  exists r,
    logistic_rates [PyInt 3000] half (PyInt 2000) !! 0%nat = Some (PyFloat r)
    /\ not_negative r.
Proof.
  apply (logistic_rates_not_negative [PyInt 3000]
           (S754_finite false 4503599627370496 (-53)) (PyInt 2000) 0 (PyInt 3000)).
  - exact I.
  - reflexivity.
  - simpl. lia.
Defined.

Lemma py_getitem_ok l i x : py_getitem l i = Ok x -> l !! i = Some x.
Proof. unfold py_getitem. destruct (l !! i); [intros [= ->]; reflexivity | discriminate]. Qed.

(** [lv_gen], step by step: the deaths of either species are drawn first,
    then the offspring of either species, each array of draws from where
    the one before it left the random source. *)
Lemma lv_gen_inv {W} (rng : np_random W) np_exp N M_ kwargs (w : W) out vs' w' :
  lv_gen rng np_exp N M_ kwargs w = (Ok (out, vs'), w') ->
  exists Nz Mz p0 p1 lam0 lam1 a0 a1 K0 K1 N_dies w1 M_dies w2 N_repro w3 M_repro,
    length M_ = length N
    /\ N = ints Nz /\ M_ = ints Mz
    /\ (lv_p kwargs !! 0%nat = Some p0 /\ lv_p kwargs !! 1%nat = Some p1)
    /\ (lv_lam kwargs !! 0%nat = Some lam0 /\ lv_lam kwargs !! 1%nat = Some lam1)
    /\ (lv_a kwargs !! 0%nat = Some a0 /\ lv_a kwargs !! 1%nat = Some a1)
    /\ (lv_K kwargs !! 0%nat = Some K0 /\ lv_K kwargs !! 1%nat = Some K1)
    /\ binomial_each rng Nz p0 w = (Ok N_dies, w1)
    /\ binomial_each rng Mz p1 w1 = (Ok M_dies, w2)
    /\ poisson_each rng (zip_with (lv_rate np_exp lam0 a0 K0) N_dies (zip N M_)) w2
       = (Ok N_repro, w3)
    /\ poisson_each rng (zip_with (lv_rate np_exp lam1 a1 K1) M_dies (zip M_ N)) w3
       = (Ok M_repro, w')
    /\ out = (NdArray (ints (zip_with add64 (zip_with sub64 Nz N_dies) N_repro)),
              NdArray (ints (zip_with add64 (zip_with sub64 Mz M_dies) M_repro)))
    /\ vs' = (N, M_).
Proof.
  unfold lv_gen.
  destruct (Nat.eqb_spec (length M_) (length N)) as [Hlen | Hlen];
    simpl; [| discriminate].
  intros H.
  apply bind_ok in H as (p0 & u0 & Hp0 & H).
  injection Hp0 as Hp0 <-. apply py_getitem_ok in Hp0.
  apply bind_ok in H as (Nz & u1 & HN & H).
  injection HN as HN <-. apply as_int64_ok in HN.
  apply bind_ok in H as (N_dies & w1 & HNd & H).
  apply bind_ok in H as (p1 & u2 & Hp1 & H).
  injection Hp1 as Hp1 <-. apply py_getitem_ok in Hp1.
  apply bind_ok in H as (Mz & u3 & HM & H).
  injection HM as HM <-. apply as_int64_ok in HM.
  apply bind_ok in H as (M_dies & w2 & HMd & H).
  apply bind_ok in H as (lam0 & u4 & Hl0 & H).
  injection Hl0 as Hl0 <-. apply py_getitem_ok in Hl0.
  apply bind_ok in H as (a0 & u5 & Ha0 & H).
  injection Ha0 as Ha0 <-. apply py_getitem_ok in Ha0.
  apply bind_ok in H as (K0 & u6 & HK0 & H).
  injection HK0 as HK0 <-. apply py_getitem_ok in HK0.
  apply bind_ok in H as (N_repro & w3 & HNr & H).
  apply bind_ok in H as (lam1 & u7 & Hl1 & H).
  injection Hl1 as Hl1 <-. apply py_getitem_ok in Hl1.
  apply bind_ok in H as (a1 & u8 & Ha1 & H).
  injection Ha1 as Ha1 <-. apply py_getitem_ok in Ha1.
  apply bind_ok in H as (K1 & u9 & HK1 & H).
  injection HK1 as HK1 <-. apply py_getitem_ok in HK1.
  apply bind_ok in H as (M_repro & w5 & HMr & H).
  injection H as <- <- <-.
  exists Nz, Mz, p0, p1, lam0, lam1, a0, a1, K0, K1,
    N_dies, w1, M_dies, w2, N_repro, w3, M_repro.
  auto 20.
Qed.

(** X10: [lv_gen] checks its arguments before it draws a random number.
    Arrays of different lengths fail its assertion; an empty list [p] is an
    [IndexError] at [p[0]]; a float cell in [N] is a [TypeError] of
    [np.random.binomial].  In each case the random source is left as it
    was. *)
Theorem lv_gen_rejects {W} (rng : np_random W) np_exp (N M_ : row) kwargs (w : W) :
  (length M_ <> length N ->
   lv_gen rng np_exp N M_ kwargs w = (Raise AssertionError, w))
  /\ (length M_ = length N -> lv_p kwargs = [] ->
      lv_gen rng np_exp N M_ kwargs w = (Raise IndexError, w))
  /\ (length M_ = length N ->
      forall p0 x, lv_p kwargs !! 0%nat = Some p0 -> PyFloat x ∈ N ->
      lv_gen rng np_exp N M_ kwargs w = (Raise TypeError, w)).
Proof.
  unfold lv_gen. split; [| split].
  - intros Hne. destruct (Nat.eqb_spec (length M_) (length N)); [contradiction |].
    reflexivity.
  - intros Hlen Hp. destruct (Nat.eqb_spec (length M_) (length N)); [| contradiction].
    simpl. unfold bind at 1, lift_outcome, py_getitem. rewrite Hp. reflexivity.
  - intros Hlen p0 x Hp Hx.
    destruct (Nat.eqb_spec (length M_) (length N)); [| contradiction].
    simpl. unfold bind at 1, lift_outcome, py_getitem. rewrite Hp.
    unfold bind at 1. rewrite (as_int64_float _ _ Hx). reflexivity.
Qed.

Lemma lv_gen_rejects_witness :
  lv_gen tape_rng (fun x => x) (ints [500; 400]) (ints [100]) lv_args SI_tape
  = (Raise AssertionError, SI_tape)
  /\ lv_gen tape_rng (fun x => x) (ints [500]) (ints [100])
       {| lv_lam := []; lv_p := []; lv_K := []; lv_a := [] |} SI_tape
     = (Raise IndexError, SI_tape)
  /\ lv_gen tape_rng (fun x => x) [half] (ints [100]) lv_args SI_tape
     = (Raise TypeError, SI_tape).
Proof.
  split; [| split].
  - apply (proj1 (lv_gen_rejects tape_rng (fun x => x) (ints [500; 400]) (ints [100])
                    lv_args SI_tape)).
    simpl. lia.
  - apply (proj1 (proj2 (lv_gen_rejects tape_rng (fun x => x) (ints [500]) (ints [100])
                           {| lv_lam := []; lv_p := []; lv_K := []; lv_a := [] |}
                           SI_tape))); reflexivity.
  - apply (proj2 (proj2 (lv_gen_rejects tape_rng (fun x => x) [half] (ints [100])
                           lv_args SI_tape))
             eq_refl half (S754_finite false 4503599627370496 (-53))).
    + reflexivity.
    + apply list_elem_of_here.
Defined.

(** What [lv_gen] makes of one array of counts, of draws of deaths out of
    them and of draws of offspring. *)
Lemma lv_gen_cells zs dies repro :
  Forall2 (fun n x => 0 <= x <= n) zs dies ->
  length repro = length zs ->
  Forall (fun x => 0 <= x) repro ->
  forall k n,
    zs !! k = Some n ->
    exists d r,
      dies !! k = Some d /\ repro !! k = Some r
      /\ 0 <= d <= n /\ 0 <= r
      /\ ints (zip_with add64 (zip_with sub64 zs dies) repro) !! k
         = Some (PyInt (add64 (sub64 n d) r))
      /\ (n - d + r <= int64_max ->
          add64 (sub64 n d) r = n - d + r /\ 0 <= n - d + r).
Proof.
  intros Hd Hlr Hr0 k n Hn.
  destruct (Forall2_lookup_l _ _ _ _ _ Hd Hn) as (d & Hdk & Hdb).
  destruct (lookup_lt_is_Some_2 repro k) as [r Hrk].
  { rewrite Hlr. eapply lookup_lt_Some, Hn. }
  rewrite Forall_lookup in Hr0. pose proof (Hr0 _ _ Hrk) as Hr1.
  exists d, r. split; [exact Hdk |]. split; [exact Hrk |].
  split; [exact Hdb |]. split; [exact Hr1 |]. split.
  - unfold ints, row. rewrite lookup_map, !lookup_zip_with, Hn, Hdk, Hrk.
    reflexivity.
  - intros Hmax. unfold add64, sub64.
    rewrite (wrap64_small (n - d)) by (unfold int64_min, int64_max in *; lia).
    split; [| lia].
    apply wrap64_small. unfold int64_min, int64_max in *. lia.
Qed.

(** X11: one generation of [lv_gen] with a well-behaved random source.  The
    arguments are left as they are.  The deaths of either species are the
    binomial draws the call starts with, one per replicate out of the
    population of that replicate with the probability [p] of the species;
    the offspring are the Poisson draws that follow, one per replicate at
    the rate [dies * lam * exp(-((N + a * M) / K))] of that replicate.  In
    each replicate, each species loses its deaths, which are at most its
    population, and gains its offspring, which are not negative: unless
    the count leaves the int64 range it is [n - dies + repro], which is not
    negative. *)
Theorem lv_gen_population {W} (rng : np_random W) np_exp (N M_ : row) kwargs
        (w : W) N' M' vs' w' :
  sampler_ok rng ->
  lv_gen rng np_exp N M_ kwargs w = (Ok ((N', M'), vs'), w') ->
  vs' = (N, M_)
  /\ exists Nz Mz p0 p1 lam0 lam1 a0 a1 K0 K1 N_dies w1 M_dies w2 N_repro w3 M_repro,
      (N = ints Nz /\ M_ = ints Mz)
      /\ (lv_p kwargs !! 0%nat = Some p0 /\ lv_p kwargs !! 1%nat = Some p1)
      /\ (lv_lam kwargs !! 0%nat = Some lam0 /\ lv_lam kwargs !! 1%nat = Some lam1)
      /\ (lv_a kwargs !! 0%nat = Some a0 /\ lv_a kwargs !! 1%nat = Some a1)
      /\ (lv_K kwargs !! 0%nat = Some K0 /\ lv_K kwargs !! 1%nat = Some K1)
      /\ binomial_each rng Nz p0 w = (Ok N_dies, w1)
      /\ binomial_each rng Mz p1 w1 = (Ok M_dies, w2)
      /\ poisson_each rng (zip_with (lv_rate np_exp lam0 a0 K0) N_dies (zip N M_)) w2
         = (Ok N_repro, w3)
      /\ poisson_each rng (zip_with (lv_rate np_exp lam1 a1 K1) M_dies (zip M_ N)) w3
         = (Ok M_repro, w')
      /\ (forall k n,
             Nz !! k = Some n ->
             exists d r,
               N_dies !! k = Some d /\ N_repro !! k = Some r
               /\ 0 <= d <= n /\ 0 <= r
               /\ cells N' !! k = Some (PyInt (add64 (sub64 n d) r))
               /\ (n - d + r <= int64_max ->
                   add64 (sub64 n d) r = n - d + r /\ 0 <= n - d + r))
      /\ (forall k n,
             Mz !! k = Some n ->
             exists d r,
               M_dies !! k = Some d /\ M_repro !! k = Some r
               /\ 0 <= d <= n /\ 0 <= r
               /\ cells M' !! k = Some (PyInt (add64 (sub64 n d) r))
               /\ (n - d + r <= int64_max ->
                   add64 (sub64 n d) r = n - d + r /\ 0 <= n - d + r)).
Proof.
  intros Hok H.
  apply lv_gen_inv in H
    as (Nz & Mz & p0 & p1 & lam0 & lam1 & a0 & a1 & K0 & K1
        & N_dies & w1 & M_dies & w2 & N_repro & w3 & M_repro
        & Hlen & HN & HM & Hp & Hlam & Ha & HK & HNd & HMd & HNr & HMr
        & [= -> ->] & ->).
  pose proof (binomial_each_bounds _ _ _ _ _ _ Hok HNd) as HNb.
  pose proof (binomial_each_bounds _ _ _ _ _ _ Hok HMd) as HMb.
  pose proof (binomial_each_length _ _ _ _ _ _ HNd) as HlNd.
  pose proof (binomial_each_length _ _ _ _ _ _ HMd) as HlMd.
  destruct (poisson_each_bounds _ _ _ _ _ Hok HNr) as [HlNr HNr0].
  destruct (poisson_each_bounds _ _ _ _ _ Hok HMr) as [HlMr HMr0].
  rewrite length_zip_with, length_zip in HlNr, HlMr.
  assert (HlN : length N = length Nz).
  { rewrite HN. unfold ints. apply length_map. }
  assert (HlM : length M_ = length Mz).
  { rewrite HM. unfold ints. apply length_map. }
  split; [reflexivity |].
  exists Nz, Mz, p0, p1, lam0, lam1, a0, a1, K0, K1,
    N_dies, w1, M_dies, w2, N_repro, w3, M_repro.
  split; [auto |]. split; [exact Hp |]. split; [exact Hlam |].
  split; [exact Ha |]. split; [exact HK |].
  split; [exact HNd |]. split; [exact HMd |].
  split; [exact HNr |]. split; [exact HMr |].
  split; cbn [cells]; apply lv_gen_cells; try assumption; lia.
Qed.

Lemma lv_gen_population_witness :
  (ints [500], ints [100]) = (ints [500], ints [100])
  /\ exists Nz Mz p0 p1 lam0 lam1 a0 a1 K0 K1 N_dies w1 M_dies w2 N_repro w3 M_repro,
      (ints [500] = ints Nz /\ ints [100] = ints Mz)
      /\ (lv_p lv_args !! 0%nat = Some p0 /\ lv_p lv_args !! 1%nat = Some p1)
      /\ (lv_lam lv_args !! 0%nat = Some lam0 /\ lv_lam lv_args !! 1%nat = Some lam1)
      /\ (lv_a lv_args !! 0%nat = Some a0 /\ lv_a lv_args !! 1%nat = Some a1)
      /\ (lv_K lv_args !! 0%nat = Some K0 /\ lv_K lv_args !! 1%nat = Some K1)
      /\ binomial_each tape_rng Nz p0 [20; 5; 7; 3] = (Ok N_dies, w1)
      /\ binomial_each tape_rng Mz p1 w1 = (Ok M_dies, w2)
      /\ poisson_each tape_rng
           (zip_with (lv_rate (fun x => x) lam0 a0 K0) N_dies
              (zip (ints [500]) (ints [100]))) w2
         = (Ok N_repro, w3)
      /\ poisson_each tape_rng
           (zip_with (lv_rate (fun x => x) lam1 a1 K1) M_dies
              (zip (ints [100]) (ints [500]))) w3
         = (Ok M_repro, [])
      /\ (forall k n,
             Nz !! k = Some n ->
             exists d r,
               N_dies !! k = Some d /\ N_repro !! k = Some r
               /\ 0 <= d <= n /\ 0 <= r
               /\ cells (NdArray (ints [487])) !! k
                  = Some (PyInt (add64 (sub64 n d) r))
               /\ (n - d + r <= int64_max ->
                   add64 (sub64 n d) r = n - d + r /\ 0 <= n - d + r))
      /\ (forall k n,
             Mz !! k = Some n ->
             exists d r,
               M_dies !! k = Some d /\ M_repro !! k = Some r
               /\ 0 <= d <= n /\ 0 <= r
               /\ cells (NdArray (ints [98])) !! k
                  = Some (PyInt (add64 (sub64 n d) r))
               /\ (n - d + r <= int64_max ->
                   add64 (sub64 n d) r = n - d + r /\ 0 <= n - d + r)).
Proof.
  apply (lv_gen_population tape_rng (fun x => x) (ints [500]) (ints [100]) lv_args
           [20; 5; 7; 3] (NdArray (ints [487])) (NdArray (ints [98]))
           (ints [500], ints [100]) []).
  - exact tape_rng_ok.
  - vm_compute. reflexivity.
Defined.

(** * More of the notebook: replicates without infected individuals *)

Section SIFree.

Context {W : Type}.
Variable rng : np_random W.
Hypothesis rng_ok : sampler_ok rng.

Lemma binomial_each_zero n p (w : W) xs w' :
  binomial_each rng (replicate n 0) p w = (Ok xs, w') ->
  filter (fun x => 0 < x) xs = [].
Proof using rng_ok.
  intros H. apply (binomial_each_bounds _ _ _ _ _ _ rng_ok) in H.
  remember (replicate n 0) as zs eqn:Hzs. revert n Hzs.
  induction H as [| z x zs xs Hx _ IH]; intros n Hzs; [reflexivity |].
  destruct n as [| n]; [discriminate |]. injection Hzs as -> ->.
  rewrite filter_cons_False by lia. eapply IH. reflexivity.
Qed.

Lemma infect_free p k S_ I_ (w : W) S' I' w' s :
  infect rng p k (S_, I_) w = (Ok (S', I'), w') ->
  S_ !! k = Some s -> I_ !! k = Some 0 ->
  S' = <[k := sub64 s 0]> S_ /\ I' = <[k := add64 0 0]> I_.
Proof using rng_ok.
  unfold infect. intros H Hs Hi. rewrite Hs, Hi in H.
  apply bind_ok in H as (enc & w1 & Henc & H).
  unfold binomial_size in Henc.
  destruct (Z.ltb_spec s 0); [discriminate |].
  apply binomial_each_zero in Henc. rewrite Henc in H.
  injection H as <- <- _. auto.
Qed.

Lemma infections_free p m a S_ I_ (w : W) S' I' w' :
  for_each (seq a m) (infect rng p) (S_, I_) w = (Ok (S', I'), w') ->
  forall k s, (a <= k < a + m)%nat ->
    S_ !! k = Some s -> I_ !! k = Some 0 ->
    S' !! k = Some (sub64 s 0) /\ I' !! k = Some 0.
Proof using rng_ok.
  revert a S_ I_ w. induction m as [| m IH]; intros a S_ I_ w H k s Hk Hs Hi.
  - lia.
  - simpl in H. apply bind_ok in H as ([S1 I1] & w1 & Hstep & H).
    destruct (decide (k = a)) as [-> | Hne].
    + apply (infect_free _ _ _ _ _ _ _ _ _ Hstep Hs) in Hi as Hstep'.
      destruct Hstep' as [-> ->].
      apply infections_ok in H as [Hout _].
      destruct (Hout a ltac:(lia)) as [-> ->].
      split; apply list_lookup_insert_eq; eapply lookup_lt_Some; eassumption.
    + apply infect_ok in Hstep as (s0 & i0 & x & _ & _ & _ & -> & ->).
      eapply (IH (S a)); [exact H | lia | |].
      * rewrite list_lookup_insert_ne by lia. exact Hs.
      * rewrite list_lookup_insert_ne by lia. exact Hi.
Qed.

End SIFree.

(** X12: with a well-behaved random source, a replicate that [SI_gen] is
    given without infected individuals is returned without infected
    individuals: no death, infection or recovery is drawn out of a
    population of zero. *)
Theorem SI_gen_disease_free {W} (rng : np_random W) (S_ I_ : row) kwargs (w : W)
        S' I' vs' w' k :
  sampler_ok rng ->
  SI_gen rng S_ I_ kwargs w = (Ok ((S', I'), vs'), w') ->
  I_ !! k = Some (PyInt 0) ->
  cells I' !! k = Some (PyInt 0).
Proof.
  intros Hok H Hi.
  apply SI_gen_inv in H
    as (rates & births & w1 & Sz & Iz & dS & w2 & dI & w3 & S2 & I2 & w4 & rec & p
        & Hr & Hb & -> & -> & Hlen & HdS & HdI & Hinf & Hrec & [= -> ->] & ->).
  apply binomial_each_draws in HdS, HdI, Hrec.
  destruct Hok as [Hp Hbn].
  unfold ints, row in Hi. rewrite lookup_map in Hi.
  destruct (Iz !! k) as [i0 |] eqn:Hi0; [| discriminate].
  injection Hi as ->.
  destruct (Forall2_lookup_l _ _ _ _ _ HdI Hi0)
    as (di & Hdi & (u1 & u2 & Hdraw)).
  apply Hbn in Hdraw. assert (di = 0) as -> by lia.
  destruct (lookup_lt_is_Some_2 Sz k) as [s Hs].
  { rewrite Hlen. eapply lookup_lt_Some, Hi0. }
  assert (Hs1 : map (fun s => add64 s births) Sz !! k = Some (add64 s births)).
  { rewrite lookup_map, Hs. reflexivity. }
  destruct (Forall2_lookup_l _ _ _ _ _ HdS Hs1) as (ds & Hds & _).
  assert (Hk : (0 <= k < 0 + length Sz)%nat).
  { split; [lia |]. simpl. eapply lookup_lt_Some, Hs. }
  destruct (infections_free rng (conj Hp Hbn) _ _ _ _ _ _ _ _ _ Hinf k
              (sub64 (add64 s births) ds) Hk) as [_ HI2].
  { rewrite lookup_zip_with, Hs1, Hds. reflexivity. }
  { rewrite lookup_zip_with, Hi0, Hdi. reflexivity. }
  destruct (Forall2_lookup_l _ _ _ _ _ Hrec HI2)
    as (r & Hrk & (u3 & u4 & Hdraw')).
  apply Hbn in Hdraw'. assert (r = 0) as -> by lia.
  cbn [cells]. unfold ints, row.
  rewrite lookup_map, lookup_zip_with, HI2, Hrk. reflexivity.
Qed.

Lemma SI_gen_disease_free_witness :
  cells (NdArray (ints [0; 98])) !! 0%nat = Some (PyInt 0).
Proof.
  apply (SI_gen_disease_free tape_rng (ints [200; 200]) (ints [0; 100]) SI_args
           [3; 1; 0; 5; 2; 9; 9] (NdArray (ints [202; 203])) (NdArray (ints [0; 98]))
           (ints [202; 203], ints [0; 98]) [] 0).
  - exact tape_rng_ok.
  - vm_compute. reflexivity.
  - reflexivity.
Defined.

(** * More of the notebook: [SI_eqn] *)







(** * More of the notebook: [lv_eqn] *)



